(** * Vox Populi mechanics visualizer: gold purchase formulas, hurry modifiers,
      tech progress index and production/GridX correlation.

    Shallow embedding of
      - [src/lib/types/game-context.ts]  (applyModifier, applyPercent, GameContext)
      - [src/lib/formulas/modifiers.ts]  (floorToDivisor and friends)
      - [src/lib/formulas/gold-purchase.ts]
      - [src/lib/utils/hurry-modifiers.ts]
      - [src/lib/utils/tech-progress.ts]

    Numbers.  The TypeScript code works on JavaScript numbers.  The cost
    pipelines floor after every stage, so every intermediate cost is an
    integer; they are embedded over [Z], with [Math.floor (a / b)] read as
    [Z.div] (which floors for either sign of the divisor).  A result that
    can be [NaN] has type [option Z] (or [option Q]), [None] standing for
    [NaN]; [NaN] passes unchanged through [Math.floor], [Math.max], [*] and
    [/].  Values that are genuinely fractional (the interpolated GridX) are
    exact rationals [Q].

    The power.  [Math.pow] works on doubles and is specified only up to
    rounding, so [Math.floor(Math.pow(base, exponent))] is a parameter
    [floorPow] of the cost functions; it returns [None] where [Math.pow]
    returns [NaN] (a negative base with a fractional exponent).  The
    exponent constant is the rational it denotes (0.68 is 17/25, 0.75 is
    3/4).  [powFloor] is the floor of the exact power, the integer [n] with
    [n^b <= base^a < (n+1)^b]; [exactPower] is the instance of [floorPow]
    built on it, which [Math.pow] follows wherever its rounding error does
    not carry the power across an integer.

    The quotient.  The gold/production ratio is the result of a division
    of doubles, the double nearest to the exact quotient (ties to even);
    [roundDouble] computes it, and the comparison of the ratio with a
    target is made on the rounded value.  The interpolated GridX is kept
    exact. *)

From Stdlib Require Import ZArith QArith Qround Qabs Qpower Lia Lqa Sorted.
From stdpp Require Import base option list strings gmap.

Local Open Scope Z_scope.

(* ===================================================================== *)
(** ** Game context (game-context.ts)                                     *)
(* ===================================================================== *)

Inductive GameSpeedType :=
| GAMESPEED_QUICK | GAMESPEED_STANDARD | GAMESPEED_EPIC | GAMESPEED_MARATHON.

Record GameSpeedInfo := {
  gs_type : GameSpeedType;
  growthPercent : Z;
  trainPercent : Z;
  constructPercent : Z;
  createPercent : Z;
  researchPercent : Z;
  goldPercent : Z;
  hurryPercent : Z;
  culturePercent : Z;
  faithPercent : Z
}.

Definition uniformSpeed (t : GameSpeedType) (p : Z) : GameSpeedInfo :=
  {| gs_type := t; growthPercent := p; trainPercent := p; constructPercent := p;
     createPercent := p; researchPercent := p; goldPercent := p;
     hurryPercent := p; culturePercent := p; faithPercent := p |}.

Definition GAME_SPEED_DEFAULTS (t : GameSpeedType) : GameSpeedInfo :=
  match t with
  | GAMESPEED_QUICK => uniformSpeed t 67
  | GAMESPEED_STANDARD => uniformSpeed t 100
  | GAMESPEED_EPIC => uniformSpeed t 150
  | GAMESPEED_MARATHON => uniformSpeed t 300
  end.

(** The formulas below read [ctx.gameSpeed] only; the era, handicap and
    game-constant components of the TypeScript [GameContext] are never
    consulted by them and are left out of the record. *)
Record GameContext := { gameSpeed : GameSpeedInfo }.

Definition createDefaultGameContext : GameContext :=
  {| gameSpeed := GAME_SPEED_DEFAULTS GAMESPEED_STANDARD |}.

(** [Math.floor((value * (100 + modifier)) / 100)] *)
Definition applyModifier (value modifier : Z) : Z :=
  (value * (100 + modifier)) / 100.

(** [Math.floor((value * percent) / 100)] *)
Definition applyPercent (value percent : Z) : Z :=
  (value * percent) / 100.

(* ===================================================================== *)
(** ** Modifier utilities (formulas/modifiers.ts)                         *)
(* ===================================================================== *)

Definition applyModifierChain (value : Z) (modifiers : list Z) : Z :=
  fold_left applyModifier modifiers value.

Definition applyPercentWithMin (value percent minimum : Z) : Z :=
  Z.max minimum (applyPercent value percent).

(** [Math.floor(value / divisor) * divisor] *)
Definition floorToDivisor (value divisor : Z) : Z :=
  value / divisor * divisor.

Definition clamp (value min max : Z) : Z :=
  Z.min max (Z.max min value).

(* ===================================================================== *)
(** ** Gold purchase formulas (formulas/gold-purchase.ts)                 *)
(* ===================================================================== *)

Record GoldPurchaseConstants := {
  GOLD_PURCHASE_GOLD_PER_PRODUCTION : Z;
  HURRY_GOLD_PRODUCTION_EXPONENT : Q;
  GOLD_PURCHASE_VISIBLE_DIVISOR : Z
}.

Definition GOLD_PURCHASE_CONSTANTS_VP : GoldPurchaseConstants :=
  {| GOLD_PURCHASE_GOLD_PER_PRODUCTION := 30;
     HURRY_GOLD_PRODUCTION_EXPONENT := 17 # 25;     (* 0.68 *)
     GOLD_PURCHASE_VISIBLE_DIVISOR := 10 |}.

Definition GOLD_PURCHASE_CONSTANTS_CP : GoldPurchaseConstants :=
  {| GOLD_PURCHASE_GOLD_PER_PRODUCTION := 30;
     HURRY_GOLD_PRODUCTION_EXPONENT := 3 # 4;       (* 0.75 *)
     GOLD_PURCHASE_VISIBLE_DIVISOR := 10 |}.

(** Bitwise search for the greatest [n] with [n ^ b <= T], most significant
    bit first; [i] is the number of bits still to decide. *)
Fixpoint rootBits (T b : Z) (i : nat) (n : Z) : Z :=
  match i with
  | O => n
  | S j =>
      let cand := n + 2 ^ Z.of_nat j in
      rootBits T b j (if cand ^ b <=? T then cand else n)
  end.

(** The floor of the exact power [base ^ exponent] for [base > 0] and an
    exponent [a/b >= 0]: the greatest [n] with [n^b <= base^a].  (0 for a
    base that is not positive.) *)
Definition powFloor (base : Z) (exponent : Q) : Z :=
  if base <=? 0 then 0
  else
    let T := base ^ Qnum exponent in
    rootBits T (Z.pos (Qden exponent)) (S (Z.to_nat (Z.log2 T))) 0.

(** [Math.floor(Math.pow(base, exponent))] as the runtime computes it;
    [None] is [NaN].  (A power that overflows to an infinity is not
    covered: with an exponent below 1 and an integer base no power does.) *)
Definition FloorPow : Type := Z → Q → option Z.

(** The floored power without rounding error, for an exponent [>= 0] in
    lowest terms: [NaN] for a negative base with a fractional exponent, the
    integer power for a negative base with an integer exponent, 1 for
    [0 ^ 0], [powFloor] otherwise. *)
Definition exactPower : FloorPow :=
  fun base exponent =>
    if base <? 0 then
      if Pos.eqb (Qden exponent) 1 then Some (base ^ Qnum exponent) else None
    else if (base =? 0) && (Qnum exponent =? 0) then Some 1
    else Some (powFloor base exponent).

Definition getPurchaseCostFromProduction (floorPow : FloorPow)
    (production : Z) (ctx : GameContext) (hurryModifier : Z)
    (constants : GoldPurchaseConstants) : option Z :=
  if production <=? 0 then Some 0
  else
    let purchaseCostBase := production * GOLD_PURCHASE_GOLD_PER_PRODUCTION constants in
    match floorPow purchaseCostBase (HURRY_GOLD_PRODUCTION_EXPONENT constants) with
    | None => None
    | Some purchaseCost =>
        let purchaseCost :=
          if negb (hurryModifier =? 0)
          then (purchaseCost * Z.max 0 (100 + hurryModifier)) / 100
          else purchaseCost in
        let purchaseCost := (purchaseCost * hurryPercent (gameSpeed ctx)) / 100 in
        Some (Z.max 0 purchaseCost)
    end.

(** Option bags: every field is optional in TypeScript and is given its
    default by the destructuring pattern at the head of the function. *)
Record UnitPurchaseCostOptions := {
  u_hurryCostModifier : option Z;
  u_playerUnitPurchaseMod : option Z;
  u_hurryModifier : option Z;
  u_techProgress : option Z;
  u_enableVPAdjustments : option bool;
  u_constants : option GoldPurchaseConstants
}.

Definition getUnitPurchaseCost (floorPow : FloorPow)
    (productionCost : Z) (ctx : GameContext) (options : UnitPurchaseCostOptions)
    : option Z :=
  let hurryCostModifier := default 0 (u_hurryCostModifier options) in
  let playerUnitPurchaseMod := default 0 (u_playerUnitPurchaseMod options) in
  let hurryModifier := default 0 (u_hurryModifier options) in
  let techProgress := default 0 (u_techProgress options) in
  let enableVPAdjustments := default true (u_enableVPAdjustments options) in
  let constants := default GOLD_PURCHASE_CONSTANTS_VP (u_constants options) in
  if hurryCostModifier =? -1 then Some (-1)
  else
    match getPurchaseCostFromProduction floorPow productionCost ctx hurryModifier constants with
    | None => None
    | Some cost =>
        let cost :=
          if negb (hurryCostModifier =? 0)
          then (cost * Z.max 0 (100 + hurryCostModifier)) / 100 else cost in
        let cost :=
          if negb (playerUnitPurchaseMod =? 0)
          then (cost * Z.max 0 (100 + playerUnitPurchaseMod)) / 100 else cost in
        let cost :=
          if enableVPAdjustments then
            let cost :=
              if 0 <? techProgress then
                let techMod := techProgress / 2 in
                (cost * (100 + techMod)) / 100
              else cost in
            (cost * 8) / 10
          else cost in
        let cost := floorToDivisor cost (GOLD_PURCHASE_VISIBLE_DIVISOR constants) in
        Some (Z.max (GOLD_PURCHASE_VISIBLE_DIVISOR constants) cost)
    end.

Record BuildingPurchaseCostOptions := {
  b_buildingHurryCostModifier : option Z;
  b_playerBuildingPurchaseMod : option Z;
  b_hurryModifier : option Z;
  b_techProgress : option Z;
  b_enableTechScaling : option bool;
  b_isInvestment : option bool;
  b_constants : option GoldPurchaseConstants
}.

Definition getBuildingPurchaseCost (floorPow : FloorPow)
    (productionCost : Z) (ctx : GameContext) (options : BuildingPurchaseCostOptions)
    : option Z :=
  let buildingHurryCostModifier := default (-20) (b_buildingHurryCostModifier options) in
  let playerBuildingPurchaseMod := default 0 (b_playerBuildingPurchaseMod options) in
  let hurryModifier := default 0 (b_hurryModifier options) in
  let techProgress := default 0 (b_techProgress options) in
  let enableTechScaling := default true (b_enableTechScaling options) in
  let isInvestment := default true (b_isInvestment options) in
  let constants := default GOLD_PURCHASE_CONSTANTS_VP (b_constants options) in
  if buildingHurryCostModifier =? -1 then Some (-1)
  else
    match getPurchaseCostFromProduction floorPow productionCost ctx hurryModifier constants with
    | None => None
    | Some cost =>
        let cost :=
          if negb (buildingHurryCostModifier =? 0)
          then (cost * (100 + buildingHurryCostModifier)) / 100 else cost in
        let cost :=
          if negb (playerBuildingPurchaseMod =? 0)
          then (cost * (100 + playerBuildingPurchaseMod)) / 100 else cost in
        let cost :=
          if enableTechScaling then
            if 0 <? techProgress then
              let techMod := techProgress / 3 in
              (cost * (100 + techMod)) / 100
            else cost
          else cost in
        let cost := if isInvestment then (cost * 6) / 10 else cost in
        let cost := floorToDivisor cost (GOLD_PURCHASE_VISIBLE_DIVISOR constants) in
        Some (Z.max (GOLD_PURCHASE_VISIBLE_DIVISOR constants) cost)
    end.

Definition getProjectPurchaseCost (floorPow : FloorPow)
    (productionCost : Z) (ctx : GameContext) (hurryModifier : Z)
    (constants : GoldPurchaseConstants) : option Z :=
  match getPurchaseCostFromProduction floorPow productionCost ctx hurryModifier constants with
  | None => None
  | Some cost =>
      let cost := floorToDivisor cost (GOLD_PURCHASE_VISIBLE_DIVISOR constants) in
      Some (Z.max (GOLD_PURCHASE_VISIBLE_DIVISOR constants) cost)
  end.

(** [2 ^ k] for an integer [k] of either sign. *)
Definition pow2 (k : Z) : Q := (2 ^ k)%Q.

(** For [x > 0], the [k] with [2 ^ k <= x < 2 ^ (k + 1)]. *)
Definition binaryExponent (x : Q) : Z :=
  let k := Z.log2 (Qnum x) - Z.log2 (Z.pos (Qden x)) in
  if Qle_bool (pow2 k) x then k else k - 1.

(** The nearest integer, a tie going to the even one. *)
Definition roundHalfEven (x : Q) : Z :=
  let q := Qfloor x in
  match (x - inject_Z q ?= 1 # 2)%Q with
  | Lt => q
  | Gt => q + 1
  | Eq => if Z.even q then q else q + 1
  end.

(** The double nearest to [x]: a significand of 53 bits, ties to even.
    (Overflow and subnormal numbers are not modelled; the quotients of two
    integers below [2 ^ 53] are far from both.) *)
Definition roundDouble (x : Q) : Q :=
  if Qeq_bool x 0 then 0%Q
  else
    let e := binaryExponent (Qabs x) - 52 in
    Qred (inject_Z (Z.sgn (Qnum x) * roundHalfEven (Qabs x / pow2 e)) * pow2 e)%Q.

(** [goldCost / productionCost], a division of doubles; [None] is [NaN]. *)
Definition getGoldToProductionRatio (floorPow : FloorPow)
    (productionCost : Z) (ctx : GameContext) (constants : GoldPurchaseConstants)
    : option Q :=
  if productionCost <=? 0 then Some 0%Q
  else
    match getPurchaseCostFromProduction floorPow productionCost ctx 0 constants with
    | None => None
    | Some goldCost => Some (roundDouble (inject_Z goldCost / inject_Z productionCost))
    end.

(* ===================================================================== *)
(** ** Hurry modifier sources (utils/hurry-modifiers.ts)                  *)
(* ===================================================================== *)

Inductive ModifierScope := ScopeLocal | ScopeEmpire.

(** The [scope] argument of [calculateTotalHurryModifier]:
    ['local' | 'empire' | 'all']. *)
Inductive ScopeFilter := FilterLocal | FilterEmpire | FilterAll.

Record HurryModifierSource := {
  hm_type : string;
  hm_name : string;
  modifier : Z;
  scope : ModifierScope;
  description : string
}.

Definition scopeMatches (f : ScopeFilter) (s : ModifierScope) : bool :=
  match f, s with
  | FilterAll, _ => true
  | FilterLocal, ScopeLocal => true
  | FilterEmpire, ScopeEmpire => true
  | _, _ => false
  end.

(** A JavaScript [Map] is iterated in insertion order; it is represented by
    its list of entries.  (A real [Map] has no repeated key; nothing below
    needs that.) *)
Definition SourceIndex := list (string * list HurryModifierSource).

(** The inner [for (const modifier of modifiers)] loop. *)
Definition addModifiers (f : ScopeFilter) (total : Z) (modifiers : list HurryModifierSource) : Z :=
  fold_left (fun t m => if scopeMatches f (scope m) then t + modifier m else t)
            modifiers total.

(** The outer [for (const [sourceType, modifiers] of allSources)] loop, from
    a running [total]. *)
Definition totalFrom (f : ScopeFilter) (enabledSources : gset string)
    (allSources : SourceIndex) (total : Z) : Z :=
  fold_left
    (fun total entry =>
       if bool_decide (entry.1 ∈ enabledSources)
       then addModifiers f total entry.2
       else total)
    allSources total.

Definition calculateTotalHurryModifier
    (enabledSources : gset string) (allSources : SourceIndex) (f : ScopeFilter) : Z :=
  totalFrom f enabledSources allSources 0.

Definition industryPolicy (ty nm : string) : HurryModifierSource :=
  {| hm_type := ty; hm_name := nm; modifier := -5; scope := ScopeEmpire;
     description := "-5% gold cost for purchases/investments" |}.

Definition INDUSTRY_POLICY_MODIFIERS : list HurryModifierSource :=
  [ industryPolicy "POLICY_COMMERCE" "Industry (Opener)";
    industryPolicy "POLICY_CARAVANS" "Free Trade";
    industryPolicy "POLICY_TRADE_UNIONS" "Division of Labor";
    industryPolicy "POLICY_ENTREPRENEURSHIP" "Entrepreneurship";
    industryPolicy "POLICY_MERCANTILISM" "Mercantilism";
    industryPolicy "POLICY_PROTECTIONISM" "Protectionism";
    industryPolicy "POLICY_COMMERCE_FINISHER" "Industry (Finisher)" ].

Definition getIndustryPolicyModifiers : SourceIndex :=
  map (fun policy => (hm_type policy, [policy])) INDUSTRY_POLICY_MODIFIERS.

(* ===================================================================== *)
(** ** Tech progress index (utils/tech-progress.ts)                       *)
(* ===================================================================== *)

Record Technology := {
  tech_Type : string;
  tech_Name : string;
  tech_GridX : Z
}.

Record TechProgressData := {
  techToGridX : gmap string Z;
  gridXToCumulativeTechs : gmap Z Z;
  totalTechs : Z;
  maxGridX : Z;
  gridXToTechNames : gmap Z (list string)
}.

(** State of the first pass of [buildTechProgressData]. *)
Record FirstPass := {
  fp_techToGridX : gmap string Z;
  fp_techCountAtGridX : gmap Z Z;
  fp_gridXToTechNames : gmap Z (list string);
  fp_maxGridX : Z
}.

Definition firstPassStep (st : FirstPass) (tech : Technology) : FirstPass :=
  let x := tech_GridX tech in
  {| fp_techToGridX := <[tech_Type tech := x]> (fp_techToGridX st);
     fp_techCountAtGridX :=
       <[x := default 0 (fp_techCountAtGridX st !! x) + 1]> (fp_techCountAtGridX st);
     fp_gridXToTechNames :=
       <[x := default [] (fp_gridXToTechNames st !! x) ++ [tech_Name tech]]>
         (fp_gridXToTechNames st);
     fp_maxGridX := Z.max (fp_maxGridX st) x |}.

Definition firstPass (technologies : list Technology) : FirstPass :=
  fold_left firstPassStep technologies
    {| fp_techToGridX := ∅; fp_techCountAtGridX := ∅;
       fp_gridXToTechNames := ∅; fp_maxGridX := 0 |}.

(** [for (let x = 0; x <= maxGridX; x++)]: [n] turns remain, [x] is the
    loop variable. *)
Fixpoint secondPass (counts : gmap Z Z) (n : nat) (x cumulative : Z)
    (acc : gmap Z Z) : gmap Z Z :=
  match n with
  | O => acc
  | S n' =>
      let cumulative := cumulative + default 0 (counts !! x) in
      secondPass counts n' (x + 1) cumulative (<[x := cumulative]> acc)
  end.

(** What a call computes when the cache is empty. *)
Definition computeTechProgressData (technologies : list Technology) : TechProgressData :=
  let st := firstPass technologies in
  let maxGridX := fp_maxGridX st in
  {| techToGridX := fp_techToGridX st;
     gridXToCumulativeTechs :=
       secondPass (fp_techCountAtGridX st) (Z.to_nat (maxGridX + 1)) 0 0 ∅;
     totalTechs := Z.of_nat (length technologies);
     maxGridX := maxGridX;
     gridXToTechNames := fp_gridXToTechNames st |}.

(** The module-level variable [cachedTechProgressData]. *)
Definition TechCache := option TechProgressData.

(** Stateful functions of the module thread the cache explicitly. *)
Definition CacheM (A : Type) : Type := TechCache → A * TechCache.

Definition buildTechProgressData (technologies : list Technology) : CacheM TechProgressData :=
  fun cachedTechProgressData =>
    match cachedTechProgressData with
    | Some cached => (cached, cachedTechProgressData)
    | None =>
        let data := computeTechProgressData technologies in
        (data, Some data)
    end.

Definition clearTechProgressCache : CacheM unit :=
  fun _ => (tt, None).

Definition getEstimatedTechsAtGridX (data : TechProgressData) (gridX : Z) : Z :=
  let clampedX := Z.max 0 (Z.min gridX (maxGridX data)) in
  default 0 (gridXToCumulativeTechs data !! clampedX).

(** [Math.floor((techs * 100) / totalTechs)]; [None] when [totalTechs] is
    0, where the quotient is [NaN] (or an infinity) and not a percentage. *)
Definition getEstimatedTechProgressAtGridX (data : TechProgressData) (gridX : Z)
    : option Z :=
  let techs := getEstimatedTechsAtGridX data gridX in
  if totalTechs data =? 0 then None
  else Some ((techs * 100) / totalTechs data).

(** [a < b] on numbers. *)
Definition Qlt_bool (a b : Q) : bool := negb (Qle_bool b a).

(** [BUILDING_COST_BY_GRIDX], entries in insertion order. *)
Definition BUILDING_COST_BY_GRIDX : list (Z * Z) :=
  [ (0, 65); (1, 65); (2, 110); (3, 150); (4, 200); (5, 300); (6, 350);
    (7, 500); (8, 600); (9, 1000); (10, 1250); (11, 1800); (12, 2000);
    (13, 2250); (14, 2250); (15, 2500); (16, 2750) ].

(** Nearest table entry; [closestDistance] starts at [Infinity], here
    [None]. *)
Definition closestStep (productionCost : Q) (st : Z * option Q) (entry : Z * Z)
    : Z * option Q :=
  let distance := Qabs (productionCost - inject_Z entry.2)%Q in
  match st.2 with
  | None => (entry.1, Some distance)
  | Some closestDistance =>
      if Qlt_bool distance closestDistance then (entry.1, Some distance)
      else st
  end.

Definition estimateGridXFromBuildingCost (productionCost : Q) : Z :=
  (fold_left (closestStep productionCost) BUILDING_COST_BY_GRIDX (0, None)).1.

(* ===================================================================== *)
(** ** Production cost / GridX correlation (utils/tech-progress.ts)       *)
(* ===================================================================== *)

Inductive EntityType := EntityUnit | EntityBuilding.

Record ProductionGridXDataPoint := {
  productionCost : Q;
  gridX : Q;
  name : string
}.

Record ProductionGridXCorrelation := {
  dataPoints : list ProductionGridXDataPoint;
  entityType : EntityType
}.

(** [Array.prototype.sort] with the comparator
    [(a, b) => a.productionCost - b.productionCost] is a stable sort; the
    stable ascending arrangement of a list is unique, and is produced here
    by insertion from the right. *)
Fixpoint insertByCost (p : ProductionGridXDataPoint) (l : list ProductionGridXDataPoint)
    : list ProductionGridXDataPoint :=
  match l with
  | [] => [p]
  | q :: rest =>
      if Qle_bool (productionCost p) (productionCost q)
      then p :: q :: rest
      else q :: insertByCost p rest
  end.

Definition sortByCost (l : list ProductionGridXDataPoint) : list ProductionGridXDataPoint :=
  fold_right insertByCost [] l.

Definition buildProductionGridXCorrelation
    (points : list ProductionGridXDataPoint) (entityType : EntityType)
    : ProductionGridXCorrelation :=
  {| dataPoints := sortByCost points; entityType := entityType |}.

(** [lowerPoint] and [upperPoint] hold references to array elements and the
    code compares them by identity ([lowerPoint !== upperPoint]).  A
    reference is represented by the array index together with the element
    read there.  (Both variables only ever hold the first element, in scan
    order, carrying its cost, so two selected references are the same object
    exactly when they have the same index, also for an array that lists one
    object twice.) *)
Definition PointRef : Type := nat * ProductionGridXDataPoint.

Definition updLower (cost : Q) (lowerPoint : option PointRef) (point : PointRef)
    : option PointRef :=
  if Qle_bool (productionCost point.2) cost then
    match lowerPoint with
    | None => Some point
    | Some lp =>
        if Qlt_bool (productionCost lp.2) (productionCost point.2)
        then Some point else lowerPoint
    end
  else lowerPoint.

Definition updUpper (cost : Q) (upperPoint : option PointRef) (point : PointRef)
    : option PointRef :=
  if Qle_bool cost (productionCost point.2) then
    match upperPoint with
    | None => Some point
    | Some up =>
        if Qlt_bool (productionCost point.2) (productionCost up.2)
        then Some point else upperPoint
    end
  else upperPoint.

(** The [for (const point of dataPoints)] loop; [i] is the index of the head
    of [points] in the array. *)
Fixpoint scanDataPoints (cost : Q) (i : nat) (points : list ProductionGridXDataPoint)
    (lowerPoint upperPoint : option PointRef) : option PointRef * option PointRef :=
  match points with
  | [] => (lowerPoint, upperPoint)
  | point :: rest =>
      scanDataPoints cost (S i) rest
        (updLower cost lowerPoint (i, point))
        (updUpper cost upperPoint (i, point))
  end.

Definition interpolate (cost : Q) (lp up : ProductionGridXDataPoint) : Q :=
  let t := ((cost - productionCost lp) / (productionCost up - productionCost lp))%Q in
  (gridX lp + t * (gridX up - gridX lp))%Q.

(** The chain of [if]s after the loop. *)
Definition selectGridX (cost : Q) (lowerPoint upperPoint : option PointRef) : Q :=
  match lowerPoint, upperPoint with
  | Some lp, Some up =>
      if negb (Nat.eqb lp.1 up.1) then interpolate cost lp.2 up.2
      else gridX lp.2
  | Some lp, None => gridX lp.2
  | None, Some up => gridX up.2
  | None, None => inject_Z (estimateGridXFromBuildingCost cost)
  end.

Definition getGridXFromProductionCorrelation
    (correlation : ProductionGridXCorrelation) (cost : Q) : Q :=
  match dataPoints correlation with
  | [] => inject_Z (estimateGridXFromBuildingCost cost)
  | _ =>
      let (lowerPoint, upperPoint) :=
        scanDataPoints cost 0 (dataPoints correlation) None None in
      selectGridX cost lowerPoint upperPoint
  end.

(** [Math.round] *)
Definition roundQ (x : Q) : Z := Qfloor (x + (1 # 2))%Q.

Definition getEstimatedTechsFromProductionCorrelation
    (data : TechProgressData) (correlation : ProductionGridXCorrelation) (cost : Q) : Z :=
  getEstimatedTechsAtGridX data (roundQ (getGridXFromProductionCorrelation correlation cost)).

Definition getEstimatedTechProgressFromProductionCorrelation
    (data : TechProgressData) (correlation : ProductionGridXCorrelation) (cost : Q)
    : option Z :=
  getEstimatedTechProgressAtGridX data (roundQ (getGridXFromProductionCorrelation correlation cost)).

(* ===================================================================== *)
(** ** Stage sequences as the specification words them                    *)
(* ===================================================================== *)

(** The empty option bag [{}]. *)
Definition noUnitOptions : UnitPurchaseCostOptions :=
  {| u_hurryCostModifier := None; u_playerUnitPurchaseMod := None;
     u_hurryModifier := None; u_techProgress := None;
     u_enableVPAdjustments := None; u_constants := None |}.

Definition noBuildingOptions : BuildingPurchaseCostOptions :=
  {| b_buildingHurryCostModifier := None; b_playerBuildingPurchaseMod := None;
     b_hurryModifier := None; b_techProgress := None;
     b_enableTechScaling := None; b_isInvestment := None; b_constants := None |}.

(** The stages below are written from the specification alone; they use
    none of the functions embedded from the code. *)

(** [floor(v * (100 + m) / 100)] *)
Definition stageModifier (v m : Z) : Z := (v * (100 + m)) / 100.

(** [floor(v * max(0, 100 + m) / 100)] *)
Definition stageClampedModifier (v m : Z) : Z := (v * Z.max 0 (100 + m)) / 100.

(** [floor(v / d) * d] *)
Definition stageFloorToDivisor (v d : Z) : Z := (v / d) * d.

(** Base cost for a positive production: gold per production, floored
    power, stacking hurry modifier if nonzero, game speed, [max(0, cost)]. *)
Definition baseCost_staged (floorPow : FloorPow) (production : Z) (ctx : GameContext)
    (stacking : Z) (constants : GoldPurchaseConstants) : option Z :=
  let base := production * GOLD_PURCHASE_GOLD_PER_PRODUCTION constants in
  match floorPow base (HURRY_GOLD_PRODUCTION_EXPONENT constants) with
  | None => None
  | Some cost =>
      let cost := if stacking =? 0 then cost else stageClampedModifier cost stacking in
      let cost := (cost * hurryPercent (gameSpeed ctx)) / 100 in
      Some (Z.max 0 cost)
  end.

(** Building sequence: base cost (with the stacking modifier) -> intrinsic
    modifier -> player-wide modifier if nonzero -> progress/3 if scaling is
    on and progress > 0 -> investment 6/10 -> floorToDivisor -> max. *)
Definition buildingPurchaseCost_staged (floorPow : FloorPow) (production : Z)
    (ctx : GameContext) (intrinsic playerMod stacking progress : Z)
    (techScaling investment : bool) (constants : GoldPurchaseConstants) : option Z :=
  let divisor := GOLD_PURCHASE_VISIBLE_DIVISOR constants in
  match baseCost_staged floorPow production ctx stacking constants with
  | None => None
  | Some cost =>
      let cost := stageModifier cost intrinsic in
      let cost := if playerMod =? 0 then cost else stageModifier cost playerMod in
      let cost :=
        if techScaling && (0 <? progress) then stageModifier cost (progress / 3)
        else cost in
      let cost := if investment then (cost * 6) / 10 else cost in
      let cost := stageFloorToDivisor cost divisor in
      Some (Z.max divisor cost)
  end.

(** Unit sequence with the toggle on: base cost -> per-unit modifier ->
    player-wide modifier (skipped if zero) -> progress/2 -> flat 8/10 ->
    floorToDivisor -> max. *)
Definition unitPurchaseCost_staged (floorPow : FloorPow) (production : Z)
    (ctx : GameContext) (perUnit playerMod stacking progress : Z)
    (constants : GoldPurchaseConstants) : option Z :=
  let divisor := GOLD_PURCHASE_VISIBLE_DIVISOR constants in
  match baseCost_staged floorPow production ctx stacking constants with
  | None => None
  | Some cost =>
      let cost := stageClampedModifier cost perUnit in
      let cost := if playerMod =? 0 then cost else stageClampedModifier cost playerMod in
      let cost := stageModifier cost (progress / 2) in
      let cost := (cost * 8) / 10 in
      let cost := stageFloorToDivisor cost divisor in
      Some (Z.max divisor cost)
  end.

(** The rejected variant: intrinsic and stacking modifiers summed into one
    factor inside the base-cost call. *)
Definition buildingPurchaseCost_merged (floorPow : FloorPow) (production : Z)
    (ctx : GameContext) (intrinsic playerMod stacking progress : Z)
    (techScaling investment : bool) (constants : GoldPurchaseConstants) : option Z :=
  buildingPurchaseCost_staged floorPow production ctx 0 playerMod (stacking + intrinsic)
    progress techScaling investment constants.

(** The runtime power returns the floor of the exact power at [base]. *)
Definition floorExactAt (floorPow : FloorPow) (base : Z) (exponent : Q) : Prop :=
  floorPow base exponent = Some (powFloor base exponent).

(* ===================================================================== *)
(** ** Predicates and runs used in the statements                         *)
(* ===================================================================== *)

(** A run of successive [buildTechProgressData] calls, one per catalog. *)
Fixpoint buildRepeatedly (calls : list (list Technology)) : CacheM (list TechProgressData) :=
  fun cache =>
    match calls with
    | [] => ([], cache)
    | technologies :: rest =>
        let (data, cache) := buildTechProgressData technologies cache in
        let (datas, cache) := buildRepeatedly rest cache in
        (data :: datas, cache)
    end.

(** Two small catalogs for the examples. *)
Definition sampleCatalog : list Technology :=
  [ {| tech_Type := "TECH_AGRICULTURE"; tech_Name := "Agriculture"; tech_GridX := 0 |};
    {| tech_Type := "TECH_POTTERY"; tech_Name := "Pottery"; tech_GridX := 1 |};
    {| tech_Type := "TECH_MINING"; tech_Name := "Mining"; tech_GridX := 1 |};
    {| tech_Type := "TECH_IRON_WORKING"; tech_Name := "Iron Working"; tech_GridX := 3 |} ].

Definition otherCatalog : list Technology :=
  [ {| tech_Type := "TECH_FUTURE_TECH"; tech_Name := "Future Tech"; tech_GridX := 2 |} ].

(** The two samples of the interpolation example, listed out of order. *)
Definition exampleSamples : list ProductionGridXDataPoint :=
  [ {| productionCost := 600; gridX := 8; name := "Bank" |};
    {| productionCost := 300; gridX := 5; name := "Forge" |} ].

(** Samples whose column does not decrease as the production cost
    increases. *)
Definition gridXNonDecreasing (points : list ProductionGridXDataPoint) : Prop :=
  ∀ a b, a ∈ points → b ∈ points →
    (productionCost a < productionCost b)%Q → (gridX a <= gridX b)%Q.

(** Samples with pairwise distinct production costs. *)
Definition distinctCosts (points : list ProductionGridXDataPoint) : Prop :=
  ∀ i j a b, points !! i = Some a → points !! j = Some b → i ≠ j →
    ¬ (productionCost a == productionCost b)%Q.

(** [(i, p)] refers to the first element of [points] that carries its
    cost. *)
Definition firstOfCost (points : list ProductionGridXDataPoint) (r : PointRef) : Prop :=
  points !! r.1 = Some r.2
  ∧ ∀ j q, points !! j = Some q →
      (productionCost q == productionCost r.2)%Q → (r.1 <= j)%nat.

(** What [lowerPoint] holds once the elements [seen] have been scanned:
    nothing if no cost is at most [cost], else the first element of the
    greatest such cost. *)
Definition lowerInv (cost : Q) (seen : list ProductionGridXDataPoint)
    (lowerPoint : option PointRef) : Prop :=
  match lowerPoint with
  | None => ∀ q, q ∈ seen → ¬ (productionCost q <= cost)%Q
  | Some r =>
      firstOfCost seen r
      ∧ (productionCost r.2 <= cost)%Q
      ∧ ∀ q, q ∈ seen → (productionCost q <= cost)%Q →
          (productionCost q <= productionCost r.2)%Q
  end.

(** Likewise for [upperPoint]: the first element of the least cost that is
    at least [cost]. *)
Definition upperInv (cost : Q) (seen : list ProductionGridXDataPoint)
    (upperPoint : option PointRef) : Prop :=
  match upperPoint with
  | None => ∀ q, q ∈ seen → ¬ (cost <= productionCost q)%Q
  | Some r =>
      firstOfCost seen r
      ∧ (cost <= productionCost r.2)%Q
      ∧ ∀ q, q ∈ seen → (cost <= productionCost q)%Q →
          (productionCost r.2 <= productionCost q)%Q
  end.

(* ===================================================================== *)
(** ** Further functions of the same modules                              *)
(* ===================================================================== *)

(** [Math.round(value / divisor) * divisor] (formulas/modifiers.ts). *)
Definition roundToVisibleDivisor (value divisor : Z) : Z :=
  roundQ (inject_Z value / inject_Z divisor) * divisor.

(** [ratio > targetRatio]; a comparison with [NaN] is false. *)
Definition ratioAbove (ratio : option Q) (targetRatio : Q) : bool :=
  match ratio with
  | Some r => Qlt_bool targetRatio r
  | None => false
  end.

(** The [while (high - low > 1)] loop of [getBreakEvenProductionCost]
    (formulas/gold-purchase.ts).  [fuel] bounds the number of tests of the
    loop condition; [None] means the bound was reached before the loop
    ended. *)
Fixpoint breakEvenLoop (floorPow : FloorPow) (fuel : nat) (targetRatio : Q)
    (ctx : GameContext) (constants : GoldPurchaseConstants) (low high : Z) : option Z :=
  match fuel with
  | O => None
  | S fuel' =>
      if 1 <? high - low then
        let mid := (low + high) / 2 in
        let ratio := getGoldToProductionRatio floorPow mid ctx constants in
        if ratioAbove ratio targetRatio
        then breakEvenLoop floorPow fuel' targetRatio ctx constants mid high
        else breakEvenLoop floorPow fuel' targetRatio ctx constants low mid
      else Some low
  end.

Definition getBreakEvenProductionCost (floorPow : FloorPow)
    (targetRatio : Q) (ctx : GameContext) (constants : GoldPurchaseConstants) : option Z :=
  breakEvenLoop floorPow 15 targetRatio ctx constants 1 10000.

(** [techProgressData.techToGridX.get(techType) ?? 0] *)
Definition getGridXForTech (data : TechProgressData) (techType : string) : Z :=
  default 0 (techToGridX data !! techType).

Record TechReference := {
  ref_Type : string;
  ref_Name : string
}.

(** [prereqTech] may be [undefined] ([None]); an empty [Type] string is
    falsy as well. *)
Definition getGridXFromPrereqTech (data : TechProgressData)
    (prereqTech : option TechReference) : Z :=
  match prereqTech with
  | None => 0
  | Some ref =>
      if String.eqb (ref_Type ref) "" then 0
      else getGridXForTech data (ref_Type ref)
  end.

(** [WONDER_COST_BY_GRIDX], entries in insertion order. *)
Definition WONDER_COST_BY_GRIDX : list (Z * Z) :=
  [ (1, 150); (2, 185); (3, 200); (4, 250); (5, 400); (6, 500); (7, 800);
    (8, 900); (9, 1000); (10, 1250); (11, 1600); (12, 1700); (13, 1900);
    (14, 2150); (15, 2300); (16, 3000); (17, 3250) ].

Definition estimateGridXFromWonderCost (productionCost : Q) : Z :=
  (fold_left (closestStep productionCost) WONDER_COST_BY_GRIDX (1, None)).1.

(** The [entityType] argument of [getProductionToTechMapping]:
    ['building' | 'wonder' | 'unit']. *)
Inductive MappingEntity := MappingBuilding | MappingWonder | MappingUnit.

Record ProductionToTechMapping := {
  production : Q;
  estimatedGridX : Z;
  estimatedTechProgress : option Z;
  estimatedTechsResearched : Z
}.

Definition getProductionToTechMapping (data : TechProgressData) (productionCost : Q)
    (entityType : MappingEntity) : ProductionToTechMapping :=
  let estimatedGridX :=
    match entityType with
    | MappingWonder => estimateGridXFromWonderCost productionCost
    | _ => estimateGridXFromBuildingCost productionCost
    end in
  {| production := productionCost;
     estimatedGridX := estimatedGridX;
     estimatedTechProgress := getEstimatedTechProgressAtGridX data estimatedGridX;
     estimatedTechsResearched := getEstimatedTechsAtGridX data estimatedGridX |}.

(** Number of technologies of a catalog in the columns [0 .. x], and in
    column [x]. *)
Definition techsUpTo (technologies : list Technology) (x : Z) : Z :=
  Z.of_nat (length (filter (λ t, 0 <= tech_GridX t <= x) technologies)).

Definition techsAt (technologies : list Technology) (x : Z) : Z :=
  Z.of_nat (length (filter (λ t, tech_GridX t = x) technologies)).

(** Ascending production costs: every element costs at most as much as
    each element after it. *)
Definition sortedByCost (points : list ProductionGridXDataPoint) : Prop :=
  StronglySorted (λ a b, (productionCost a <= productionCost b)%Q) points.

(** The elements of cost [k], in list order. *)
Definition costClass (k : Q) (points : list ProductionGridXDataPoint)
    : list ProductionGridXDataPoint :=
  List.filter (fun p => Qeq_bool (productionCost p) k) points.

(** Distance of a production cost to the cost of a table entry. *)
Definition tableDistance (productionCost : Q) (entry : Z * Z) : Q :=
  Qabs (productionCost - inject_Z entry.2)%Q.

(** [g] is the column of the first entry of [table] at the least distance
    from [productionCost]. *)
Definition nearestFirst (table : list (Z * Z)) (productionCost : Q) (g : Z) : Prop :=
  ∃ i entry,
    table !! i = Some entry ∧ g = entry.1
    ∧ (∀ other, other ∈ table →
         (tableDistance productionCost entry <= tableDistance productionCost other)%Q)
    ∧ (∀ j other, (j < i)%nat → table !! j = Some other →
         (tableDistance productionCost entry < tableDistance productionCost other)%Q).

(* ===================================================================== *)
(** * Properties of the gold purchase pipelines                           *)
(* ===================================================================== *)

Section PipelineFacts.

Context (floorPow : FloorPow).

Lemma stageModifier_zero cost : stageModifier cost 0 = cost.
Proof. unfold stageModifier. rewrite Z.add_0_r. apply Z.div_mul. lia. Qed.

Lemma stageClampedModifier_zero cost : stageClampedModifier cost 0 = cost.
Proof. unfold stageClampedModifier. simpl. apply Z.div_mul. lia. Qed.

Lemma baseCost_staged_eq production ctx stacking constants :
  0 < production →
  getPurchaseCostFromProduction floorPow production ctx stacking constants
  = baseCost_staged floorPow production ctx stacking constants.
Proof.
  intros Hp. unfold getPurchaseCostFromProduction, baseCost_staged.
  destruct (Z.leb_spec production 0) as [Hle|_]; [lia|].
  cbv zeta. destruct (floorPow _ _) as [cost|]; [|reflexivity].
  destruct (stacking =? 0); reflexivity.
Qed.

Lemma base_cost_nonpositive production ctx hurryModifier constants :
  production <= 0 →
  getPurchaseCostFromProduction floorPow production ctx hurryModifier constants = Some 0.
Proof.
  intros Hp. unfold getPurchaseCostFromProduction.
  destruct (Z.leb_spec production 0); [reflexivity | lia].
Qed.

(** The base cost is a number exactly when the production is not positive
    or the power is a number. *)
Lemma base_cost_is_number production ctx hurryModifier constants :
  is_Some (getPurchaseCostFromProduction floorPow production ctx hurryModifier constants)
  ↔ (production <= 0
     ∨ is_Some (floorPow (production * GOLD_PURCHASE_GOLD_PER_PRODUCTION constants)
                         (HURRY_GOLD_PRODUCTION_EXPONENT constants))).
Proof.
  unfold getPurchaseCostFromProduction.
  destruct (Z.leb_spec production 0) as [Hle|Hgt].
  - split; [now left | intros _; eexists; reflexivity].
  - cbv zeta. destruct (floorPow _ _) as [n|].
    + split; [intros _; right; eexists; reflexivity | intros _; eexists; reflexivity].
    + split; [intros [x Hx]; discriminate | intros [?|[x Hx]]; [lia | discriminate]].
Qed.

Lemma base_cost_nonneg production ctx hurryModifier constants cost :
  getPurchaseCostFromProduction floorPow production ctx hurryModifier constants = Some cost →
  0 <= cost.
Proof.
  unfold getPurchaseCostFromProduction.
  destruct (production <=? 0); [intros [= <-]; lia|]. cbv zeta.
  destruct (floorPow _ _); [intros [= <-]; lia | discriminate].
Qed.

Lemma visible_divisor_clamp cost divisor :
  0 < divisor →
  (divisor | Z.max divisor (floorToDivisor cost divisor))
  ∧ divisor <= Z.max divisor (floorToDivisor cost divisor).
Proof.
  intros Hd. split; [|lia].
  unfold floorToDivisor.
  destruct (Z.max_spec divisor (cost / divisor * divisor)) as [[_ ->]|[_ ->]].
  - exists (cost / divisor). reflexivity.
  - exists 1. lia.
Qed.

Lemma zero_cost_clamp divisor :
  0 < divisor → Z.max divisor (floorToDivisor 0 divisor) = divisor.
Proof. intros Hd. unfold floorToDivisor. rewrite Z.div_0_l by lia. lia. Qed.

(** Each purchase function returns the sentinel, [NaN], or a clamped
    multiple of the divisor. *)
Lemma unit_cost_shape productionCost ctx options :
  let constants := default GOLD_PURCHASE_CONSTANTS_VP (u_constants options) in
  let divisor := GOLD_PURCHASE_VISIBLE_DIVISOR constants in
  (default 0 (u_hurryCostModifier options) = -1
   ∧ getUnitPurchaseCost floorPow productionCost ctx options = Some (-1))
  ∨ (default 0 (u_hurryCostModifier options) ≠ -1
     ∧ getPurchaseCostFromProduction floorPow productionCost ctx
         (default 0 (u_hurryModifier options)) constants = None
     ∧ getUnitPurchaseCost floorPow productionCost ctx options = None)
  ∨ (default 0 (u_hurryCostModifier options) ≠ -1
     ∧ is_Some (getPurchaseCostFromProduction floorPow productionCost ctx
                  (default 0 (u_hurryModifier options)) constants)
     ∧ ∃ cost, getUnitPurchaseCost floorPow productionCost ctx options
               = Some (Z.max divisor (floorToDivisor cost divisor))).
Proof.
  intros constants divisor. unfold getUnitPurchaseCost. fold constants.
  destruct (Z.eqb_spec (default 0 (u_hurryCostModifier options)) (-1)) as [E|E];
    [left; split; [exact E | reflexivity]|].
  right.
  destruct (getPurchaseCostFromProduction floorPow productionCost ctx _ constants) as [b|];
    [right | left; repeat split; [exact E]].
  split; [exact E|]. split; [eexists; reflexivity|]. cbv zeta.
  eexists. reflexivity.
Qed.

Lemma building_cost_shape productionCost ctx options :
  let constants := default GOLD_PURCHASE_CONSTANTS_VP (b_constants options) in
  let divisor := GOLD_PURCHASE_VISIBLE_DIVISOR constants in
  (default (-20) (b_buildingHurryCostModifier options) = -1
   ∧ getBuildingPurchaseCost floorPow productionCost ctx options = Some (-1))
  ∨ (default (-20) (b_buildingHurryCostModifier options) ≠ -1
     ∧ getPurchaseCostFromProduction floorPow productionCost ctx
         (default 0 (b_hurryModifier options)) constants = None
     ∧ getBuildingPurchaseCost floorPow productionCost ctx options = None)
  ∨ (default (-20) (b_buildingHurryCostModifier options) ≠ -1
     ∧ is_Some (getPurchaseCostFromProduction floorPow productionCost ctx
                  (default 0 (b_hurryModifier options)) constants)
     ∧ ∃ cost, getBuildingPurchaseCost floorPow productionCost ctx options
               = Some (Z.max divisor (floorToDivisor cost divisor))).
Proof.
  intros constants divisor. unfold getBuildingPurchaseCost. fold constants.
  destruct (Z.eqb_spec (default (-20) (b_buildingHurryCostModifier options)) (-1)) as [E|E];
    [left; split; [exact E | reflexivity]|].
  right.
  destruct (getPurchaseCostFromProduction floorPow productionCost ctx _ constants) as [b|];
    [right | left; repeat split; [exact E]].
  split; [exact E|]. split; [eexists; reflexivity|]. cbv zeta.
  eexists. reflexivity.
Qed.

End PipelineFacts.

Example powFloor_30 : powFloor 30 (17 # 25) = 10.
Proof. vm_compute. reflexivity. Qed.

(** The exact floored power at some bases, and [NaN] at a negative base. *)
Example exactPower_examples :
  exactPower 6000 (17 # 25) = Some 370
  ∧ exactPower 4740 (17 # 25) = Some 315
  ∧ exactPower 4770 (17 # 25) = Some 317
  ∧ exactPower (-3000) (17 # 25) = None.
Proof. vm_compute. repeat split; reflexivity. Qed.

Example unit_cost_200 :
  getUnitPurchaseCost exactPower 200 createDefaultGameContext
    {| u_hurryCostModifier := None; u_playerUnitPurchaseMod := None;
       u_hurryModifier := None; u_techProgress := Some 50;
       u_enableVPAdjustments := None; u_constants := None |} = Some 360.
Proof. vm_compute. reflexivity. Qed.

(** C1.  For a positive production cost and an intrinsic modifier other than
    -1, [getBuildingPurchaseCost] is the staged sequence: base cost with the
    stacking modifier inside it (hence scaled by game speed), then the
    intrinsic modifier as a stage of its own, then the player-wide modifier
    if nonzero, then progress/3 if scaling is on and progress > 0, then the
    investment 6/10, then floorToDivisor, then max with the divisor.  This
    holds whatever the runtime's floored power returns, [NaN] included. *)
Theorem building_cost_stage_order (floorPow : FloorPow) (production : Z)
    (ctx : GameContext) (options : BuildingPurchaseCostOptions) :
  0 < production →
  default (-20) (b_buildingHurryCostModifier options) ≠ -1 →
  getBuildingPurchaseCost floorPow production ctx options
  = buildingPurchaseCost_staged floorPow production ctx
      (default (-20) (b_buildingHurryCostModifier options))
      (default 0 (b_playerBuildingPurchaseMod options))
      (default 0 (b_hurryModifier options))
      (default 0 (b_techProgress options))
      (default true (b_enableTechScaling options))
      (default true (b_isInvestment options))
      (default GOLD_PURCHASE_CONSTANTS_VP (b_constants options)).
Proof.
  intros Hp Hsent.
  unfold getBuildingPurchaseCost, buildingPurchaseCost_staged.
  set (intrinsic := default (-20) _) in *.
  set (playerMod := default 0 (b_playerBuildingPurchaseMod options)).
  set (stacking := default 0 (b_hurryModifier options)).
  set (progress := default 0 (b_techProgress options)).
  set (constants := default GOLD_PURCHASE_CONSTANTS_VP _).
  destruct (Z.eqb_spec intrinsic (-1)) as [E|_]; [contradiction|].
  rewrite (baseCost_staged_eq _ _ _ _ _ Hp).
  destruct (baseCost_staged floorPow production ctx stacking constants) as [base|];
    [|reflexivity].
  cbv zeta.
  assert (Hi : (if negb (intrinsic =? 0)
                then base * (100 + intrinsic) / 100 else base)
               = stageModifier base intrinsic).
  { destruct (Z.eqb_spec intrinsic 0) as [->|_]; simpl;
      [now rewrite stageModifier_zero | reflexivity]. }
  rewrite Hi. clear Hi.
  unfold floorToDivisor, stageFloorToDivisor.
  destruct (playerMod =? 0); simpl;
    destruct (default true (b_enableTechScaling options)); simpl;
    destruct (0 <? progress); reflexivity.
Qed.

Lemma building_cost_stage_order_witness :
  getBuildingPurchaseCost exactPower 1800 createDefaultGameContext
    {| b_buildingHurryCostModifier := Some (-20); b_playerBuildingPurchaseMod := None;
       b_hurryModifier := Some (-20); b_techProgress := Some 66;
       b_enableTechScaling := Some true; b_isInvestment := Some true;
       b_constants := None |}
  = buildingPurchaseCost_staged exactPower 1800 createDefaultGameContext (-20) 0 (-20) 66
      true true GOLD_PURCHASE_CONSTANTS_VP.
Proof.
  apply (building_cost_stage_order exactPower 1800 createDefaultGameContext
    {| b_buildingHurryCostModifier := Some (-20); b_playerBuildingPurchaseMod := None;
       b_hurryModifier := Some (-20); b_techProgress := Some 66;
       b_enableTechScaling := Some true; b_isInvestment := Some true;
       b_constants := None |}); simpl; lia.
Defined.

(** Merging the intrinsic modifier into the stacking modifier is a different
    function: the two disagree at production 1800, intrinsic -20, stacking
    -20, progress 66, investment. *)
Example merged_modifier_differs :
  buildingPurchaseCost_staged exactPower 1800 createDefaultGameContext
    (-20) 0 (-20) 66 true true GOLD_PURCHASE_CONSTANTS_VP = Some 770
  ∧ buildingPurchaseCost_merged exactPower 1800 createDefaultGameContext
    (-20) 0 (-20) 66 true true GOLD_PURCHASE_CONSTANTS_VP = Some 720.
Proof. vm_compute. split; reflexivity. Qed.

(** The staged sequence on a power that [Math.pow] leaves just below an
    integer: with exponent 3/5 at base 100000 the exact power is 1000 and a
    runtime returning 999 yields 470 where the exact floor yields 480; the
    code follows the runtime's value in both cases. *)
Example stage_order_follows_runtime_power :
  let constants := {| GOLD_PURCHASE_GOLD_PER_PRODUCTION := 50;
                      HURRY_GOLD_PRODUCTION_EXPONENT := 3 # 5;
                      GOLD_PURCHASE_VISIBLE_DIVISOR := 10 |} in
  let options := {| b_buildingHurryCostModifier := None;
                    b_playerBuildingPurchaseMod := None;
                    b_hurryModifier := None; b_techProgress := None;
                    b_enableTechScaling := None; b_isInvestment := None;
                    b_constants := Some constants |} in
  getBuildingPurchaseCost (fun _ _ => Some 999) 2000 createDefaultGameContext options
    = Some 470
  ∧ getBuildingPurchaseCost exactPower 2000 createDefaultGameContext options
    = Some 480.
Proof. vm_compute. split; reflexivity. Qed.

(** C2.  For a positive production cost, a progress percentage in [0,100],
    a per-unit modifier other than -1 and the VP-adjustments toggle on,
    [getUnitPurchaseCost] is the staged sequence: base cost (gold per
    production, floored power, clamped stacking modifier, game speed), then
    the clamped per-unit modifier, then the clamped player-wide modifier
    (skipped if zero), then progress/2 as a modifier, then the flat 8/10,
    then floorToDivisor, then max with the divisor.  This holds whatever
    the runtime's floored power returns, [NaN] included. *)
Theorem unit_cost_stage_order (floorPow : FloorPow) (production : Z)
    (ctx : GameContext) (options : UnitPurchaseCostOptions) :
  0 < production →
  0 <= default 0 (u_techProgress options) <= 100 →
  default 0 (u_hurryCostModifier options) ≠ -1 →
  default true (u_enableVPAdjustments options) = true →
  getUnitPurchaseCost floorPow production ctx options
  = unitPurchaseCost_staged floorPow production ctx
      (default 0 (u_hurryCostModifier options))
      (default 0 (u_playerUnitPurchaseMod options))
      (default 0 (u_hurryModifier options))
      (default 0 (u_techProgress options))
      (default GOLD_PURCHASE_CONSTANTS_VP (u_constants options)).
Proof.
  intros Hp Hprog Hsent Htoggle.
  unfold getUnitPurchaseCost, unitPurchaseCost_staged.
  rewrite Htoggle.
  set (perUnit := default 0 (u_hurryCostModifier options)) in *.
  set (playerMod := default 0 (u_playerUnitPurchaseMod options)).
  set (stacking := default 0 (u_hurryModifier options)).
  set (progress := default 0 (u_techProgress options)) in *.
  set (constants := default GOLD_PURCHASE_CONSTANTS_VP _).
  destruct (Z.eqb_spec perUnit (-1)) as [E|_]; [contradiction|].
  rewrite (baseCost_staged_eq _ _ _ _ _ Hp).
  destruct (baseCost_staged floorPow production ctx stacking constants) as [base|];
    [|reflexivity].
  cbv zeta.
  assert (Hu : (if negb (perUnit =? 0)
                then base * Z.max 0 (100 + perUnit) / 100 else base)
               = stageClampedModifier base perUnit).
  { destruct (Z.eqb_spec perUnit 0) as [->|_]; simpl;
      [now rewrite stageClampedModifier_zero | reflexivity]. }
  rewrite Hu. clear Hu.
  set (c1 := stageClampedModifier base perUnit).
  assert (Hpl : (if negb (playerMod =? 0)
                 then c1 * Z.max 0 (100 + playerMod) / 100 else c1)
                = (if playerMod =? 0 then c1 else stageClampedModifier c1 playerMod)).
  { destruct (playerMod =? 0); reflexivity. }
  rewrite Hpl. clear Hpl.
  set (c2 := if playerMod =? 0 then c1 else stageClampedModifier c1 playerMod).
  assert (Ht : (if 0 <? progress then c2 * (100 + progress / 2) / 100 else c2)
               = stageModifier c2 (progress / 2)).
  { destruct (Z.ltb_spec 0 progress) as [_|Hz]; [reflexivity|].
    assert (progress = 0) as -> by lia.
    change (0 / 2) with 0. now rewrite stageModifier_zero. }
  rewrite Ht. reflexivity.
Qed.

Lemma unit_cost_stage_order_witness :
  getUnitPurchaseCost exactPower 200 createDefaultGameContext
    {| u_hurryCostModifier := Some 25; u_playerUnitPurchaseMod := Some (-10);
       u_hurryModifier := Some (-15); u_techProgress := Some 50;
       u_enableVPAdjustments := Some true; u_constants := None |}
  = unitPurchaseCost_staged exactPower 200 createDefaultGameContext 25 (-10) (-15) 50
      GOLD_PURCHASE_CONSTANTS_VP.
Proof.
  apply (unit_cost_stage_order exactPower 200 createDefaultGameContext
    {| u_hurryCostModifier := Some 25; u_playerUnitPurchaseMod := Some (-10);
       u_hurryModifier := Some (-15); u_techProgress := Some 50;
       u_enableVPAdjustments := Some true; u_constants := None |});
    simpl; first [lia | reflexivity].
Defined.

(** C3, as stated, fails: with a negative gold-per-production the power of
    the negative base with the fractional exponent is [NaN], and so is the
    result of the three functions: not the sentinel, and not a multiple of
    the (positive) visible divisor 10. *)
Lemma purchase_cost_not_a_number :
  let constants := {| GOLD_PURCHASE_GOLD_PER_PRODUCTION := -30;
                      HURRY_GOLD_PRODUCTION_EXPONENT := 17 # 25;
                      GOLD_PURCHASE_VISIBLE_DIVISOR := 10 |} in
  let uopts := {| u_hurryCostModifier := None; u_playerUnitPurchaseMod := None;
                  u_hurryModifier := None; u_techProgress := None;
                  u_enableVPAdjustments := None; u_constants := Some constants |} in
  let bopts := {| b_buildingHurryCostModifier := None;
                  b_playerBuildingPurchaseMod := None;
                  b_hurryModifier := None; b_techProgress := None;
                  b_enableTechScaling := None; b_isInvestment := None;
                  b_constants := Some constants |} in
  0 < GOLD_PURCHASE_VISIBLE_DIVISOR constants
  ∧ getUnitPurchaseCost exactPower 100 createDefaultGameContext uopts = None
  ∧ getBuildingPurchaseCost exactPower 100 createDefaultGameContext bopts = None
  ∧ getProjectPurchaseCost exactPower 100 createDefaultGameContext 0 constants = None
  ∧ ¬ (∃ r, getUnitPurchaseCost exactPower 100 createDefaultGameContext uopts = Some r
            ∧ (r = -1 ∨ ((10 | r) ∧ 10 <= r))).
Proof.
  cbv zeta. split; [simpl; lia|].
  split; [vm_compute; reflexivity|]. split; [vm_compute; reflexivity|].
  split; [vm_compute; reflexivity|].
  intros (r & Hr & _). vm_compute in Hr. discriminate.
Qed.

(** C3, amended.  With a positive visible divisor, every result of the
    unit, building and project cost functions that is a number other than
    the sentinel -1 is a multiple of the divisor and at least the divisor;
    and the result is a number exactly when the modifier is the sentinel,
    the production is not positive, or the floored power of
    [production * GOLD_PURCHASE_GOLD_PER_PRODUCTION] is a number. *)
Theorem purchase_cost_visible_multiple (floorPow : FloorPow) (production : Z)
    (ctx : GameContext) (uopts : UnitPurchaseCostOptions)
    (bopts : BuildingPurchaseCostOptions)
    (hurryModifier : Z) (constants : GoldPurchaseConstants) :
  let cu := default GOLD_PURCHASE_CONSTANTS_VP (u_constants uopts) in
  let cb := default GOLD_PURCHASE_CONSTANTS_VP (b_constants bopts) in
  let du := GOLD_PURCHASE_VISIBLE_DIVISOR cu in
  let db := GOLD_PURCHASE_VISIBLE_DIVISOR cb in
  let dp := GOLD_PURCHASE_VISIBLE_DIVISOR constants in
  let powerOf c :=
    floorPow (production * GOLD_PURCHASE_GOLD_PER_PRODUCTION c)
             (HURRY_GOLD_PRODUCTION_EXPONENT c) in
  0 < du → 0 < db → 0 < dp →
  (∀ r, getUnitPurchaseCost floorPow production ctx uopts = Some r →
        r ≠ -1 → (du | r) ∧ du <= r)
  ∧ (∀ r, getBuildingPurchaseCost floorPow production ctx bopts = Some r →
          r ≠ -1 → (db | r) ∧ db <= r)
  ∧ (∀ r, getProjectPurchaseCost floorPow production ctx hurryModifier constants = Some r →
          (dp | r) ∧ dp <= r)
  ∧ (is_Some (getUnitPurchaseCost floorPow production ctx uopts)
     ↔ default 0 (u_hurryCostModifier uopts) = -1
       ∨ production <= 0 ∨ is_Some (powerOf cu))
  ∧ (is_Some (getBuildingPurchaseCost floorPow production ctx bopts)
     ↔ default (-20) (b_buildingHurryCostModifier bopts) = -1
       ∨ production <= 0 ∨ is_Some (powerOf cb))
  ∧ (is_Some (getProjectPurchaseCost floorPow production ctx hurryModifier constants)
     ↔ production <= 0 ∨ is_Some (powerOf constants)).
Proof.
  intros cu cb du db dp powerOf Hu Hb Hpj.
  pose proof (unit_cost_shape floorPow production ctx uopts) as HU.
  pose proof (building_cost_shape floorPow production ctx bopts) as HB.
  cbv zeta in HU, HB. fold cu du in HU. fold cb db in HB.
  pose proof (base_cost_is_number floorPow production ctx
                (default 0 (u_hurryModifier uopts)) cu) as HNu.
  pose proof (base_cost_is_number floorPow production ctx
                (default 0 (b_hurryModifier bopts)) cb) as HNb.
  pose proof (base_cost_is_number floorPow production ctx hurryModifier constants) as HNp.
  fold (powerOf cu) in HNu. fold (powerOf cb) in HNb. fold (powerOf constants) in HNp.
  split; [|split; [|split; [|split; [|split]]]].
  - intros r Hr Hne.
    destruct HU as [[_ E]|[(_ & _ & E)|(_ & _ & cost & E)]]; rewrite E in Hr.
    + injection Hr as <-. contradiction.
    + discriminate.
    + injection Hr as <-. now apply visible_divisor_clamp.
  - intros r Hr Hne.
    destruct HB as [[_ E]|[(_ & _ & E)|(_ & _ & cost & E)]]; rewrite E in Hr.
    + injection Hr as <-. contradiction.
    + discriminate.
    + injection Hr as <-. now apply visible_divisor_clamp.
  - intros r Hr. unfold getProjectPurchaseCost in Hr.
    destruct (getPurchaseCostFromProduction floorPow production ctx hurryModifier constants);
      [|discriminate].
    cbv zeta in Hr. injection Hr as <-. now apply visible_divisor_clamp.
  - destruct HU as [[Hs E]|[(Hs & Hn & E)|(Hs & Hn & cost & E)]]; rewrite E.
    + split; [intros _; now left | intros _; eexists; reflexivity].
    + rewrite Hn in HNu. split; [intros [x Hx]; discriminate|].
      intros [?|H]; [contradiction|]. apply HNu in H. destruct H; discriminate.
    + split; [intros _; right; now apply HNu | intros _; eexists; reflexivity].
  - destruct HB as [[Hs E]|[(Hs & Hn & E)|(Hs & Hn & cost & E)]]; rewrite E.
    + split; [intros _; now left | intros _; eexists; reflexivity].
    + rewrite Hn in HNb. split; [intros [x Hx]; discriminate|].
      intros [?|H]; [contradiction|]. apply HNb in H. destruct H; discriminate.
    + split; [intros _; right; now apply HNb | intros _; eexists; reflexivity].
  - rewrite <- HNp. unfold getProjectPurchaseCost.
    destruct (getPurchaseCostFromProduction floorPow production ctx hurryModifier constants).
    + split; intros _; eexists; reflexivity.
    + split; intros [x Hx]; discriminate.
Qed.

Lemma purchase_cost_visible_multiple_witness :
  ((10 | 290) ∧ 10 <= 290)
  ∧ ((10 | 170) ∧ 10 <= 170)
  ∧ ((10 | 370) ∧ 10 <= 370)
  ∧ is_Some (getUnitPurchaseCost exactPower 200 createDefaultGameContext noUnitOptions)
  ∧ is_Some (getBuildingPurchaseCost exactPower 200 createDefaultGameContext noBuildingOptions)
  ∧ is_Some (getProjectPurchaseCost exactPower 200 createDefaultGameContext 0
               GOLD_PURCHASE_CONSTANTS_VP).
Proof.
  pose proof (purchase_cost_visible_multiple exactPower 200 createDefaultGameContext
                noUnitOptions noBuildingOptions 0 GOLD_PURCHASE_CONSTANTS_VP) as H.
  cbv zeta in H. simpl default in H. simpl GOLD_PURCHASE_VISIBLE_DIVISOR in H.
  destruct H as (Hu & Hb & Hp & Nu & Nb & Np); [lia | lia | lia |].
  split; [apply Hu; [vm_compute; reflexivity | lia]|].
  split; [apply Hb; [vm_compute; reflexivity | lia]|].
  split; [apply Hp; vm_compute; reflexivity|].
  split; [apply Nu; right; right; vm_compute; eexists; reflexivity|].
  split; [apply Nb; right; right; vm_compute; eexists; reflexivity|].
  apply Np; right; vm_compute; eexists; reflexivity.
Defined.

(** C4.  A per-unit (resp. per-building) hurry-cost modifier of -1 yields the
    sentinel -1 whatever the other inputs are. *)
Theorem unpurchasable_sentinel (floorPow : FloorPow) (production : Z) (ctx : GameContext)
    (uPlayer uHurry uProgress : option Z) (uToggle : option bool)
    (bPlayer bHurry bProgress : option Z) (bScaling bInvestment : option bool)
    (uConstants bConstants : option GoldPurchaseConstants) :
  getUnitPurchaseCost floorPow production ctx
    {| u_hurryCostModifier := Some (-1); u_playerUnitPurchaseMod := uPlayer;
       u_hurryModifier := uHurry; u_techProgress := uProgress;
       u_enableVPAdjustments := uToggle; u_constants := uConstants |} = Some (-1)
  ∧ getBuildingPurchaseCost floorPow production ctx
    {| b_buildingHurryCostModifier := Some (-1); b_playerBuildingPurchaseMod := bPlayer;
       b_hurryModifier := bHurry; b_techProgress := bProgress;
       b_enableTechScaling := bScaling; b_isInvestment := bInvestment;
       b_constants := bConstants |} = Some (-1).
Proof. split; reflexivity. Qed.

(** C5, as stated, fails: for production 0 the unit, building and project
    functions return the visible divisor 10, not 0. *)
Lemma nonpositive_production_not_zero :
  0 <= 0
  ∧ getUnitPurchaseCost exactPower 0 createDefaultGameContext noUnitOptions ≠ Some 0
  ∧ getBuildingPurchaseCost exactPower 0 createDefaultGameContext noBuildingOptions ≠ Some 0
  ∧ getProjectPurchaseCost exactPower 0 createDefaultGameContext 0 GOLD_PURCHASE_CONSTANTS_VP
    ≠ Some 0.
Proof. repeat split; vm_compute; congruence. Qed.

(** C5, amended.  For a non-positive production the base-cost pipeline
    yields 0; the unit, building and project functions (non-sentinel
    modifier, positive visible divisor) then yield the visible divisor, the
    minimum cost imposed by their final [max]. *)
Theorem nonpositive_production_cost (floorPow : FloorPow) (production : Z)
    (ctx : GameContext)
    (uopts : UnitPurchaseCostOptions) (bopts : BuildingPurchaseCostOptions)
    (hurryModifier : Z) (constants : GoldPurchaseConstants) :
  let du := GOLD_PURCHASE_VISIBLE_DIVISOR (default GOLD_PURCHASE_CONSTANTS_VP (u_constants uopts)) in
  let db := GOLD_PURCHASE_VISIBLE_DIVISOR (default GOLD_PURCHASE_CONSTANTS_VP (b_constants bopts)) in
  let dp := GOLD_PURCHASE_VISIBLE_DIVISOR constants in
  production <= 0 →
  getPurchaseCostFromProduction floorPow production ctx hurryModifier constants = Some 0
  ∧ (default 0 (u_hurryCostModifier uopts) ≠ -1 → 0 < du →
     getUnitPurchaseCost floorPow production ctx uopts = Some du)
  ∧ (default (-20) (b_buildingHurryCostModifier bopts) ≠ -1 → 0 < db →
     getBuildingPurchaseCost floorPow production ctx bopts = Some db)
  ∧ (0 < dp →
     getProjectPurchaseCost floorPow production ctx hurryModifier constants = Some dp).
Proof.
  intros du db dp Hp.
  pose proof (fun hm c => base_cost_nonpositive floorPow production ctx hm c Hp) as Hbase.
  split; [apply Hbase|]. split; [|split].
  - intros Hs Hd. unfold getUnitPurchaseCost.
    destruct (Z.eqb_spec (default 0 (u_hurryCostModifier uopts)) (-1)); [contradiction|].
    rewrite Hbase. cbv zeta. f_equal.
    destruct (negb (default 0 (u_hurryCostModifier uopts) =? 0));
      destruct (negb (default 0 (u_playerUnitPurchaseMod uopts) =? 0));
      destruct (default true (u_enableVPAdjustments uopts));
      destruct (0 <? default 0 (u_techProgress uopts));
      simpl; now apply zero_cost_clamp.
  - intros Hs Hd. unfold getBuildingPurchaseCost.
    destruct (Z.eqb_spec (default (-20) (b_buildingHurryCostModifier bopts)) (-1));
      [contradiction|].
    rewrite Hbase. cbv zeta. f_equal.
    destruct (negb (default (-20) (b_buildingHurryCostModifier bopts) =? 0));
      destruct (negb (default 0 (b_playerBuildingPurchaseMod bopts) =? 0));
      destruct (default true (b_enableTechScaling bopts));
      destruct (0 <? default 0 (b_techProgress bopts));
      destruct (default true (b_isInvestment bopts));
      simpl; now apply zero_cost_clamp.
  - intros Hd. unfold getProjectPurchaseCost. rewrite Hbase. cbv zeta. f_equal.
    now apply zero_cost_clamp.
Qed.

Lemma nonpositive_production_cost_witness :
  getPurchaseCostFromProduction exactPower (-5) createDefaultGameContext 0
    GOLD_PURCHASE_CONSTANTS_VP = Some 0
  ∧ getUnitPurchaseCost exactPower (-5) createDefaultGameContext noUnitOptions = Some 10
  ∧ getBuildingPurchaseCost exactPower (-5) createDefaultGameContext noBuildingOptions
    = Some 10
  ∧ getProjectPurchaseCost exactPower (-5) createDefaultGameContext 0
      GOLD_PURCHASE_CONSTANTS_VP = Some 10.
Proof.
  pose proof (nonpositive_production_cost exactPower (-5) createDefaultGameContext
                noUnitOptions noBuildingOptions 0 GOLD_PURCHASE_CONSTANTS_VP) as H.
  cbv zeta in H. simpl default in H. simpl GOLD_PURCHASE_VISIBLE_DIVISOR in H.
  destruct H as (H0 & Hu & Hb & Hp); [lia|].
  split; [exact H0|]. split; [apply Hu; lia|]. split; [apply Hb; lia | apply Hp; lia].
Defined.

(* ===================================================================== *)
(** * The floored power and the gold/production ratio                     *)
(* ===================================================================== *)

Section FlooredPower.

Lemma rootBits_spec (T b : Z) (i : nat) :
  0 < b → ∀ n, 0 <= n → n ^ b <= T < (n + 2 ^ Z.of_nat i) ^ b →
  0 <= rootBits T b i n
  ∧ rootBits T b i n ^ b <= T < (rootBits T b i n + 1) ^ b.
Proof.
  intros Hb. induction i as [|j IH]; intros n Hn Hinv.
  - simpl in *. split; [exact Hn|]. replace (n + 2 ^ 0) with (n + 1) in Hinv by reflexivity.
    exact Hinv.
  - cbn [rootBits]. cbv zeta.
    assert (H2 : 0 < 2 ^ Z.of_nat j) by (apply Z.pow_pos_nonneg; lia).
    assert (Hs : 2 ^ Z.of_nat (S j) = 2 ^ Z.of_nat j + 2 ^ Z.of_nat j).
    { rewrite Nat2Z.inj_succ, Z.pow_succ_r by lia. lia. }
    destruct (Z.leb_spec ((n + 2 ^ Z.of_nat j) ^ b) T) as [Hle|Hgt].
    + apply IH; [lia|]. split; [exact Hle|].
      replace (n + 2 ^ Z.of_nat j + 2 ^ Z.of_nat j) with (n + 2 ^ Z.of_nat (S j)) by lia.
      apply Hinv.
    + apply IH; [lia|]. split; [apply Hinv | exact Hgt].
Qed.

(** [powFloor base e] is the floor of [base ^ e]: the one natural number [n]
    with [n ^ den <= base ^ num < (n + 1) ^ den]. *)
Lemma powFloor_spec (base : Z) (e : Q) :
  0 < base → 0 <= Qnum e →
  0 <= powFloor base e
  ∧ powFloor base e ^ Z.pos (Qden e) <= base ^ Qnum e
      < (powFloor base e + 1) ^ Z.pos (Qden e).
Proof.
  intros Hx Ha. unfold powFloor.
  destruct (Z.leb_spec base 0) as [?|_]; [lia|]. cbv zeta.
  set (T := base ^ Qnum e). set (b := Z.pos (Qden e)).
  assert (HT : 0 < T) by (apply Z.pow_pos_nonneg; lia).
  assert (Hb : 0 < b) by (unfold b; lia).
  apply rootBits_spec; [exact Hb | lia |].
  split.
  - rewrite Z.pow_0_l by lia. lia.
  - rewrite Z.add_0_l.
    assert (Hk : Z.of_nat (S (Z.to_nat (Z.log2 T))) = Z.succ (Z.log2 T)).
    { rewrite Nat2Z.inj_succ, Z2Nat.id; [reflexivity | apply Z.log2_nonneg]. }
    rewrite Hk.
    pose proof (Z.log2_spec T HT) as [_ Hlt].
    assert (Hone : 1 <= 2 ^ Z.succ (Z.log2 T)) by lia.
    assert (Hmono : (2 ^ Z.succ (Z.log2 T)) ^ 1 <= (2 ^ Z.succ (Z.log2 T)) ^ b).
    { apply Z.pow_le_mono_r; lia. }
    rewrite Z.pow_1_r in Hmono. lia.
Qed.

Lemma pow_lt_cancel (x y b : Z) : 0 < b → 0 <= y → x ^ b < y ^ b → x < y.
Proof.
  intros Hb Hy Hlt. destruct (Z.lt_ge_cases x y) as [?|Hge]; [assumption|].
  assert (y ^ b <= x ^ b) by (apply Z.pow_le_mono_l; lia). lia.
Qed.

Lemma powFloor_mono (x y : Z) (e : Q) :
  0 < x → x <= y → 0 <= Qnum e → powFloor x e <= powFloor y e.
Proof.
  intros Hx Hxy Ha.
  destruct (powFloor_spec x e Hx Ha) as (Hx0 & Hx1 & _).
  destruct (powFloor_spec y e ltac:(lia) Ha) as (Hy0 & _ & Hy2).
  assert (Hpow : x ^ Qnum e <= y ^ Qnum e) by (apply Z.pow_le_mono_l; lia).
  assert (powFloor x e < powFloor y e + 1); [|lia].
  apply (pow_lt_cancel _ _ (Z.pos (Qden e))); lia.
Qed.

(** The strict decrease of [x ^ e / x] for [e < 1], read on the floors. *)
Lemma powFloor_ratio (g p1 p2 : Z) (e : Q) :
  0 < g → 0 < p1 → p1 < p2 → 0 <= Qnum e → Qnum e < Z.pos (Qden e) →
  powFloor (p2 * g) e * p1 < (powFloor (p1 * g) e + 1) * p2.
Proof.
  intros Hg Hp1 Hp12 Ha Hab.
  set (a := Qnum e) in *. set (b := Z.pos (Qden e)) in *.
  destruct (powFloor_spec (p1 * g) e ltac:(nia) Ha) as (Hn1 & _ & Hup).
  destruct (powFloor_spec (p2 * g) e ltac:(nia) Ha) as (Hn2 & Hlow & _).
  fold a b in Hup, Hlow.
  set (n1 := powFloor (p1 * g) e) in *. set (n2 := powFloor (p2 * g) e) in *.
  apply (pow_lt_cancel _ _ b); [unfold b; lia | nia |].
  rewrite !Z.pow_mul_l. rewrite !Z.pow_mul_l in Hup, Hlow.
  assert (Hsplit : ∀ p, 0 < p → p ^ b = p ^ a * p ^ (b - a)).
  { intros p Hp. rewrite <- Z.pow_add_r by lia. f_equal. lia. }
  assert (Hd : p1 ^ (b - a) <= p2 ^ (b - a)) by (apply Z.pow_le_mono_l; lia).
  assert (Hga : 0 < g ^ a) by (apply Z.pow_pos_nonneg; lia).
  assert (Hp1a : 0 < p1 ^ a) by (apply Z.pow_pos_nonneg; lia).
  assert (Hp2a : 0 < p2 ^ a) by (apply Z.pow_pos_nonneg; lia).
  assert (Hp1d : 0 < p1 ^ (b - a)) by (apply Z.pow_pos_nonneg; lia).
  assert (Hp1b : 0 < p1 ^ b) by (apply Z.pow_pos_nonneg; lia).
  assert (Hp2b : 0 < p2 ^ b) by (apply Z.pow_pos_nonneg; lia).
  (* n2^b p1^b <= g^a p2^a p1^b <= g^a p1^a p2^b < (n1+1)^b p2^b *)
  apply Z.le_lt_trans with (p2 ^ a * g ^ a * p1 ^ b).
  { apply Z.mul_le_mono_nonneg_r; lia. }
  apply Z.le_lt_trans with (p1 ^ a * g ^ a * p2 ^ b).
  { rewrite (Hsplit p1 Hp1), (Hsplit p2 ltac:(lia)).
    replace (p2 ^ a * g ^ a * (p1 ^ a * p1 ^ (b - a)))
      with ((p1 ^ a * g ^ a * p2 ^ a) * p1 ^ (b - a)) by ring.
    replace (p1 ^ a * g ^ a * (p2 ^ a * p2 ^ (b - a)))
      with ((p1 ^ a * g ^ a * p2 ^ a) * p2 ^ (b - a)) by ring.
    apply Z.mul_le_mono_nonneg_l; [|exact Hd].
    apply Z.lt_le_incl. repeat apply Z.mul_pos_pos; assumption. }
  apply Z.mul_lt_mono_pos_r; [exact Hp2b | exact Hup].
Qed.

Lemma rootBits_ge (T b : Z) (i : nat) (n : Z) : n <= rootBits T b i n.
Proof.
  revert n. induction i as [|j IH]; intros n; simpl; [lia|].
  assert (0 < 2 ^ Z.of_nat j) by (apply Z.pow_pos_nonneg; lia).
  destruct (_ <=? T); [etransitivity; [|apply IH]; lia | apply IH].
Qed.

Lemma powFloor_nonneg (base : Z) (e : Q) : 0 <= powFloor base e.
Proof. unfold powFloor. destruct (base <=? 0); [lia | apply rootBits_ge]. Qed.

(** The same comparison with the exponent kept: [x ^ e / p ^ e] is the
    constant [g ^ e], so the floors at two productions differ from it by
    the truncation only. *)
Lemma powFloor_power_ratio (g p1 p2 : Z) (e : Q) :
  0 < g → 0 < p1 → 0 < p2 → 0 <= Qnum e →
  powFloor (p2 * g) e ^ Z.pos (Qden e) * p1 ^ Qnum e
  < (powFloor (p1 * g) e + 1) ^ Z.pos (Qden e) * p2 ^ Qnum e.
Proof.
  intros Hg Hp1 Hp2 Ha.
  set (a := Qnum e) in *. set (b := Z.pos (Qden e)) in *.
  destruct (powFloor_spec (p1 * g) e ltac:(nia) Ha) as (Hn1 & _ & Hup).
  destruct (powFloor_spec (p2 * g) e ltac:(nia) Ha) as (Hn2 & Hlow & _).
  fold a b in Hup, Hlow.
  set (n1 := powFloor (p1 * g) e) in *. set (n2 := powFloor (p2 * g) e) in *.
  rewrite !Z.pow_mul_l in Hup, Hlow.
  assert (Hp1a : 0 < p1 ^ a) by (apply Z.pow_pos_nonneg; lia).
  assert (Hp2a : 0 < p2 ^ a) by (apply Z.pow_pos_nonneg; lia).
  apply Z.le_lt_trans with (p2 ^ a * g ^ a * p1 ^ a).
  { apply Z.mul_le_mono_nonneg_r; lia. }
  replace (p2 ^ a * g ^ a * p1 ^ a) with (p1 ^ a * g ^ a * p2 ^ a) by ring.
  apply Z.mul_lt_mono_pos_r; assumption.
Qed.

(** The stages of the base cost after the power: stacking modifier, game
    speed, [max(0, cost)]. *)
Lemma base_stages_mono (hurryModifier h n1 n2 : Z) :
  0 <= n1 <= n2 →
  Z.max 0 ((if negb (hurryModifier =? 0)
            then n1 * Z.max 0 (100 + hurryModifier) / 100 else n1) * h / 100)
  <= Z.max 0 ((if negb (hurryModifier =? 0)
               then n2 * Z.max 0 (100 + hurryModifier) / 100 else n2) * h / 100).
Proof.
  intros Hn.
  set (s := fun n => if negb (hurryModifier =? 0)
                     then n * Z.max 0 (100 + hurryModifier) / 100 else n).
  change (Z.max 0 (s n1 * h / 100) <= Z.max 0 (s n2 * h / 100)).
  assert (Hs : 0 <= s n1 <= s n2).
  { unfold s. destruct (negb (hurryModifier =? 0)); [|lia]. split.
    - apply Z.div_pos; [|lia]. apply Z.mul_nonneg_nonneg; lia.
    - apply Z.div_le_mono; [lia|]. apply Z.mul_le_mono_nonneg_r; lia. }
  destruct (Z.le_gt_cases 0 h) as [Hh|Hh].
  - apply Z.max_le_compat_l. apply Z.div_le_mono; [lia|].
    apply Z.mul_le_mono_nonneg_r; lia.
  - assert (Hneg : ∀ n, 0 <= n → n * h / 100 <= 0).
    { intros n Hn0. apply Z.div_le_upper_bound; [lia|]. nia. }
    pose proof (Hneg (s n1) ltac:(lia)). pose proof (Hneg (s n2) ltac:(lia)). lia.
Qed.

(** The base cost where the runtime's power is the exact floor. *)
Lemma base_cost_exact (floorPow : FloorPow) (production : Z) (ctx : GameContext)
    (hurryModifier : Z) (constants : GoldPurchaseConstants) :
  let n := powFloor (production * GOLD_PURCHASE_GOLD_PER_PRODUCTION constants)
                    (HURRY_GOLD_PRODUCTION_EXPONENT constants) in
  0 < production →
  floorExactAt floorPow (production * GOLD_PURCHASE_GOLD_PER_PRODUCTION constants)
    (HURRY_GOLD_PRODUCTION_EXPONENT constants) →
  getPurchaseCostFromProduction floorPow production ctx hurryModifier constants
  = Some (Z.max 0 ((if negb (hurryModifier =? 0)
                    then n * Z.max 0 (100 + hurryModifier) / 100 else n)
                   * hurryPercent (gameSpeed ctx) / 100)).
Proof.
  intros n Hp Hex. unfold getPurchaseCostFromProduction.
  destruct (Z.leb_spec production 0); [lia|]. cbv zeta.
  rewrite Hex. reflexivity.
Qed.

(** The base cost is monotonic in the production wherever the runtime's
    power is the exact floor. *)
Lemma base_cost_mono_production (floorPow : FloorPow) (p1 p2 : Z) (ctx : GameContext)
    (hurryModifier : Z) (constants : GoldPurchaseConstants) :
  let g := GOLD_PURCHASE_GOLD_PER_PRODUCTION constants in
  let e := HURRY_GOLD_PRODUCTION_EXPONENT constants in
  0 < g → 0 <= Qnum e → p1 <= p2 →
  (0 < p1 → floorExactAt floorPow (p1 * g) e) →
  (0 < p2 → floorExactAt floorPow (p2 * g) e) →
  ∃ c1 c2,
    getPurchaseCostFromProduction floorPow p1 ctx hurryModifier constants = Some c1
    ∧ getPurchaseCostFromProduction floorPow p2 ctx hurryModifier constants = Some c2
    ∧ 0 <= c1 <= c2.
Proof.
  intros g e Hg Ha Hp Hx1 Hx2.
  destruct (Z.le_gt_cases p2 0) as [Hn2|Hpos2].
  { exists 0, 0. rewrite !base_cost_nonpositive by lia. repeat split; lia. }
  specialize (Hx2 Hpos2).
  pose proof (base_cost_exact floorPow p2 ctx hurryModifier constants Hpos2 Hx2) as E2.
  cbv zeta in E2. fold g e in E2.
  destruct (Z.le_gt_cases p1 0) as [Hn1|Hpos1].
  { eexists 0, _. rewrite base_cost_nonpositive by lia. rewrite E2.
    repeat split; lia. }
  specialize (Hx1 Hpos1).
  pose proof (base_cost_exact floorPow p1 ctx hurryModifier constants Hpos1 Hx1) as E1.
  cbv zeta in E1. fold g e in E1.
  eexists _, _. split; [exact E1|]. split; [exact E2|]. split; [lia|].
  apply base_stages_mono. split; [apply powFloor_nonneg|].
  apply powFloor_mono; nia.
Qed.

End FlooredPower.

(* ===================================================================== *)
(** * Rounding to the nearest double                                      *)
(* ===================================================================== *)

Section Doubles.

Lemma pow2_pos k : (0 < pow2 k)%Q.
Proof. apply Qpower_0_lt. reflexivity. Qed.

Lemma pow2_add k m : (pow2 (k + m) == pow2 k * pow2 m)%Q.
Proof. apply Qpower_plus. discriminate. Qed.

Lemma pow2_succ k : (pow2 (k + 1) == 2 * pow2 k)%Q.
Proof. rewrite pow2_add. unfold pow2 at 2. rewrite Qpower_1_r. ring. Qed.

Lemma pow2_le k m : k <= m → (pow2 k <= pow2 m)%Q.
Proof. intros H. apply Qpower_le_compat_l; [exact H | discriminate]. Qed.

Lemma pow2_inject k : 0 <= k → (inject_Z (2 ^ k) == pow2 k)%Q.
Proof. intros H. apply Zpower_Qpower. exact H. Qed.

Lemma binaryExponent_spec (x : Q) :
  (0 < x)%Q →
  (pow2 (binaryExponent x) <= x)%Q ∧ (x < pow2 (binaryExponent x + 1))%Q.
Proof.
  intros Hx. destruct x as [n d]. unfold binaryExponent. cbn [Qnum Qden].
  assert (Hn : 0 < n) by (unfold Qlt in Hx; simpl in Hx; lia).
  set (ln := Z.log2 n). set (ld := Z.log2 (Z.pos d)).
  pose proof (Z.log2_spec n Hn) as [Hn1 Hn2]. fold ln in Hn1, Hn2.
  pose proof (Z.log2_spec (Z.pos d) ltac:(lia)) as [Hd1 Hd2]. fold ld in Hd1, Hd2.
  pose proof (Z.log2_nonneg n) as Hln. fold ln in Hln.
  pose proof (Z.log2_nonneg (Z.pos d)) as Hld. fold ld in Hld.
  assert (Hlow : (pow2 (ln - ld - 1) <= n # d)%Q).
  { assert (E : (pow2 (ln - ld - 1) * pow2 (ld + 1) == pow2 ln)%Q).
    { rewrite <- pow2_add. replace (ln - ld - 1 + (ld + 1)) with ln by lia. reflexivity. }
    pose proof (pow2_pos (ln - ld - 1)) as Hp.
    pose proof (pow2_pos (ld + 1)) as Hp'.
    assert (Hdq : (inject_Z (Z.pos d) <= pow2 (ld + 1))%Q).
    { rewrite <- pow2_inject by lia. rewrite <- Zle_Qle. rewrite <- Z.add_1_r in Hd2. lia. }
    assert (Hnq : (pow2 ln <= inject_Z n)%Q).
    { rewrite <- pow2_inject by lia. rewrite <- Zle_Qle. lia. }
    rewrite (Qmake_Qdiv n d). apply Qle_shift_div_l; [unfold Qlt; simpl; lia|].
    apply Qle_trans with (pow2 (ln - ld - 1) * pow2 (ld + 1))%Q.
    - apply Qmult_le_l; [exact Hp | exact Hdq].
    - rewrite E. exact Hnq. }
  assert (Hup : (n # d < pow2 (ln - ld + 1))%Q).
  { assert (E : (pow2 (ln - ld + 1) * pow2 ld == pow2 (ln + 1))%Q).
    { rewrite <- pow2_add. replace (ln - ld + 1 + ld) with (ln + 1) by lia. reflexivity. }
    pose proof (pow2_pos (ln - ld + 1)) as Hp.
    assert (Hdq : (pow2 ld <= inject_Z (Z.pos d))%Q).
    { rewrite <- pow2_inject by lia. rewrite <- Zle_Qle. lia. }
    assert (Hnq : (inject_Z n < pow2 (ln + 1))%Q).
    { rewrite <- pow2_inject by lia. rewrite <- Zlt_Qlt. rewrite <- Z.add_1_r in Hn2. lia. }
    rewrite (Qmake_Qdiv n d). apply Qlt_shift_div_r; [unfold Qlt; simpl; lia|].
    apply Qlt_le_trans with (pow2 (ln + 1)); [exact Hnq|].
    rewrite <- E. apply Qmult_le_l; [exact Hp | exact Hdq]. }
  destruct (Qle_bool (pow2 (ln - ld)) (n # d)) eqn:Ht.
  - apply Qle_bool_iff in Ht. split; assumption.
  - split.
    + exact Hlow.
    + replace (ln - ld - 1 + 1) with (ln - ld) by lia.
      apply Qnot_le_lt. intros Hc. apply Qle_bool_iff in Hc. congruence.
Qed.


Lemma roundHalfEven_cases (x : Q) :
  let q := Qfloor x in
  ((x - inject_Z q < 1 # 2)%Q ∧ roundHalfEven x = q)
  ∨ ((x - inject_Z q == 1 # 2)%Q ∧ (roundHalfEven x = q ∨ roundHalfEven x = q + 1)
     ∧ roundHalfEven x = (if Z.even q then q else q + 1))
  ∨ ((1 # 2 < x - inject_Z q)%Q ∧ roundHalfEven x = q + 1).
Proof.
  intros q. unfold roundHalfEven. fold q.
  destruct (x - inject_Z q ?= 1 # 2)%Q eqn:E.
  - right; left. apply Qeq_alt in E. split; [exact E|].
    split; [destruct (Z.even q); auto | reflexivity].
  - left. apply Qlt_alt in E. split; [exact E | reflexivity].
  - right; right. apply Qgt_alt in E. split; [exact E | reflexivity].
Qed.

Lemma Qfloor_bounds (x : Q) :
  (inject_Z (Qfloor x) <= x)%Q ∧ (x < inject_Z (Qfloor x) + 1)%Q.
Proof.
  split; [apply Qfloor_le|].
  pose proof (Qlt_floor x) as H. rewrite inject_Z_plus in H. exact H.
Qed.

(** The nearest integer is at most one half away. *)
Lemma roundHalfEven_near (x : Q) :
  (inject_Z (roundHalfEven x) - (1 # 2) <= x)%Q
  ∧ (x <= inject_Z (roundHalfEven x) + (1 # 2))%Q.
Proof.
  pose proof (Qfloor_bounds x) as [Hl Hu].
  destruct (roundHalfEven_cases x) as [[H ->]|[(H & [-> | ->] & _)|[H ->]]];
    rewrite ?inject_Z_plus; change (inject_Z 1) with 1%Q; split; lra.
Qed.

Lemma roundHalfEven_mono (x y : Q) :
  (x <= y)%Q → roundHalfEven x <= roundHalfEven y.
Proof.
  intros Hxy. pose proof (Qfloor_resp_le x y Hxy) as Hq.
  destruct (Z.eq_dec (Qfloor x) (Qfloor y)) as [E|Hne].
  - destruct (roundHalfEven_cases x) as [[Hx Ex]|[(Hx & _ & Ex)|[Hx Ex]]];
      destruct (roundHalfEven_cases y) as [[Hy Ey]|[(Hy & _ & Ey)|[Hy Ey]]];
      cbv zeta in *; rewrite Ex, Ey; rewrite <- ?E in *;
        try (destruct (Z.even (Qfloor x)); lia); try lia; exfalso; lra.
  - assert (roundHalfEven x <= Qfloor x + 1).
    { destruct (roundHalfEven_cases x) as [[_ ->]|[(_ & [-> | ->] & _)|[_ ->]]]; lia. }
    assert (Qfloor y <= roundHalfEven y).
    { destruct (roundHalfEven_cases y) as [[_ ->]|[(_ & [-> | ->] & _)|[_ ->]]]; lia. }
    lia.
Qed.

Lemma roundHalfEven_inject (m : Z) : roundHalfEven (inject_Z m) = m.
Proof.
  pose proof (roundHalfEven_near (inject_Z m)) as [Hl Hu].
  set (r := roundHalfEven (inject_Z m)) in *.
  destruct (Z.lt_trichotomy r m) as [Hlt|[E|Hgt]]; [|exact E|].
  - assert (r + 1 <= m) as Hz by lia. rewrite Zle_Qle, inject_Z_plus in Hz.
    change (inject_Z 1) with 1%Q in Hz. lra.
  - assert (m + 1 <= r) as Hz by lia. rewrite Zle_Qle, inject_Z_plus in Hz.
    change (inject_Z 1) with 1%Q in Hz. lra.
Qed.

(** A positive number is rounded to [m * 2 ^ e] with a significand [m] of
    53 bits, the nearest such number. *)
Lemma roundDouble_positive (x : Q) :
  (0 < x)%Q →
  let e := binaryExponent x - 52 in
  let m := roundHalfEven (x / pow2 e) in
  (roundDouble x == inject_Z m * pow2 e)%Q
  ∧ 2 ^ 52 <= m <= 2 ^ 53
  ∧ (inject_Z m * pow2 e - pow2 e / 2 <= x)%Q
  ∧ (x <= inject_Z m * pow2 e + pow2 e / 2)%Q.
Proof.
  intros Hx e m.
  pose proof (binaryExponent_spec x Hx) as [Hlo Hhi].
  pose proof (pow2_pos e) as He.
  assert (Hne : ¬ (pow2 e == 0)%Q) by lra.
  assert (Hs : (x == x / pow2 e * pow2 e)%Q) by (field; exact Hne).
  assert (E52 : (pow2 (binaryExponent x) == inject_Z (2 ^ 52) * pow2 e)%Q).
  { rewrite pow2_inject by lia. rewrite <- pow2_add. unfold e.
    replace (52 + (binaryExponent x - 52)) with (binaryExponent x) by lia. reflexivity. }
  assert (E53 : (pow2 (binaryExponent x + 1) == inject_Z (2 ^ 53) * pow2 e)%Q).
  { rewrite pow2_inject by lia. rewrite <- pow2_add. unfold e.
    replace (53 + (binaryExponent x - 52)) with (binaryExponent x + 1) by lia. reflexivity. }
  assert (Hs1 : (inject_Z (2 ^ 52) <= x / pow2 e)%Q).
  { apply Qle_shift_div_l; [exact He|]. rewrite <- E52. exact Hlo. }
  assert (Hs2 : (x / pow2 e <= inject_Z (2 ^ 53))%Q).
  { apply Qle_shift_div_r; [exact He|]. rewrite <- E53. apply Qlt_le_weak. exact Hhi. }
  assert (Hm : 2 ^ 52 <= m <= 2 ^ 53).
  { unfold m. split.
    - rewrite <- (roundHalfEven_inject (2 ^ 52)). apply roundHalfEven_mono. exact Hs1.
    - rewrite <- (roundHalfEven_inject (2 ^ 53)). apply roundHalfEven_mono. exact Hs2. }
  split.
  { unfold roundDouble.
    assert (Hz : Qeq_bool x 0 = false).
    { destruct (Qeq_bool x 0) eqn:Eb; [|reflexivity].
      apply Qeq_bool_iff in Eb. lra. }
    rewrite Hz. cbv zeta. rewrite Qred_correct.
    destruct x as [n d]. assert (Hn : 0 < n) by (unfold Qlt in Hx; simpl in Hx; lia).
    unfold Qabs. cbn [Qnum]. rewrite Z.abs_eq by lia.
    rewrite Z.sgn_pos by exact Hn. rewrite Z.mul_1_l. reflexivity. }
  split; [exact Hm|].
  pose proof (roundHalfEven_near (x / pow2 e)) as [Hn1 Hn2]. fold m in Hn1, Hn2.
  set (s := (x / pow2 e)%Q) in *. set (p := pow2 e) in *.
  assert (E1 : (inject_Z m * p - p / 2 == (inject_Z m - (1 # 2)) * p)%Q) by field.
  assert (E2 : (inject_Z m * p + p / 2 == (inject_Z m + (1 # 2)) * p)%Q) by field.
  split.
  - rewrite E1, Hs. apply Qmult_le_compat_r; [exact Hn1 | lra].
  - rewrite E2. rewrite Hs at 1. apply Qmult_le_compat_r; [exact Hn2 | lra].
Qed.

Lemma roundDouble_zero (x : Q) : (x == 0)%Q → roundDouble x = 0%Q.
Proof.
  intros Hx. unfold roundDouble. apply Qeq_bool_iff in Hx. rewrite Hx. reflexivity.
Qed.

Lemma roundDouble_positive_bounds (x : Q) :
  (0 < x)%Q →
  (pow2 (binaryExponent x) <= roundDouble x)%Q
  ∧ (roundDouble x <= pow2 (binaryExponent x + 1))%Q.
Proof.
  intros Hx. destruct (roundDouble_positive x Hx) as (E & Hm & _). cbv zeta in *.
  set (e := binaryExponent x - 52) in *.
  set (m := roundHalfEven (x / pow2 e)) in *.
  pose proof (pow2_pos e) as He.
  assert (E52 : (pow2 (binaryExponent x) == inject_Z (2 ^ 52) * pow2 e)%Q).
  { rewrite pow2_inject by lia. rewrite <- pow2_add. unfold e.
    replace (52 + (binaryExponent x - 52)) with (binaryExponent x) by lia. reflexivity. }
  assert (E53 : (pow2 (binaryExponent x + 1) == inject_Z (2 ^ 53) * pow2 e)%Q).
  { rewrite pow2_inject by lia. rewrite <- pow2_add. unfold e.
    replace (53 + (binaryExponent x - 52)) with (binaryExponent x + 1) by lia. reflexivity. }
  rewrite E, E52, E53. split; apply Qmult_le_compat_r; try lra; rewrite <- Zle_Qle; lia.
Qed.

Lemma roundDouble_nonneg (x : Q) : (0 <= x)%Q → (0 <= roundDouble x)%Q.
Proof.
  intros Hx. destruct (Qeq_dec x 0) as [E|Hne].
  - rewrite (roundDouble_zero x E). apply Qle_refl.
  - assert (Hpos : (0 < x)%Q).
    { apply Qle_lteq in Hx as [H|H]; [exact H | exfalso; apply Hne; symmetry; exact H]. }
    destruct (roundDouble_positive_bounds x Hpos) as [Hl _].
    pose proof (pow2_pos (binaryExponent x)). lra.
Qed.

(** Rounding keeps the order of non-negative numbers. *)
Lemma roundDouble_mono (x y : Q) :
  (0 <= x)%Q → (x <= y)%Q → (roundDouble x <= roundDouble y)%Q.
Proof.
  intros Hx Hxy. destruct (Qeq_dec x 0) as [E|Hne].
  { rewrite (roundDouble_zero x E). apply roundDouble_nonneg. lra. }
  assert (Hxp : (0 < x)%Q).
  { apply Qle_lteq in Hx as [H|H]; [exact H | exfalso; apply Hne; symmetry; exact H]. }
  assert (Hyp : (0 < y)%Q) by lra.
  pose proof (binaryExponent_spec x Hxp) as [Hxl Hxu].
  pose proof (binaryExponent_spec y Hyp) as [Hyl Hyu].
  assert (Hk : binaryExponent x <= binaryExponent y).
  { assert (Hlt : (pow2 (binaryExponent x) < pow2 (binaryExponent y + 1))%Q) by lra.
    apply Qpower_lt_compat_l_inv in Hlt; [lia | reflexivity]. }
  destruct (Z.eq_dec (binaryExponent x) (binaryExponent y)) as [Ek|Hlt].
  - destruct (roundDouble_positive x Hxp) as (Ex & _).
    destruct (roundDouble_positive y Hyp) as (Ey & _).
    cbv zeta in Ex, Ey. rewrite Ex, Ey, Ek.
    pose proof (pow2_pos (binaryExponent y - 52)) as He.
    apply Qmult_le_compat_r; [|lra]. rewrite <- Zle_Qle.
    apply roundHalfEven_mono. apply Qmult_le_compat_r; [exact Hxy|].
    apply Qlt_le_weak, Qinv_lt_0_compat, He.
  - destruct (roundDouble_positive_bounds x Hxp) as [_ Hu].
    destruct (roundDouble_positive_bounds y Hyp) as [Hl _].
    apply Qle_trans with (pow2 (binaryExponent x + 1)); [exact Hu|].
    apply Qle_trans with (pow2 (binaryExponent y)); [|exact Hl].
    apply pow2_le. lia.
Qed.

(** The relative error of rounding is at most [2 ^ -53]. *)
Lemma roundDouble_error (x : Q) :
  (0 <= x)%Q →
  (x - x * pow2 (-53) <= roundDouble x)%Q ∧ (roundDouble x <= x + x * pow2 (-53))%Q.
Proof.
  intros Hx. destruct (Qeq_dec x 0) as [E|Hne].
  { rewrite (roundDouble_zero x E), E. split; ring_simplify; apply Qle_refl. }
  assert (Hxp : (0 < x)%Q).
  { apply Qle_lteq in Hx as [H|H]; [exact H | exfalso; apply Hne; symmetry; exact H]. }
  destruct (roundDouble_positive x Hxp) as (E & _ & Hl & Hu). cbv zeta in *.
  pose proof (binaryExponent_spec x Hxp) as [Hlo _].
  set (e := binaryExponent x - 52) in *.
  assert (Ehalf : (pow2 e / 2 == pow2 (binaryExponent x) * pow2 (-53))%Q).
  { rewrite <- pow2_add. replace (binaryExponent x + -53) with (e + -1) by (unfold e; lia).
    rewrite pow2_add. unfold pow2 at 3. change (2 ^ (-1))%Q with (/ 2)%Q. field. }
  assert (Hb : (pow2 e / 2 <= x * pow2 (-53))%Q).
  { rewrite Ehalf. apply Qmult_le_compat_r; [exact Hlo|]. apply Qlt_le_weak, pow2_pos. }
  rewrite E. split; lra.
Qed.

End Doubles.

(** C8, as stated, fails: from production 158 to 159 (Vox Populi constants,
    Standard speed) the cost steps from 315 to 317 (the powers are 315.88...
    and 317.24...) and the gold/production ratio rises. *)
Lemma ratio_not_strictly_decreasing :
  0 < 158 < 159
  ∧ getPurchaseCostFromProduction exactPower 158 createDefaultGameContext 0
      GOLD_PURCHASE_CONSTANTS_VP = Some 315
  ∧ getPurchaseCostFromProduction exactPower 159 createDefaultGameContext 0
      GOLD_PURCHASE_CONSTANTS_VP = Some 317
  ∧ ∃ r1 r2,
      getGoldToProductionRatio exactPower 158 createDefaultGameContext
        GOLD_PURCHASE_CONSTANTS_VP = Some r1
      ∧ getGoldToProductionRatio exactPower 159 createDefaultGameContext
          GOLD_PURCHASE_CONSTANTS_VP = Some r2
      ∧ ¬ (r2 < r1)%Q.
Proof.
  split; [lia|]. split; [vm_compute; reflexivity|]. split; [vm_compute; reflexivity|].
  eexists _, _. split; [reflexivity|]. split; [reflexivity|].
  unfold Qlt. vm_compute. discriminate.
Qed.

Lemma ratio_bound_Z (n1 n2 h p1 p2 : Z) :
  0 <= n1 → 0 <= n2 → 0 <= h → 0 < p1 → 0 < p2 →
  n2 * p1 < (n1 + 1) * p2 →
  (n2 * h / 100) * (100 * p1) < (100 * (n1 * h / 100) + (100 + h)) * p2.
Proof.
  intros Hn1 Hn2 Hh Hp1 Hp2 HK.
  pose proof (Z.mul_div_le (n2 * h) 100 ltac:(lia)) as H2.
  pose proof (Z.mul_succ_div_gt (n1 * h) 100 ltac:(lia)) as H1.
  assert (Hc2 : 0 <= n2 * h / 100) by (apply Z.div_pos; nia).
  apply Z.le_lt_trans with (n2 * h * p1); [nia|].
  apply Z.le_lt_trans with ((n1 + 1) * p2 * h); [nia|].
  nia.
Qed.

(** The same bound with the exponent kept. *)
Lemma power_ratio_bound_Z (n1 n2 h p1 p2 a b : Z) :
  0 <= n1 → 0 <= n2 → 0 <= h → 0 < p1 → 0 < p2 → 0 <= a → 0 < b →
  n2 ^ b * p1 ^ a < (n1 + 1) ^ b * p2 ^ a →
  (100 * (n2 * h / 100)) ^ b * p1 ^ a
  < (100 * (n1 * h / 100) + 100 + h) ^ b * p2 ^ a.
Proof.
  intros Hn1 Hn2 Hh Hp1 Hp2 Ha Hb HK.
  pose proof (Z.mul_div_le (n2 * h) 100 ltac:(lia)) as H2.
  pose proof (Z.mul_succ_div_gt (n1 * h) 100 ltac:(lia)) as H1.
  assert (Hc2 : 0 <= n2 * h / 100) by (apply Z.div_pos; nia).
  assert (Hp1a : 0 < p1 ^ a) by (apply Z.pow_pos_nonneg; lia).
  assert (Hp2a : 0 < p2 ^ a) by (apply Z.pow_pos_nonneg; lia).
  assert (Hhb : 0 <= h ^ b) by (apply Z.pow_nonneg; lia).
  apply Z.le_lt_trans with ((n2 * h) ^ b * p1 ^ a).
  { apply Z.mul_le_mono_nonneg_r; [lia|]. apply Z.pow_le_mono_l. lia. }
  apply Z.le_lt_trans with (((n1 + 1) * h) ^ b * p2 ^ a).
  { rewrite !Z.pow_mul_l.
    replace (n2 ^ b * h ^ b * p1 ^ a) with (n2 ^ b * p1 ^ a * h ^ b) by ring.
    replace ((n1 + 1) ^ b * h ^ b * p2 ^ a) with ((n1 + 1) ^ b * p2 ^ a * h ^ b) by ring.
    apply Z.mul_le_mono_nonneg_r; lia. }
  apply Z.mul_lt_mono_pos_r; [exact Hp2a|].
  apply Z.pow_lt_mono_l; [lia|]. split; [nia | lia].
Qed.

Lemma speed_stage_clamped (n h : Z) :
  0 <= n → Z.max 0 (n * h / 100) = n * Z.max 0 h / 100.
Proof.
  intros Hn. destruct (Z.le_gt_cases 0 h) as [Hh|Hh].
  - rewrite (Z.max_r 0 h) by lia. apply Z.max_r. apply Z.div_pos; nia.
  - rewrite (Z.max_l 0 h), Z.mul_0_r by lia. change (0 / 100) with 0.
    apply Z.max_l. apply Z.div_le_upper_bound; [lia|]. nia.
Qed.

(** C8, amended.  For an exponent [a/b] strictly between 0 and 1, a
    positive gold-per-production, every game context and productions
    0 < p1 < p2 at which the runtime's power is the exact floor: the costs
    [c1], [c2] are numbers, each ratio is the double nearest to cost over
    production, the cost is monotonic non-decreasing, and the cost follows
    the power law up to the truncation of the floors,
      (100 c2)^b p1^a < (100 c1 + 100 + max(0, hurryPercent))^b p2^a,
    which at hurryPercent 100 is  c2^b p1^a < (c1 + 1)^b p2^a;  hence the
    exact quotient decreases up to that truncation,
      c2/p2 < c1/p1 + (100 + max(0, hurryPercent)) / (100 p1),
    and the ratio at [p2] is at most the double nearest to that bound.
    (Strict decrease of the ratio itself is not claimed.) *)
Theorem cost_monotone_ratio_decreasing_up_to_floor (floorPow : FloorPow) (p1 p2 : Z)
    (ctx : GameContext) (constants : GoldPurchaseConstants) :
  let g := GOLD_PURCHASE_GOLD_PER_PRODUCTION constants in
  let e := HURRY_GOLD_PRODUCTION_EXPONENT constants in
  let h := Z.max 0 (hurryPercent (gameSpeed ctx)) in
  (0 < e)%Q → (e < 1)%Q → 0 < g → 0 < p1 → p1 < p2 →
  floorExactAt floorPow (p1 * g) e →
  floorExactAt floorPow (p2 * g) e →
  ∃ c1 c2,
    getPurchaseCostFromProduction floorPow p1 ctx 0 constants = Some c1
    ∧ getPurchaseCostFromProduction floorPow p2 ctx 0 constants = Some c2
    ∧ getGoldToProductionRatio floorPow p1 ctx constants
      = Some (roundDouble (inject_Z c1 / inject_Z p1))
    ∧ getGoldToProductionRatio floorPow p2 ctx constants
      = Some (roundDouble (inject_Z c2 / inject_Z p2))
    ∧ 0 <= c1 <= c2
    ∧ (100 * c2) ^ Z.pos (Qden e) * p1 ^ Qnum e
      < (100 * c1 + 100 + h) ^ Z.pos (Qden e) * p2 ^ Qnum e
    ∧ (hurryPercent (gameSpeed ctx) = 100 →
       c2 ^ Z.pos (Qden e) * p1 ^ Qnum e < (c1 + 1) ^ Z.pos (Qden e) * p2 ^ Qnum e)
    ∧ (inject_Z c2 / inject_Z p2
       < inject_Z c1 / inject_Z p1 + inject_Z (100 + h) / inject_Z (100 * p1))%Q
    ∧ (roundDouble (inject_Z c2 / inject_Z p2)
       <= roundDouble (inject_Z c1 / inject_Z p1
                       + inject_Z (100 + h) / inject_Z (100 * p1)))%Q.
Proof.
  intros g e h He0 He1 Hg Hp1 Hp12 Hx1 Hx2.
  assert (Ha : 0 < Qnum e).
  { unfold Qlt in He0. simpl in He0. lia. }
  assert (Hab : Qnum e < Z.pos (Qden e)).
  { unfold Qlt in He1. simpl in He1. lia. }
  pose proof (base_cost_exact floorPow p1 ctx 0 constants Hp1 Hx1) as E1.
  pose proof (base_cost_exact floorPow p2 ctx 0 constants ltac:(lia) Hx2) as E2.
  cbv zeta in E1, E2. fold g e in E1, E2. simpl negb in E1, E2. cbv iota in E1, E2.
  pose proof (powFloor_nonneg (p1 * g) e) as Hn1.
  pose proof (powFloor_nonneg (p2 * g) e) as Hn2.
  pose proof (powFloor_mono (p1 * g) (p2 * g) e ltac:(nia) ltac:(nia) ltac:(lia)) as Hm.
  pose proof (powFloor_ratio g p1 p2 e Hg Hp1 Hp12 ltac:(lia) Hab) as HK.
  pose proof (powFloor_power_ratio g p1 p2 e Hg Hp1 ltac:(lia) ltac:(lia)) as HP.
  set (n1 := powFloor (p1 * g) e) in *. set (n2 := powFloor (p2 * g) e) in *.
  rewrite speed_stage_clamped in E1, E2 by assumption. fold h in E1, E2.
  assert (Hh : 0 <= h) by (unfold h; lia).
  set (c1 := n1 * h / 100) in *. set (c2 := n2 * h / 100) in *.
  exists c1, c2. split; [exact E1|]. split; [exact E2|].
  split; [|split].
  { unfold getGoldToProductionRatio. destruct (Z.leb_spec p1 0); [lia|].
    rewrite E1. reflexivity. }
  { unfold getGoldToProductionRatio. destruct (Z.leb_spec p2 0); [lia|].
    rewrite E2. reflexivity. }
  split.
  { unfold c1, c2. split; [apply Z.div_pos; nia|].
    apply Z.div_le_mono; [lia|]. apply Z.mul_le_mono_nonneg_r; lia. }
  split.
  { unfold c1, c2.
    apply power_ratio_bound_Z; try assumption; lia. }
  split.
  { intros H100. assert (h = 100) as Eh by (unfold h; lia).
    unfold c1, c2. rewrite Eh, !Z.div_mul by lia. exact HP. }
  pose proof (ratio_bound_Z n1 n2 h p1 p2 Hn1 Hn2 Hh Hp1 ltac:(lia) HK) as HZ.
  fold c1 c2 in HZ.
  assert (HP1 : (0 < inject_Z p1)%Q) by (unfold Qlt; simpl; lia).
  assert (HP2 : (0 < inject_Z p2)%Q) by (unfold Qlt; simpl; lia).
  assert (HQ : (inject_Z c2 * (100 * inject_Z p1)
                < (100 * inject_Z c1 + inject_Z (100 + h)) * inject_Z p2)%Q).
  { change 100%Q with (inject_Z 100).
    rewrite <- !inject_Z_mult, <- inject_Z_plus, <- inject_Z_mult.
    rewrite <- Zlt_Qlt. exact HZ. }
  assert (Hexact : (inject_Z c2 / inject_Z p2
                    < inject_Z c1 / inject_Z p1
                      + inject_Z (100 + h) / inject_Z (100 * p1))%Q).
  { apply Qlt_shift_div_r; [exact HP2|].
    rewrite inject_Z_mult. change (inject_Z 100) with 100%Q.
    assert (Heq : ((inject_Z c1 / inject_Z p1
                    + inject_Z (100 + h) / (100 * inject_Z p1)) * inject_Z p2
                   == ((100 * inject_Z c1 + inject_Z (100 + h)) * inject_Z p2)
                      / (100 * inject_Z p1))%Q).
    { field. intros E. rewrite E in HP1. apply (Qlt_irrefl 0), HP1. }
    rewrite Heq. apply Qlt_shift_div_l; [lra | exact HQ]. }
  split; [exact Hexact|].
  apply roundDouble_mono; [|apply Qlt_le_weak, Hexact].
  apply Qle_shift_div_l; [exact HP2|]. rewrite Qmult_0_l.
  rewrite <- (Zle_Qle 0). unfold c2. apply Z.div_pos; nia.
Qed.

Lemma cost_monotone_ratio_decreasing_up_to_floor_witness :
  ∃ c1 c2,
    getPurchaseCostFromProduction exactPower 158 createDefaultGameContext 0
      GOLD_PURCHASE_CONSTANTS_VP = Some c1
    ∧ getPurchaseCostFromProduction exactPower 159 createDefaultGameContext 0
        GOLD_PURCHASE_CONSTANTS_VP = Some c2
    ∧ getGoldToProductionRatio exactPower 158 createDefaultGameContext
        GOLD_PURCHASE_CONSTANTS_VP = Some (roundDouble (inject_Z c1 / inject_Z 158))
    ∧ getGoldToProductionRatio exactPower 159 createDefaultGameContext
        GOLD_PURCHASE_CONSTANTS_VP = Some (roundDouble (inject_Z c2 / inject_Z 159))
    ∧ 0 <= c1 <= c2
    ∧ (100 * c2) ^ 25 * 158 ^ 17 < (100 * c1 + 100 + 100) ^ 25 * 159 ^ 17
    ∧ c2 ^ 25 * 158 ^ 17 < (c1 + 1) ^ 25 * 159 ^ 17
    ∧ (inject_Z c2 / inject_Z 159
       < inject_Z c1 / inject_Z 158 + inject_Z (100 + 100) / inject_Z (100 * 158))%Q
    ∧ (roundDouble (inject_Z c2 / inject_Z 159)
       <= roundDouble (inject_Z c1 / inject_Z 158
                       + inject_Z (100 + 100) / inject_Z (100 * 158)))%Q.
Proof.
  pose proof (cost_monotone_ratio_decreasing_up_to_floor exactPower 158 159
                createDefaultGameContext GOLD_PURCHASE_CONSTANTS_VP) as H.
  cbv zeta in H.
  destruct H as (c1 & c2 & H1 & H2 & R1 & R2 & Hm & HA & HB & HC & HD);
    [vm_compute; reflexivity ..|].
  exists c1, c2. split; [exact H1|]. split; [exact H2|].
  split; [exact R1|]. split; [exact R2|]. split; [exact Hm|].
  split; [exact HA|]. split; [apply HB; reflexivity|].
  split; [exact HC | exact HD].
Defined.

(** The ratio is a double: 1/3 is rounded to 6004799503160661 / 2^54, a
    dyadic number is left as it is, and 57/13 multiplied back by 13 does
    not give 57. *)
Example roundDouble_examples :
  (roundDouble (1 # 3) == 6004799503160661 # 18014398509481984)%Q
  ∧ (roundDouble (317 # 4) == 317 # 4)%Q
  ∧ ¬ (roundDouble (57 # 13) * 13 == 57)%Q.
Proof.
  split; [vm_compute; reflexivity|]. split; [vm_compute; reflexivity|].
  vm_compute. discriminate.
Qed.

(* ===================================================================== *)
(** * Stacking of hurry modifier sources                                  *)
(* ===================================================================== *)

Section Stacking.

Variable f : ScopeFilter.

Lemma addModifiers_shift (modifiers : list HurryModifierSource) (t : Z) :
  addModifiers f t modifiers = t + addModifiers f 0 modifiers.
Proof.
  unfold addModifiers. revert t.
  induction modifiers as [|m ms IH]; intros t; simpl; [lia|].
  destruct (scopeMatches f (scope m)).
  - rewrite (IH (t + modifier m)), (IH (0 + modifier m)). lia.
  - apply IH.
Qed.

Lemma totalFrom_shift (enabled : gset string) (allSources : SourceIndex) (t : Z) :
  totalFrom f enabled allSources t = t + totalFrom f enabled allSources 0.
Proof.
  unfold totalFrom. revert t.
  induction allSources as [|entry rest IH]; intros t; simpl; [lia|].
  destruct (bool_decide (entry.1 ∈ enabled)).
  - rewrite (IH (addModifiers f t entry.2)), (IH (addModifiers f 0 entry.2)).
    rewrite (addModifiers_shift entry.2 t). lia.
  - apply IH.
Qed.

Lemma totalFrom_cons (enabled : gset string) entry (rest : SourceIndex) :
  totalFrom f enabled (entry :: rest) 0
  = (if bool_decide (entry.1 ∈ enabled) then addModifiers f 0 entry.2 else 0)
    + totalFrom f enabled rest 0.
Proof.
  unfold totalFrom at 1. simpl. fold (totalFrom f enabled rest).
  destruct (bool_decide (entry.1 ∈ enabled)); [|reflexivity].
  apply totalFrom_shift.
Qed.

(** Inclusion-exclusion: a source enabled in both sets is counted once in
    the union. *)
Lemma totalFrom_union_inter (A B : gset string) (allSources : SourceIndex) :
  totalFrom f (A ∪ B) allSources 0 + totalFrom f (A ∩ B) allSources 0
  = totalFrom f A allSources 0 + totalFrom f B allSources 0.
Proof.
  induction allSources as [|entry rest IH]; [reflexivity|].
  rewrite !totalFrom_cons.
  rewrite (bool_decide_ext _ _ (elem_of_union A B entry.1)).
  rewrite (bool_decide_ext _ _ (elem_of_intersection A B entry.1)).
  rewrite bool_decide_or, bool_decide_and.
  destruct (bool_decide (entry.1 ∈ A)), (bool_decide (entry.1 ∈ B)); simpl; lia.
Qed.

Lemma totalFrom_empty (allSources : SourceIndex) : totalFrom f ∅ allSources 0 = 0.
Proof.
  induction allSources as [|entry rest IH]; [reflexivity|].
  rewrite totalFrom_cons, IH.
  rewrite bool_decide_eq_false_2 by apply not_elem_of_empty. reflexivity.
Qed.

End Stacking.

(** C9, as stated, fails for overlapping sets: with the Industry opener
    enabled in both, the union totals -5 while the two totals add up to
    -10. *)
Lemma union_total_not_additive :
  calculateTotalHurryModifier ({["POLICY_COMMERCE"]} ∪ {["POLICY_COMMERCE"]})
      getIndustryPolicyModifiers FilterAll
  ≠ calculateTotalHurryModifier {["POLICY_COMMERCE"]} getIndustryPolicyModifiers FilterAll
    + calculateTotalHurryModifier {["POLICY_COMMERCE"]} getIndustryPolicyModifiers FilterAll.
Proof. vm_compute. discriminate. Qed.

(** C9, amended.  Over the "all" scope the total is additive on disjoint
    enabled sets: for [A] and [B] with no common identifier, the total for
    [A ∪ B] is the total for [A] plus the total for [B]. *)
Theorem total_modifier_additive_disjoint (A B : gset string) (allSources : SourceIndex) :
  A ## B →
  calculateTotalHurryModifier (A ∪ B) allSources FilterAll
  = calculateTotalHurryModifier A allSources FilterAll
    + calculateTotalHurryModifier B allSources FilterAll.
Proof.
  intros Hdisj.
  change (totalFrom FilterAll (A ∪ B) allSources 0
          = totalFrom FilterAll A allSources 0 + totalFrom FilterAll B allSources 0).
  rewrite <- totalFrom_union_inter.
  apply disjoint_intersection_L in Hdisj. rewrite Hdisj.
  rewrite totalFrom_empty. lia.
Qed.

Lemma total_modifier_additive_disjoint_witness :
  calculateTotalHurryModifier ({["POLICY_COMMERCE"]} ∪ {["POLICY_CARAVANS"]})
      getIndustryPolicyModifiers FilterAll
  = calculateTotalHurryModifier {["POLICY_COMMERCE"]} getIndustryPolicyModifiers FilterAll
    + calculateTotalHurryModifier {["POLICY_CARAVANS"]} getIndustryPolicyModifiers FilterAll.
Proof.
  apply (total_modifier_additive_disjoint {["POLICY_COMMERCE"]} {["POLICY_CARAVANS"]}
           getIndustryPolicyModifiers).
  apply disjoint_singleton_l. rewrite elem_of_singleton. discriminate.
Defined.

(* ===================================================================== *)
(** * The production cost / GridX correlation                             *)
(* ===================================================================== *)

Section Correlation.

Local Open Scope Q_scope.

Implicit Types (p q : ProductionGridXDataPoint) (r : PointRef)
  (seen points : list ProductionGridXDataPoint) (c : Q).

Lemma Qlt_bool_iff (a b : Q) : Qlt_bool a b = true ↔ a < b.
Proof.
  unfold Qlt_bool. destruct (Qle_bool b a) eqn:E; simpl.
  - apply Qle_bool_iff in E. split; [discriminate|].
    intros H. exfalso. exact (Qlt_not_le _ _ H E).
  - split; [|reflexivity]. intros _. apply Qnot_le_lt.
    intros H. apply Qle_bool_iff in H. congruence.
Qed.

Lemma firstOfCost_elem points r : firstOfCost points r → r.2 ∈ points.
Proof. intros [Hl _]. exact (list_elem_of_lookup_2 _ _ _ Hl). Qed.

Lemma firstOfCost_unique points r1 r2 :
  firstOfCost points r1 → firstOfCost points r2 →
  productionCost r1.2 == productionCost r2.2 → r1 = r2.
Proof.
  intros [Hl1 Hf1] [Hl2 Hf2] Heq.
  assert (Hi : r1.1 = r2.1).
  { apply Nat.le_antisymm.
    - apply (Hf1 _ _ Hl2). symmetry. exact Heq.
    - apply (Hf2 _ _ Hl1). exact Heq. }
  destruct r1 as [i1 p1], r2 as [i2 p2]. simpl in *. subst i2.
  congruence.
Qed.

Lemma firstOfCost_keep seen p r :
  firstOfCost seen r → firstOfCost (seen ++ [p]) r.
Proof.
  intros [Hl Hf]. split; [apply lookup_app_l_Some; exact Hl|].
  intros j q Hj Hq. apply lookup_app_Some in Hj as [Hj|[Hlen _]].
  - exact (Hf j q Hj Hq).
  - apply lookup_lt_Some in Hl. lia.
Qed.

Lemma firstOfCost_new seen p :
  (∀ q, q ∈ seen → ¬ productionCost q == productionCost p) →
  firstOfCost (seen ++ [p]) (length seen, p).
Proof.
  intros Hnew. split; [apply list_lookup_middle; reflexivity|].
  intros j q Hj Hq. simpl in *. apply lookup_app_Some in Hj as [Hj|[Hlen _]]; [|exact Hlen].
  exfalso. exact (Hnew q (list_elem_of_lookup_2 _ _ _ Hj) Hq).
Qed.

Lemma lowerInv_step c seen lo p :
  lowerInv c seen lo → lowerInv c (seen ++ [p]) (updLower c lo (length seen, p)).
Proof.
  intros Hinv. unfold updLower. cbn [snd].
  destruct (Qle_bool (productionCost p) c) eqn:Hpc.
  - apply Qle_bool_iff in Hpc. destruct lo as [lp|]; simpl in Hinv.
    + destruct Hinv as (Hfirst & Hle & Hmax).
      destruct (Qlt_bool (productionCost lp.2) (productionCost p)) eqn:Hlt; simpl.
      * apply Qlt_bool_iff in Hlt. split; [|split; [exact Hpc|]].
        -- apply firstOfCost_new. intros q Hq Heq.
           destruct (Qle_bool (productionCost q) c) eqn:Hqc.
           ++ apply Qle_bool_iff in Hqc. specialize (Hmax q Hq Hqc). lra.
           ++ assert (productionCost q <= c) by lra.
              apply Qle_bool_iff in H. congruence.
        -- intros q Hq Hqc. apply elem_of_app in Hq as [Hq|Hq].
           ++ specialize (Hmax q Hq Hqc). lra.
           ++ apply list_elem_of_singleton in Hq. subst q. lra.
      * assert (Hge : productionCost p <= productionCost lp.2).
        { destruct (Qlt_le_dec (productionCost lp.2) (productionCost p)) as [Hc|Hc];
            [|exact Hc]. apply Qlt_bool_iff in Hc. congruence. }
        split; [apply firstOfCost_keep; exact Hfirst|]. split; [exact Hle|].
        intros q Hq Hqc. apply elem_of_app in Hq as [Hq|Hq].
        -- exact (Hmax q Hq Hqc).
        -- apply list_elem_of_singleton in Hq. subst q. exact Hge.
    + simpl. split; [|split; [exact Hpc|]].
      * apply firstOfCost_new. intros q Hq Heq. apply (Hinv q Hq). lra.
      * intros q Hq Hqc. apply elem_of_app in Hq as [Hq|Hq].
        -- exfalso. exact (Hinv q Hq Hqc).
        -- apply list_elem_of_singleton in Hq. subst q. lra.
  - assert (Hnot : ¬ productionCost p <= c).
    { intros H. apply Qle_bool_iff in H. congruence. }
    destruct lo as [lp|]; simpl in *.
    + destruct Hinv as (Hfirst & Hle & Hmax).
      split; [apply firstOfCost_keep; exact Hfirst|]. split; [exact Hle|].
      intros q Hq Hqc. apply elem_of_app in Hq as [Hq|Hq].
      * exact (Hmax q Hq Hqc).
      * apply list_elem_of_singleton in Hq. subst q. contradiction.
    + intros q Hq. apply elem_of_app in Hq as [Hq|Hq].
      * exact (Hinv q Hq).
      * apply list_elem_of_singleton in Hq. subst q. exact Hnot.
Qed.

Lemma upperInv_step c seen up p :
  upperInv c seen up → upperInv c (seen ++ [p]) (updUpper c up (length seen, p)).
Proof.
  intros Hinv. unfold updUpper. cbn [snd].
  destruct (Qle_bool c (productionCost p)) eqn:Hpc.
  - apply Qle_bool_iff in Hpc. destruct up as [ur|]; simpl in Hinv.
    + destruct Hinv as (Hfirst & Hle & Hmin).
      destruct (Qlt_bool (productionCost p) (productionCost ur.2)) eqn:Hlt; simpl.
      * apply Qlt_bool_iff in Hlt. split; [|split; [exact Hpc|]].
        -- apply firstOfCost_new. intros q Hq Heq.
           assert (Hqc : c <= productionCost q) by lra.
           specialize (Hmin q Hq Hqc). lra.
        -- intros q Hq Hqc. apply elem_of_app in Hq as [Hq|Hq].
           ++ specialize (Hmin q Hq Hqc). lra.
           ++ apply list_elem_of_singleton in Hq. subst q. lra.
      * assert (Hge : productionCost ur.2 <= productionCost p).
        { destruct (Qlt_le_dec (productionCost p) (productionCost ur.2)) as [Hc|Hc];
            [|exact Hc]. apply Qlt_bool_iff in Hc. congruence. }
        split; [apply firstOfCost_keep; exact Hfirst|]. split; [exact Hle|].
        intros q Hq Hqc. apply elem_of_app in Hq as [Hq|Hq].
        -- exact (Hmin q Hq Hqc).
        -- apply list_elem_of_singleton in Hq. subst q. exact Hge.
    + simpl. split; [|split; [exact Hpc|]].
      * apply firstOfCost_new. intros q Hq Heq. apply (Hinv q Hq). lra.
      * intros q Hq Hqc. apply elem_of_app in Hq as [Hq|Hq].
        -- exfalso. exact (Hinv q Hq Hqc).
        -- apply list_elem_of_singleton in Hq. subst q. lra.
  - assert (Hnot : ¬ c <= productionCost p).
    { intros H. apply Qle_bool_iff in H. congruence. }
    destruct up as [ur|]; simpl in *.
    + destruct Hinv as (Hfirst & Hle & Hmin).
      split; [apply firstOfCost_keep; exact Hfirst|]. split; [exact Hle|].
      intros q Hq Hqc. apply elem_of_app in Hq as [Hq|Hq].
      * exact (Hmin q Hq Hqc).
      * apply list_elem_of_singleton in Hq. subst q. contradiction.
    + intros q Hq. apply elem_of_app in Hq as [Hq|Hq].
      * exact (Hinv q Hq).
      * apply list_elem_of_singleton in Hq. subst q. exact Hnot.
Qed.

Lemma scanDataPoints_inv c points :
  ∀ seen lo up, lowerInv c seen lo → upperInv c seen up →
    lowerInv c (seen ++ points) (scanDataPoints c (length seen) points lo up).1
    ∧ upperInv c (seen ++ points) (scanDataPoints c (length seen) points lo up).2.
Proof.
  induction points as [|p rest IH]; intros seen lo up Hlo Hup.
  - simpl. rewrite app_nil_r. split; assumption.
  - cbn [scanDataPoints].
    replace (seen ++ p :: rest) with ((seen ++ [p]) ++ rest)
      by (rewrite <- app_assoc; reflexivity).
    replace (S (length seen)) with (length (seen ++ [p]))
      by (rewrite length_app; simpl; lia).
    apply IH; [apply lowerInv_step | apply upperInv_step]; assumption.
Qed.

Lemma scanDataPoints_spec c points :
  lowerInv c points (scanDataPoints c 0 points None None).1
  ∧ upperInv c points (scanDataPoints c 0 points None None).2.
Proof.
  apply (scanDataPoints_inv c points [] None None); intros q Hq;
    apply elem_of_nil in Hq; contradiction.
Qed.

Lemma firstOfCost_gridX_le points r1 r2 :
  gridXNonDecreasing points → firstOfCost points r1 → firstOfCost points r2 →
  productionCost r1.2 <= productionCost r2.2 → gridX r1.2 <= gridX r2.2.
Proof.
  intros Hnd H1 H2 Hle. destruct (Qle_lt_or_eq _ _ Hle) as [Hlt|Heq].
  - apply Hnd; [exact (firstOfCost_elem _ _ H1) | exact (firstOfCost_elem _ _ H2) | exact Hlt].
  - rewrite (firstOfCost_unique _ _ _ H1 H2 Heq). apply Qle_refl.
Qed.

Lemma interpolate_between c p q :
  productionCost p <= c → c <= productionCost q →
  productionCost p < productionCost q → gridX p <= gridX q →
  gridX p <= interpolate c p q ∧ interpolate c p q <= gridX q.
Proof.
  intros Hl Hu Hlt Hg. unfold interpolate.
  set (d := productionCost q - productionCost p).
  assert (Hd : 0 < d) by (unfold d; lra).
  set (t := (c - productionCost p) / d).
  assert (Ht0 : 0 <= t) by (apply Qle_shift_div_l; [exact Hd | lra]).
  assert (Ht1 : t <= 1) by (apply Qle_shift_div_r; [exact Hd | unfold d; lra]).
  split; nra.
Qed.

Lemma interpolate_mono c1 c2 p q :
  c1 <= c2 → productionCost p < productionCost q → gridX p <= gridX q →
  interpolate c1 p q <= interpolate c2 p q.
Proof.
  intros Hc Hlt Hg. unfold interpolate.
  set (d := productionCost q - productionCost p).
  assert (Hd : 0 < d) by (unfold d; lra).
  assert (Hi : 0 <= / d) by (apply Qlt_le_weak, Qinv_lt_0_compat; exact Hd).
  assert (Ht : (c1 - productionCost p) / d <= (c2 - productionCost p) / d).
  { unfold Qdiv. apply Qmult_le_compat_r; [lra | exact Hi]. }
  set (t1 := (c1 - productionCost p) / d) in *.
  set (t2 := (c2 - productionCost p) / d) in *.
  nra.
Qed.

Lemma bounds_nonempty c points :
  points ≠ [] → lowerInv c points None → upperInv c points None → False.
Proof.
  destruct points as [|p rest]; [congruence|]. intros _ Hlo Hup. simpl in *.
  assert (Hp : p ∈ p :: rest) by (apply elem_of_cons; left; reflexivity).
  destruct (Qlt_le_dec c (productionCost p)) as [Hlt|Hle].
  - apply (Hup p Hp). lra.
  - exact (Hlo p Hp Hle).
Qed.

Lemma same_index_same_point c points lr ur :
  lowerInv c points (Some lr) → upperInv c points (Some ur) →
  lr.1 = ur.1 → lr.2 = ur.2.
Proof.
  intros ([Hl _] & _) ([Hu _] & _) Hi. rewrite Hi in Hl. congruence.
Qed.

Lemma other_index_cost_lt c points lr ur :
  lowerInv c points (Some lr) → upperInv c points (Some ur) →
  lr.1 ≠ ur.1 → productionCost lr.2 < productionCost ur.2.
Proof.
  intros (Hfl & Hlc & _) (Hfu & Huc & _) Hi.
  assert (Hle : productionCost lr.2 <= productionCost ur.2) by lra.
  destruct (Qle_lt_or_eq _ _ Hle) as [Hlt|Heq]; [exact Hlt|].
  exfalso. apply Hi. now rewrite (firstOfCost_unique _ _ _ Hfl Hfu Heq).
Qed.

Lemma selectGridX_ge_lower c points lr up :
  gridXNonDecreasing points →
  lowerInv c points (Some lr) → upperInv c points up →
  gridX lr.2 <= selectGridX c (Some lr) up.
Proof.
  intros Hnd Hlo Hup. destruct up as [ur|]; simpl; [|apply Qle_refl].
  destruct (Nat.eqb_spec lr.1 ur.1) as [Hi|Hi]; simpl; [apply Qle_refl|].
  pose proof (other_index_cost_lt _ _ _ _ Hlo Hup Hi) as Hlt.
  destruct Hlo as (Hfl & Hlc & _), Hup as (Hfu & Huc & _).
  apply interpolate_between; try assumption.
  apply (firstOfCost_gridX_le points); try assumption. lra.
Qed.

Lemma selectGridX_le_upper c points lo ur :
  gridXNonDecreasing points →
  lowerInv c points lo → upperInv c points (Some ur) →
  selectGridX c lo (Some ur) <= gridX ur.2.
Proof.
  intros Hnd Hlo Hup. destruct lo as [lr|]; simpl; [|apply Qle_refl].
  destruct (Nat.eqb_spec lr.1 ur.1) as [Hi|Hi]; simpl.
  - rewrite (same_index_same_point _ _ _ _ Hlo Hup Hi). apply Qle_refl.
  - pose proof (other_index_cost_lt _ _ _ _ Hlo Hup Hi) as Hlt.
    destruct Hlo as (Hfl & Hlc & _), Hup as (Hfu & Huc & _).
    apply interpolate_between; try assumption.
    apply (firstOfCost_gridX_le points); try assumption. lra.
Qed.

(** Monotonicity over the three branches: [c2] at or beyond the upper bound
    of [c1]; [c1] and [c2] in one bracket; [c1] beyond every sample. *)
Lemma selectGridX_mono points c1 c2 lo1 up1 lo2 up2 :
  points ≠ [] → gridXNonDecreasing points → c1 <= c2 →
  lowerInv c1 points lo1 → upperInv c1 points up1 →
  lowerInv c2 points lo2 → upperInv c2 points up2 →
  selectGridX c1 lo1 up1 <= selectGridX c2 lo2 up2.
Proof.
  intros Hne Hnd Hc Hl1 Hu1 Hl2 Hu2.
  destruct up1 as [u1|].
  - pose proof Hu1 as (Hfu1 & Huc1 & Hmin1).
    pose proof (firstOfCost_elem _ _ Hfu1) as Hu1in.
    destruct (Qlt_le_dec c2 (productionCost u1.2)) as [Hlt|Hge].
    + (* one bracket *)
      destruct up2 as [u2|]; [|exfalso; apply (Hu2 u1.2 Hu1in); lra].
      pose proof Hu2 as (Hfu2 & Huc2 & Hmin2).
      pose proof (firstOfCost_elem _ _ Hfu2) as Hu2in.
      assert (Hu : u1 = u2).
      { apply (firstOfCost_unique points); try assumption.
        pose proof (Hmin1 u2.2 Hu2in ltac:(lra)).
        pose proof (Hmin2 u1.2 Hu1in ltac:(lra)). lra. }
      subst u2. destruct lo1 as [l1|].
      * pose proof Hl1 as (Hfl1 & Hlc1 & Hmax1).
        pose proof (firstOfCost_elem _ _ Hfl1) as Hl1in.
        destruct lo2 as [l2|]; [|exfalso; apply (Hl2 l1.2 Hl1in); lra].
        pose proof Hl2 as (Hfl2 & Hlc2 & Hmax2).
        pose proof (firstOfCost_elem _ _ Hfl2) as Hl2in.
        assert (Hl : l1 = l2).
        { apply (firstOfCost_unique points); try assumption.
          pose proof (Hmax2 l1.2 Hl1in ltac:(lra)).
          destruct (Qlt_le_dec c1 (productionCost l2.2)) as [Hgt|Hle].
          - pose proof (Hmin1 l2.2 Hl2in ltac:(lra)). lra.
          - pose proof (Hmax1 l2.2 Hl2in Hle). lra. }
        subst l2. simpl.
        destruct (Nat.eqb_spec l1.1 u1.1) as [Hi|Hi]; simpl.
        -- exfalso. pose proof (same_index_same_point _ _ _ _ Hl1 Hu1 Hi) as E.
           rewrite E in Hlc1. lra.
        -- apply interpolate_mono; [exact Hc | lra |].
           apply (firstOfCost_gridX_le points); try assumption. lra.
      * destruct lo2 as [l2|]; [|simpl; apply Qle_refl].
        exfalso. pose proof Hl2 as (Hfl2 & Hlc2 & _).
        pose proof (firstOfCost_elem _ _ Hfl2) as Hl2in.
        destruct (Qlt_le_dec c1 (productionCost l2.2)) as [Hgt|Hle].
        -- pose proof (Hmin1 l2.2 Hl2in ltac:(lra)). lra.
        -- exact (Hl1 l2.2 Hl2in Hle).
    + (* [c2] at or beyond the upper bound of [c1] *)
      destruct lo2 as [l2|]; [|exfalso; exact (Hl2 u1.2 Hu1in Hge)].
      pose proof Hl2 as (Hfl2 & Hlc2 & Hmax2).
      apply Qle_trans with (gridX u1.2);
        [exact (selectGridX_le_upper _ _ _ _ Hnd Hl1 Hu1)|].
      apply Qle_trans with (gridX l2.2);
        [|exact (selectGridX_ge_lower _ _ _ _ Hnd Hl2 Hu2)].
      apply (firstOfCost_gridX_le points); try assumption.
      exact (Hmax2 u1.2 Hu1in Hge).
  - (* [c1] beyond every sample *)
    destruct lo1 as [l1|]; [|exfalso; exact (bounds_nonempty _ _ Hne Hl1 Hu1)].
    pose proof Hl1 as (Hfl1 & Hlc1 & _).
    pose proof (firstOfCost_elem _ _ Hfl1) as Hl1in.
    destruct up2 as [u2|].
    { exfalso. pose proof Hu2 as (Hfu2 & Huc2 & _).
      apply (Hu1 u2.2 (firstOfCost_elem _ _ Hfu2)). lra. }
    destruct lo2 as [l2|]; [|exfalso; apply (Hl2 l1.2 Hl1in); lra].
    pose proof Hl2 as (Hfl2 & _ & Hmax2). simpl.
    apply (firstOfCost_gridX_le points); try assumption.
    apply (Hmax2 l1.2 Hl1in). lra.
Qed.

Lemma elem_of_insertByCost p points q :
  q ∈ insertByCost p points ↔ q = p ∨ q ∈ points.
Proof.
  induction points as [|x rest IH]; simpl.
  - rewrite list_elem_of_singleton, elem_of_nil. tauto.
  - destruct (Qle_bool (productionCost p) (productionCost x)).
    + rewrite elem_of_cons. tauto.
    + rewrite !elem_of_cons, IH. tauto.
Qed.

Lemma elem_of_sortByCost points q : q ∈ sortByCost points ↔ q ∈ points.
Proof.
  induction points as [|x rest IH]; simpl; [tauto|].
  rewrite elem_of_insertByCost, elem_of_cons, IH. tauto.
Qed.

Lemma getGridX_selectGridX (correlation : ProductionGridXCorrelation) c :
  dataPoints correlation ≠ [] →
  getGridXFromProductionCorrelation correlation c
  = selectGridX c (scanDataPoints c 0 (dataPoints correlation) None None).1
                  (scanDataPoints c 0 (dataPoints correlation) None None).2.
Proof.
  intros Hne. unfold getGridXFromProductionCorrelation.
  destruct (dataPoints correlation) as [|p rest]; [congruence|].
  destruct (scanDataPoints c 0 (p :: rest) None None); reflexivity.
Qed.

End Correlation.

Example interpolation_450 :
  let correlation := buildProductionGridXCorrelation exampleSamples EntityBuilding in
  map productionCost (dataPoints correlation) = [300%Q; 600%Q]
  ∧ (getGridXFromProductionCorrelation correlation 450 == 13 # 2)%Q
  ∧ roundQ (getGridXFromProductionCorrelation correlation 450) = 7
  ∧ getGridXFromProductionCorrelation correlation 100 = 5%Q
  ∧ getGridXFromProductionCorrelation correlation 9000 = 8%Q.
Proof. vm_compute. repeat split; reflexivity. Qed.

(** C6.  For a non-empty sample list whose column does not decrease as the
    production cost increases, the column read from the correlation built
    from it is monotonic non-decreasing in the queried cost. *)
Theorem correlation_gridX_monotone (points : list ProductionGridXDataPoint)
    (entityType : EntityType) (c1 c2 : Q) :
  points ≠ [] → gridXNonDecreasing points → (c1 <= c2)%Q →
  (getGridXFromProductionCorrelation
     (buildProductionGridXCorrelation points entityType) c1
   <= getGridXFromProductionCorrelation
     (buildProductionGridXCorrelation points entityType) c2)%Q.
Proof.
  intros Hne Hnd Hc.
  set (correlation := buildProductionGridXCorrelation points entityType).
  assert (Hne' : dataPoints correlation ≠ []).
  { simpl. destruct points as [|p rest]; [congruence|]. intros E.
    assert (Hp : p ∈ sortByCost (p :: rest))
      by (apply elem_of_sortByCost, elem_of_cons; left; reflexivity).
    rewrite E in Hp. apply elem_of_nil in Hp. exact Hp. }
  assert (Hnd' : gridXNonDecreasing (dataPoints correlation)).
  { intros a b Ha Hb. apply Hnd; apply elem_of_sortByCost; assumption. }
  rewrite !getGridX_selectGridX by exact Hne'.
  destruct (scanDataPoints_spec c1 (dataPoints correlation)) as [Hl1 Hu1].
  destruct (scanDataPoints_spec c2 (dataPoints correlation)) as [Hl2 Hu2].
  exact (selectGridX_mono _ _ _ _ _ _ _ Hne' Hnd' Hc Hl1 Hu1 Hl2 Hu2).
Qed.

Lemma exampleSamples_nonDecreasing : gridXNonDecreasing exampleSamples.
Proof.
  intros a b Ha Hb.
  apply elem_of_cons in Ha as [->|Ha]; [|apply list_elem_of_singleton in Ha as ->];
    (apply elem_of_cons in Hb as [->|Hb]; [|apply list_elem_of_singleton in Hb as ->]);
    unfold Qlt, Qle; simpl; lia.
Qed.

Lemma correlation_gridX_monotone_witness :
  (getGridXFromProductionCorrelation
     (buildProductionGridXCorrelation exampleSamples EntityBuilding) 300
   <= getGridXFromProductionCorrelation
     (buildProductionGridXCorrelation exampleSamples EntityBuilding) 450)%Q.
Proof.
  apply (correlation_gridX_monotone exampleSamples EntityBuilding 300 450).
  - discriminate.
  - exact exampleSamples_nonDecreasing.
  - unfold Qle. simpl. lia.
Defined.

(** C7.  For samples with pairwise distinct production costs, a query at
    the production cost of one of the samples returns that sample's stored
    column. *)
Theorem correlation_exact_match (points : list ProductionGridXDataPoint)
    (entityType : EntityType) (s : ProductionGridXDataPoint) :
  distinctCosts points → s ∈ points →
  getGridXFromProductionCorrelation
    (buildProductionGridXCorrelation points entityType) (productionCost s)
  = gridX s.
Proof.
  intros Hdist Hs.
  set (correlation := buildProductionGridXCorrelation points entityType).
  set (c := productionCost s).
  assert (Hs' : s ∈ dataPoints correlation) by (apply elem_of_sortByCost; exact Hs).
  assert (Hne' : dataPoints correlation ≠ []).
  { intros E. rewrite E in Hs'. apply elem_of_nil in Hs'. exact Hs'. }
  rewrite getGridX_selectGridX by exact Hne'.
  destruct (scanDataPoints_spec c (dataPoints correlation)) as [Hlo Hup].
  destruct (scanDataPoints c 0 (dataPoints correlation) None None) as [lo up].
  simpl in Hlo, Hup |- *.
  destruct lo as [lr|]; [|exfalso; apply (Hlo s Hs'); apply Qle_refl].
  destruct up as [ur|]; [|exfalso; apply (Hup s Hs'); apply Qle_refl].
  pose proof Hlo as (Hfl & Hlc & Hmax). pose proof Hup as (Hfu & Huc & Hmin).
  pose proof (Hmax s Hs' (Qle_refl _)) as Hsl.
  pose proof (Hmin s Hs' (Qle_refl _)) as Hsu. fold c in Hsl, Hsu.
  assert (Heq : lr = ur).
  { apply (firstOfCost_unique (dataPoints correlation)); try assumption.
    apply Qle_antisym; [apply Qle_trans with c | apply Qle_trans with c]; assumption. }
  subst ur. simpl. rewrite Nat.eqb_refl. simpl.
  (* the selected sample is [s] itself *)
  assert (Hin : lr.2 ∈ points) by (apply elem_of_sortByCost, (firstOfCost_elem _ _ Hfl)).
  apply list_elem_of_lookup_1 in Hin as [i Hi].
  apply list_elem_of_lookup_1 in Hs as [j Hj].
  destruct (decide (i = j)) as [->|Hij]; [congruence|].
  exfalso. apply (Hdist i j lr.2 s Hi Hj Hij).
  apply Qle_antisym; assumption.
Qed.

Lemma exampleSamples_distinctCosts : distinctCosts exampleSamples.
Proof.
  intros i j a b Hi Hj Hij.
  destruct i as [|[|i]]; destruct j as [|[|j]]; simpl in Hi, Hj;
    try discriminate; try congruence;
    injection Hi as <-; injection Hj as <-; unfold Qeq; simpl; lia.
Qed.

Lemma correlation_exact_match_witness :
  getGridXFromProductionCorrelation
    (buildProductionGridXCorrelation exampleSamples EntityBuilding) 600
  = 8%Q.
Proof.
  apply (correlation_exact_match exampleSamples EntityBuilding
           {| productionCost := 600; gridX := 8; name := "Bank" |}).
  - exact exampleSamples_distinctCosts.
  - apply elem_of_cons. left. reflexivity.
Defined.

(* ===================================================================== *)
(** * Further properties: modifier utilities                              *)
(* ===================================================================== *)

Lemma scale_mono (a b factor k : Z) :
  0 <= factor → 0 < k → a <= b → a * factor / k <= b * factor / k.
Proof.
  intros Hf Hk Hab. apply Z.div_le_mono; [exact Hk|].
  apply Z.mul_le_mono_nonneg_r; assumption.
Qed.

Lemma scale_nonneg (a factor k : Z) :
  0 <= a → 0 <= factor → 0 < k → 0 <= a * factor / k.
Proof.
  intros Ha Hf Hk. apply Z.div_pos; [|exact Hk]. apply Z.mul_nonneg_nonneg; assumption.
Qed.

Lemma floorToDivisor_mono (a b divisor : Z) :
  0 < divisor → a <= b → floorToDivisor a divisor <= floorToDivisor b divisor.
Proof.
  intros Hd Hab. unfold floorToDivisor.
  apply Z.mul_le_mono_nonneg_r; [lia|]. apply Z.div_le_mono; assumption.
Qed.

(** X1.  For a positive divisor, [floorToDivisor] returns the greatest
    multiple of the divisor that does not exceed the value, and leaves such
    a multiple unchanged. *)
Theorem floorToDivisor_greatest_multiple (value divisor : Z) :
  0 < divisor →
  (divisor | floorToDivisor value divisor)
  ∧ floorToDivisor value divisor <= value < floorToDivisor value divisor + divisor
  ∧ floorToDivisor (floorToDivisor value divisor) divisor = floorToDivisor value divisor.
Proof.
  intros Hd. unfold floorToDivisor.
  pose proof (Z.mul_div_le value divisor Hd) as Hlo.
  pose proof (Z.mul_succ_div_gt value divisor Hd) as Hhi.
  split; [exists (value / divisor); reflexivity|]. split; [lia|].
  rewrite Z.div_mul by lia. reflexivity.
Qed.

Lemma floorToDivisor_greatest_multiple_witness :
  (10 | floorToDivisor 129 10)
  ∧ floorToDivisor 129 10 <= 129 < floorToDivisor 129 10 + 10
  ∧ floorToDivisor (floorToDivisor 129 10) 10 = floorToDivisor 129 10.
Proof. apply (floorToDivisor_greatest_multiple 129 10). lia. Defined.

Lemma roundQ_ratio (value : Z) (p : positive) :
  roundQ (inject_Z value / inject_Z (Z.pos p)) = (2 * value + Z.pos p) / (2 * Z.pos p).
Proof.
  unfold roundQ.
  assert (E : (inject_Z value / inject_Z (Z.pos p) + (1 # 2)
               == (2 * value + Z.pos p) # (2 * p))%Q).
  { unfold Qeq, Qdiv, Qmult, Qplus, Qinv, inject_Z. simpl. lia. }
  rewrite E. reflexivity.
Qed.

(** X2.  For a positive divisor, [roundToVisibleDivisor] returns a multiple
    of the divisor nearest to the value (at most half a divisor away); a
    value halfway between two multiples goes to the upper one. *)
Theorem roundToVisibleDivisor_nearest (value divisor : Z) :
  0 < divisor →
  (divisor | roundToVisibleDivisor value divisor)
  ∧ 2 * Z.abs (roundToVisibleDivisor value divisor - value) <= divisor
  ∧ (∀ k, 2 * value = (2 * k + 1) * divisor →
       roundToVisibleDivisor value divisor = (k + 1) * divisor).
Proof.
  intros Hd. unfold roundToVisibleDivisor.
  destruct divisor as [|p|p]; try lia.
  rewrite roundQ_ratio.
  set (q := (2 * value + Z.pos p) / (2 * Z.pos p)).
  pose proof (Z.mul_div_le (2 * value + Z.pos p) (2 * Z.pos p) ltac:(lia)) as Hlo.
  pose proof (Z.mul_succ_div_gt (2 * value + Z.pos p) (2 * Z.pos p) ltac:(lia)) as Hhi.
  fold q in Hlo, Hhi.
  split; [exists q; reflexivity|]. split; [lia|].
  intros k Hk. f_equal. unfold q. rewrite Hk.
  replace ((2 * k + 1) * Z.pos p + Z.pos p) with ((k + 1) * (2 * Z.pos p)) by lia.
  apply Z.div_mul. lia.
Qed.

Lemma roundToVisibleDivisor_nearest_witness :
  (10 | roundToVisibleDivisor 127 10)
  ∧ 2 * Z.abs (roundToVisibleDivisor 127 10 - 127) <= 10
  ∧ (∀ k, 2 * 127 = (2 * k + 1) * 10 → roundToVisibleDivisor 127 10 = (k + 1) * 10).
Proof. apply (roundToVisibleDivisor_nearest 127 10). lia. Defined.

Example roundToVisibleDivisor_examples :
  roundToVisibleDivisor 123 10 = 120 ∧ roundToVisibleDivisor 127 10 = 130
  ∧ roundToVisibleDivisor 125 10 = 130 ∧ roundToVisibleDivisor (-125) 10 = -120.
Proof. vm_compute. repeat split; reflexivity. Qed.

(** X3.  [clamp] returns a value of the range [[min, max]] when the range
    is not empty, and the value itself when it lies in the range; for an
    empty range ([max < min]) it returns [max]. *)
Theorem clamp_range (value min max : Z) :
  (min <= max → min <= clamp value min max <= max)
  ∧ (min <= value <= max → clamp value min max = value)
  ∧ (max < min → clamp value min max = max).
Proof. unfold clamp. repeat split; lia. Qed.

Lemma clamp_range_witness :
  (0 <= 16 → 0 <= clamp 20 0 16 <= 16)
  ∧ (0 <= 7 <= 16 → clamp 7 0 16 = 7)
  ∧ (3 < 5 → clamp 4 5 3 = 3).
Proof.
  pose proof (clamp_range 20 0 16) as (H1 & _ & _).
  pose proof (clamp_range 7 0 16) as (_ & H2 & _).
  pose proof (clamp_range 4 5 3) as (_ & _ & H3).
  repeat split; first [apply H1 | apply H2 | apply H3]; lia.
Defined.

Lemma applyModifier_mono (a b m : Z) :
  -100 <= m → a <= b → applyModifier a m <= applyModifier b m.
Proof. intros Hm Hab. unfold applyModifier. apply scale_mono; lia. Qed.

(** X4.  A chain of modifiers, none below -100, is monotonic non-decreasing
    in the value it is applied to, and a chain over two lists is the chain
    of the second applied to the chain of the first. *)
Theorem applyModifierChain_mono (modifiers more : list Z) (a b : Z) :
  Forall (λ m, -100 <= m) modifiers → a <= b →
  applyModifierChain a modifiers <= applyModifierChain b modifiers
  ∧ applyModifierChain a (modifiers ++ more)
    = applyModifierChain (applyModifierChain a modifiers) more.
Proof.
  intros Hall Hab. split.
  - unfold applyModifierChain. revert a b Hab.
    induction Hall as [|m ms Hm _ IH]; intros a b Hab; simpl; [exact Hab|].
    apply IH. apply applyModifier_mono; assumption.
  - unfold applyModifierChain. apply fold_left_app.
Qed.

Lemma applyModifierChain_mono_witness :
  applyModifierChain 100 [-20; 33] <= applyModifierChain 101 [-20; 33]
  ∧ applyModifierChain 100 ([-20; 33] ++ [5])
    = applyModifierChain (applyModifierChain 100 [-20; 33]) [5].
Proof.
  apply (applyModifierChain_mono [-20; 33] [5] 100 101); [|lia].
  repeat constructor; lia.
Defined.

(* ===================================================================== *)
(** * Further properties: gold purchase costs                             *)
(* ===================================================================== *)

(** [exactPower] is the exact floor at every positive base. *)
Lemma exactPower_floorExact (base : Z) (e : Q) :
  0 < base → floorExactAt exactPower base e.
Proof.
  intros Hb. unfold floorExactAt, exactPower.
  destruct (Z.ltb_spec base 0); [lia|].
  destruct (Z.eqb_spec base 0); [lia|]. reflexivity.
Qed.

(** The stages of [getUnitPurchaseCost] after the base cost keep the order
    of non-negative costs. *)
Lemma unit_stages_mono (floorPow : FloorPow) (options : UnitPurchaseCostOptions)
    (ctx : GameContext) (p1 p2 b1 b2 : Z) :
  let constants := default GOLD_PURCHASE_CONSTANTS_VP (u_constants options) in
  let hurryModifier := default 0 (u_hurryModifier options) in
  0 < GOLD_PURCHASE_VISIBLE_DIVISOR constants →
  getPurchaseCostFromProduction floorPow p1 ctx hurryModifier constants = Some b1 →
  getPurchaseCostFromProduction floorPow p2 ctx hurryModifier constants = Some b2 →
  0 <= b1 <= b2 →
  ∃ c1 c2,
    getUnitPurchaseCost floorPow p1 ctx options = Some c1
    ∧ getUnitPurchaseCost floorPow p2 ctx options = Some c2
    ∧ c1 <= c2.
Proof.
  intros constants hurryModifier Hd E1 E2 Hb. unfold getUnitPurchaseCost.
  fold constants hurryModifier. rewrite E1, E2.
  destruct (default 0 (u_hurryCostModifier options) =? -1);
    [exists (-1), (-1); repeat split; lia|].
  cbv zeta. eexists _, _. split; [reflexivity|]. split; [reflexivity|].
  apply Z.max_le_compat_l, floorToDivisor_mono; [exact Hd|].
  assert (H1 : ∀ (cond : bool) m a b, 0 <= a <= b →
    0 <= (if cond then a * Z.max 0 (100 + m) / 100 else a)
      <= (if cond then b * Z.max 0 (100 + m) / 100 else b)).
  { intros [] m a b Hab; [|exact Hab]. split.
    - apply scale_nonneg; lia.
    - apply scale_mono; lia. }
  pose proof (H1 (negb (default 0 (u_hurryCostModifier options) =? 0))
                 (default 0 (u_hurryCostModifier options)) b1 b2 ltac:(lia)) as Hs1.
  pose proof (H1 (negb (default 0 (u_playerUnitPurchaseMod options) =? 0))
                 (default 0 (u_playerUnitPurchaseMod options)) _ _ Hs1) as Hs2.
  set (c1 := if negb (default 0 (u_playerUnitPurchaseMod options) =? 0) then _ else _) in *.
  set (c2 := if negb (default 0 (u_playerUnitPurchaseMod options) =? 0) then _ else _) in *.
  destruct (default true (u_enableVPAdjustments options)); [|lia].
  apply scale_mono; [lia | lia |].
  destruct (Z.ltb_spec 0 (default 0 (u_techProgress options))) as [Ht|Ht]; [|lia].
  apply scale_mono; [|lia|lia].
  assert (0 <= default 0 (u_techProgress options) / 2) by (apply Z.div_pos; lia). lia.
Qed.

Lemma unit_cost_mono_exactPower (p1 p2 : Z) (ctx : GameContext)
    (options : UnitPurchaseCostOptions) :
  let constants := default GOLD_PURCHASE_CONSTANTS_VP (u_constants options) in
  0 < GOLD_PURCHASE_GOLD_PER_PRODUCTION constants →
  0 <= Qnum (HURRY_GOLD_PRODUCTION_EXPONENT constants) →
  0 < GOLD_PURCHASE_VISIBLE_DIVISOR constants →
  p1 <= p2 →
  ∃ c1 c2,
    getUnitPurchaseCost exactPower p1 ctx options = Some c1
    ∧ getUnitPurchaseCost exactPower p2 ctx options = Some c2
    ∧ c1 <= c2.
Proof.
  intros constants Hg He Hd Hp.
  destruct (base_cost_mono_production exactPower p1 p2 ctx
              (default 0 (u_hurryModifier options)) constants Hg He Hp)
    as (b1 & b2 & E1 & E2 & Hb).
  - intros H1. apply exactPower_floorExact. fold constants. nia.
  - intros H2. apply exactPower_floorExact. fold constants. nia.
  - exact (unit_stages_mono exactPower options ctx p1 p2 b1 b2 Hd E1 E2 Hb).
Qed.

(** X5.  With a positive gold-per-production, a non-negative exponent and a
    positive visible divisor, the unit purchase cost is monotonic
    non-decreasing in the production cost, for every option bag: on the
    exact floored power without further condition, and on the runtime's
    power between productions at which it is the exact floor. *)
Theorem unit_cost_monotone_in_production (floorPow : FloorPow) (p1 p2 : Z)
    (ctx : GameContext) (options : UnitPurchaseCostOptions) :
  let constants := default GOLD_PURCHASE_CONSTANTS_VP (u_constants options) in
  let g := GOLD_PURCHASE_GOLD_PER_PRODUCTION constants in
  let e := HURRY_GOLD_PRODUCTION_EXPONENT constants in
  0 < g → 0 <= Qnum e →
  0 < GOLD_PURCHASE_VISIBLE_DIVISOR constants →
  p1 <= p2 →
  (∃ c1 c2,
     getUnitPurchaseCost exactPower p1 ctx options = Some c1
     ∧ getUnitPurchaseCost exactPower p2 ctx options = Some c2
     ∧ c1 <= c2)
  ∧ ((0 < p1 → floorExactAt floorPow (p1 * g) e) →
     (0 < p2 → floorExactAt floorPow (p2 * g) e) →
     ∃ c1 c2,
       getUnitPurchaseCost floorPow p1 ctx options = Some c1
       ∧ getUnitPurchaseCost floorPow p2 ctx options = Some c2
       ∧ c1 <= c2).
Proof.
  intros constants g e Hg He Hd Hp.
  split; [exact (unit_cost_mono_exactPower p1 p2 ctx options Hg He Hd Hp)|].
  intros Hx1 Hx2.
  destruct (base_cost_mono_production floorPow p1 p2 ctx
              (default 0 (u_hurryModifier options)) constants Hg He Hp Hx1 Hx2)
    as (b1 & b2 & E1 & E2 & Hb).
  exact (unit_stages_mono floorPow options ctx p1 p2 b1 b2 Hd E1 E2 Hb).
Qed.

Lemma unit_cost_monotone_in_production_witness :
  (∃ c1 c2,
     getUnitPurchaseCost exactPower 158 createDefaultGameContext noUnitOptions = Some c1
     ∧ getUnitPurchaseCost exactPower 159 createDefaultGameContext noUnitOptions = Some c2
     ∧ c1 <= c2)
  ∧ (∃ c1 c2,
       getUnitPurchaseCost (λ base e, Some (powFloor base e)) 158
         createDefaultGameContext noUnitOptions = Some c1
       ∧ getUnitPurchaseCost (λ base e, Some (powFloor base e)) 159
           createDefaultGameContext noUnitOptions = Some c2
       ∧ c1 <= c2).
Proof.
  pose proof (unit_cost_monotone_in_production (λ base e, Some (powFloor base e))
                158 159 createDefaultGameContext noUnitOptions) as H.
  cbv zeta in H.
  destruct H as [Hexact Hruntime];
    [vm_compute; first [reflexivity | discriminate] ..|].
  split; [exact Hexact|]. apply Hruntime; intros _; reflexivity.
Defined.

Lemma building_stages_mono (options : BuildingPurchaseCostOptions) (b1 b2 : Z) :
  let constants := default GOLD_PURCHASE_CONSTANTS_VP (b_constants options) in
  let intrinsic := default (-20) (b_buildingHurryCostModifier options) in
  let playerMod := default 0 (b_playerBuildingPurchaseMod options) in
  let progress := default 0 (b_techProgress options) in
  -100 <= intrinsic → -100 <= playerMod → 0 <= b1 <= b2 →
  0 <= (let cost :=
          if negb (intrinsic =? 0) then b1 * (100 + intrinsic) / 100 else b1 in
        let cost :=
          if negb (playerMod =? 0) then cost * (100 + playerMod) / 100 else cost in
        if default true (b_enableTechScaling options) then
          if 0 <? progress then cost * (100 + progress / 3) / 100 else cost
        else cost)
    <= (let cost :=
          if negb (intrinsic =? 0) then b2 * (100 + intrinsic) / 100 else b2 in
        let cost :=
          if negb (playerMod =? 0) then cost * (100 + playerMod) / 100 else cost in
        if default true (b_enableTechScaling options) then
          if 0 <? progress then cost * (100 + progress / 3) / 100 else cost
        else cost).
Proof.
  intros constants intrinsic playerMod progress Hi Hpl Hb. cbv zeta.
  assert (H1 : ∀ (cond : bool) m a b, -100 <= m → 0 <= a <= b →
    0 <= (if cond then a * (100 + m) / 100 else a)
      <= (if cond then b * (100 + m) / 100 else b)).
  { intros [] m a b Hm Hab; [|exact Hab]. split.
    - apply scale_nonneg; lia.
    - apply scale_mono; lia. }
  pose proof (H1 (negb (intrinsic =? 0)) intrinsic b1 b2 Hi Hb) as Hs1.
  pose proof (H1 (negb (playerMod =? 0)) playerMod _ _ Hpl Hs1) as Hs2.
  destruct (default true (b_enableTechScaling options)); [|exact Hs2].
  destruct (Z.ltb_spec 0 progress) as [Ht|Ht]; [|exact Hs2].
  assert (0 <= progress / 3) by (apply Z.div_pos; lia).
  apply (H1 true (progress / 3)); [lia | exact Hs2].
Qed.

Lemma building_cost_mono_base (floorPow : FloorPow) (options : BuildingPurchaseCostOptions)
    (ctx : GameContext) (p1 p2 b1 b2 : Z) :
  let constants := default GOLD_PURCHASE_CONSTANTS_VP (b_constants options) in
  let hurryModifier := default 0 (b_hurryModifier options) in
  0 < GOLD_PURCHASE_VISIBLE_DIVISOR constants →
  -100 <= default (-20) (b_buildingHurryCostModifier options) →
  -100 <= default 0 (b_playerBuildingPurchaseMod options) →
  getPurchaseCostFromProduction floorPow p1 ctx hurryModifier constants = Some b1 →
  getPurchaseCostFromProduction floorPow p2 ctx hurryModifier constants = Some b2 →
  0 <= b1 <= b2 →
  ∃ c1 c2,
    getBuildingPurchaseCost floorPow p1 ctx options = Some c1
    ∧ getBuildingPurchaseCost floorPow p2 ctx options = Some c2
    ∧ c1 <= c2.
Proof.
  intros constants hurryModifier Hd Hi Hpl E1 E2 Hb. unfold getBuildingPurchaseCost.
  fold constants hurryModifier. rewrite E1, E2.
  destruct (default (-20) (b_buildingHurryCostModifier options) =? -1);
    [exists (-1), (-1); repeat split; lia|].
  cbv zeta. eexists _, _. split; [reflexivity|]. split; [reflexivity|].
  pose proof (building_stages_mono options _ _ Hi Hpl Hb) as Hs.
  cbv zeta in Hs.
  apply Z.max_le_compat_l, floorToDivisor_mono; [exact Hd|].
  destruct (default true (b_isInvestment options)); [|lia].
  apply scale_mono; lia.
Qed.

Lemma building_cost_mono_exactPower (p1 p2 : Z) (ctx : GameContext)
    (options : BuildingPurchaseCostOptions) :
  let constants := default GOLD_PURCHASE_CONSTANTS_VP (b_constants options) in
  0 < GOLD_PURCHASE_GOLD_PER_PRODUCTION constants →
  0 <= Qnum (HURRY_GOLD_PRODUCTION_EXPONENT constants) →
  0 < GOLD_PURCHASE_VISIBLE_DIVISOR constants →
  -100 <= default (-20) (b_buildingHurryCostModifier options) →
  -100 <= default 0 (b_playerBuildingPurchaseMod options) →
  p1 <= p2 →
  ∃ c1 c2,
    getBuildingPurchaseCost exactPower p1 ctx options = Some c1
    ∧ getBuildingPurchaseCost exactPower p2 ctx options = Some c2
    ∧ c1 <= c2.
Proof.
  intros constants Hg He Hd Hi Hpl Hp.
  destruct (base_cost_mono_production exactPower p1 p2 ctx
              (default 0 (b_hurryModifier options)) constants Hg He Hp)
    as (b1 & b2 & E1 & E2 & Hb).
  - intros H1. apply exactPower_floorExact. fold constants. nia.
  - intros H2. apply exactPower_floorExact. fold constants. nia.
  - exact (building_cost_mono_base exactPower options ctx p1 p2 b1 b2 Hd Hi Hpl E1 E2 Hb).
Qed.

(** X6.  With intrinsic and player-wide modifiers not below -100 (and a
    positive gold-per-production, a non-negative exponent, a positive
    visible divisor), the building purchase cost is monotonic
    non-decreasing in the production cost: on the exact floored power
    without further condition, and on the runtime's power between
    productions at which it is the exact floor. *)
Theorem building_cost_monotone_in_production (floorPow : FloorPow) (p1 p2 : Z)
    (ctx : GameContext) (options : BuildingPurchaseCostOptions) :
  let constants := default GOLD_PURCHASE_CONSTANTS_VP (b_constants options) in
  let g := GOLD_PURCHASE_GOLD_PER_PRODUCTION constants in
  let e := HURRY_GOLD_PRODUCTION_EXPONENT constants in
  0 < g → 0 <= Qnum e →
  0 < GOLD_PURCHASE_VISIBLE_DIVISOR constants →
  -100 <= default (-20) (b_buildingHurryCostModifier options) →
  -100 <= default 0 (b_playerBuildingPurchaseMod options) →
  p1 <= p2 →
  (∃ c1 c2,
     getBuildingPurchaseCost exactPower p1 ctx options = Some c1
     ∧ getBuildingPurchaseCost exactPower p2 ctx options = Some c2
     ∧ c1 <= c2)
  ∧ ((0 < p1 → floorExactAt floorPow (p1 * g) e) →
     (0 < p2 → floorExactAt floorPow (p2 * g) e) →
     ∃ c1 c2,
       getBuildingPurchaseCost floorPow p1 ctx options = Some c1
       ∧ getBuildingPurchaseCost floorPow p2 ctx options = Some c2
       ∧ c1 <= c2).
Proof.
  intros constants g e Hg He Hd Hi Hpl Hp.
  split; [exact (building_cost_mono_exactPower p1 p2 ctx options Hg He Hd Hi Hpl Hp)|].
  intros Hx1 Hx2.
  destruct (base_cost_mono_production floorPow p1 p2 ctx
              (default 0 (b_hurryModifier options)) constants Hg He Hp Hx1 Hx2)
    as (b1 & b2 & E1 & E2 & Hb).
  exact (building_cost_mono_base floorPow options ctx p1 p2 b1 b2 Hd Hi Hpl E1 E2 Hb).
Qed.

Lemma building_cost_monotone_in_production_witness :
  (∃ c1 c2,
     getBuildingPurchaseCost exactPower 158 createDefaultGameContext noBuildingOptions
       = Some c1
     ∧ getBuildingPurchaseCost exactPower 159 createDefaultGameContext noBuildingOptions
       = Some c2
     ∧ c1 <= c2)
  ∧ (∃ c1 c2,
       getBuildingPurchaseCost (λ base e, Some (powFloor base e)) 158
         createDefaultGameContext noBuildingOptions = Some c1
       ∧ getBuildingPurchaseCost (λ base e, Some (powFloor base e)) 159
           createDefaultGameContext noBuildingOptions = Some c2
       ∧ c1 <= c2).
Proof.
  pose proof (building_cost_monotone_in_production (λ base e, Some (powFloor base e))
                158 159 createDefaultGameContext noBuildingOptions) as H.
  cbv zeta in H.
  destruct H as [Hexact Hruntime];
    [vm_compute; first [reflexivity | discriminate] ..|].
  split; [exact Hexact|]. apply Hruntime; intros _; reflexivity.
Defined.

(** X7.  With intrinsic and player-wide modifiers not below -100 and a
    positive visible divisor: whenever the full purchase price of a
    building is a number, so is the investment price under the same
    options, and it is not above the purchase price. *)
Theorem investment_not_above_purchase (floorPow : FloorPow) (productionCost : Z)
    (ctx : GameContext)
    (intrinsic playerMod hurryModifier techProgress : option Z)
    (techScaling : option bool) (constants : option GoldPurchaseConstants) (full : Z) :
  0 < GOLD_PURCHASE_VISIBLE_DIVISOR (default GOLD_PURCHASE_CONSTANTS_VP constants) →
  -100 <= default (-20) intrinsic → -100 <= default 0 playerMod →
  getBuildingPurchaseCost floorPow productionCost ctx
    {| b_buildingHurryCostModifier := intrinsic; b_playerBuildingPurchaseMod := playerMod;
       b_hurryModifier := hurryModifier; b_techProgress := techProgress;
       b_enableTechScaling := techScaling; b_isInvestment := Some false;
       b_constants := constants |} = Some full →
  ∃ investment,
    getBuildingPurchaseCost floorPow productionCost ctx
      {| b_buildingHurryCostModifier := intrinsic; b_playerBuildingPurchaseMod := playerMod;
         b_hurryModifier := hurryModifier; b_techProgress := techProgress;
         b_enableTechScaling := techScaling; b_isInvestment := Some true;
         b_constants := constants |} = Some investment
    ∧ investment <= full.
Proof.
  intros Hd Hi Hpl. unfold getBuildingPurchaseCost.
  cbn [b_buildingHurryCostModifier b_playerBuildingPurchaseMod b_hurryModifier
       b_techProgress b_enableTechScaling b_isInvestment b_constants].
  destruct (default (-20) intrinsic =? -1);
    [intros [= <-]; exists (-1); split; [reflexivity | lia]|].
  destruct (getPurchaseCostFromProduction floorPow productionCost ctx
              (default 0 hurryModifier) (default GOLD_PURCHASE_CONSTANTS_VP constants))
    as [base|] eqn:Ebase; [|discriminate].
  pose proof (base_cost_nonneg _ _ _ _ _ _ Ebase) as H0.
  pose proof (building_stages_mono
    {| b_buildingHurryCostModifier := intrinsic; b_playerBuildingPurchaseMod := playerMod;
       b_hurryModifier := hurryModifier; b_techProgress := techProgress;
       b_enableTechScaling := techScaling; b_isInvestment := None;
       b_constants := constants |} _ _ Hi Hpl (conj H0 (Z.le_refl _))) as [Hs _].
  cbn [b_buildingHurryCostModifier b_playerBuildingPurchaseMod b_hurryModifier
       b_techProgress b_enableTechScaling b_isInvestment b_constants] in Hs.
  change (default true (Some true)) with true.
  change (default true (Some false)) with false.
  cbv zeta in *. cbv iota.
  intros [= <-]. eexists. split; [reflexivity|].
  apply Z.max_le_compat_l, floorToDivisor_mono; [exact Hd|].
  match goal with |- ?c * 6 / 10 <= ?c =>
    pose proof (Z.mul_div_le (c * 6) 10 ltac:(lia)); lia end.
Qed.

Lemma investment_not_above_purchase_witness :
  ∃ investment,
    getBuildingPurchaseCost exactPower 1800 createDefaultGameContext
      {| b_buildingHurryCostModifier := Some (-20); b_playerBuildingPurchaseMod := None;
         b_hurryModifier := Some (-20); b_techProgress := Some 66;
         b_enableTechScaling := Some true; b_isInvestment := Some true;
         b_constants := None |} = Some investment
    ∧ investment <= 1280.
Proof.
  apply (investment_not_above_purchase exactPower 1800 createDefaultGameContext
           (Some (-20)) None (Some (-20)) (Some 66) (Some true) None 1280);
    first [simpl; lia | vm_compute; reflexivity].
Defined.

Lemma clamped_stage_nonneg (cond : bool) (m a : Z) :
  0 <= a → 0 <= (if cond then a * Z.max 0 (100 + m) / 100 else a).
Proof. intros Ha. destruct cond; [apply scale_nonneg; lia | exact Ha]. Qed.

Lemma progress_stage_mono (c k t1 t2 : Z) :
  0 <= c → 0 < k → t1 <= t2 →
  (if 0 <? t1 then c * (100 + t1 / k) / 100 else c)
  <= (if 0 <? t2 then c * (100 + t2 / k) / 100 else c).
Proof.
  intros Hc Hk Ht.
  assert (Hup : ∀ t, 0 <= t → c <= c * (100 + t / k) / 100).
  { intros t Ht0. assert (0 <= t / k) by (apply Z.div_pos; lia).
    apply Z.div_le_lower_bound; [lia|]. nia. }
  destruct (Z.ltb_spec 0 t1) as [H1|H1]; destruct (Z.ltb_spec 0 t2) as [H2|H2]; try lia.
  - apply Z.div_le_mono; [lia|]. apply Z.mul_le_mono_nonneg_l; [exact Hc|].
    assert (t1 / k <= t2 / k) by (apply Z.div_le_mono; lia). lia.
  - apply Hup. lia.
Qed.

(** X8.  With a positive visible divisor, the unit purchase cost is
    monotonic non-decreasing in the tech progress percentage: whenever the
    price at the larger progress is a number, so is the price at the
    smaller one, and it is not above it, whatever the other options are. *)
Theorem unit_cost_monotone_in_progress (floorPow : FloorPow) (productionCost : Z)
    (ctx : GameContext)
    (perUnit playerMod hurryModifier : option Z) (toggle : option bool)
    (constants : option GoldPurchaseConstants) (progress1 progress2 cost2 : Z) :
  0 < GOLD_PURCHASE_VISIBLE_DIVISOR (default GOLD_PURCHASE_CONSTANTS_VP constants) →
  progress1 <= progress2 →
  getUnitPurchaseCost floorPow productionCost ctx
    {| u_hurryCostModifier := perUnit; u_playerUnitPurchaseMod := playerMod;
       u_hurryModifier := hurryModifier; u_techProgress := Some progress2;
       u_enableVPAdjustments := toggle; u_constants := constants |} = Some cost2 →
  ∃ cost1,
    getUnitPurchaseCost floorPow productionCost ctx
      {| u_hurryCostModifier := perUnit; u_playerUnitPurchaseMod := playerMod;
         u_hurryModifier := hurryModifier; u_techProgress := Some progress1;
         u_enableVPAdjustments := toggle; u_constants := constants |} = Some cost1
    ∧ cost1 <= cost2.
Proof.
  intros Hd Hp. unfold getUnitPurchaseCost.
  cbn [u_hurryCostModifier u_playerUnitPurchaseMod u_hurryModifier u_techProgress
       u_enableVPAdjustments u_constants].
  change (default 0 (Some progress1)) with progress1.
  change (default 0 (Some progress2)) with progress2.
  destruct (default 0 perUnit =? -1);
    [intros [= <-]; exists (-1); split; [reflexivity | lia]|].
  destruct (getPurchaseCostFromProduction floorPow productionCost ctx
              (default 0 hurryModifier) (default GOLD_PURCHASE_CONSTANTS_VP constants))
    as [base|] eqn:Ebase; [|discriminate].
  pose proof (base_cost_nonneg _ _ _ _ _ _ Ebase) as H0.
  cbv zeta. intros [= <-]. eexists. split; [reflexivity|].
  pose proof (clamped_stage_nonneg (negb (default 0 perUnit =? 0)) (default 0 perUnit)
                _ H0) as H1.
  pose proof (clamped_stage_nonneg (negb (default 0 playerMod =? 0)) (default 0 playerMod)
                _ H1) as H2.
  apply Z.max_le_compat_l, floorToDivisor_mono; [exact Hd|].
  destruct (default true toggle); [|lia].
  apply scale_mono; [lia | lia |].
  apply progress_stage_mono; [exact H2 | lia | exact Hp].
Qed.

Lemma unit_cost_monotone_in_progress_witness :
  ∃ cost1,
    getUnitPurchaseCost exactPower 200 createDefaultGameContext
      {| u_hurryCostModifier := None; u_playerUnitPurchaseMod := None;
         u_hurryModifier := None; u_techProgress := Some 10;
         u_enableVPAdjustments := None; u_constants := None |} = Some cost1
    ∧ cost1 <= 360.
Proof.
  apply (unit_cost_monotone_in_progress exactPower 200 createDefaultGameContext
           None None None None None 10 50 360);
    first [simpl; lia | vm_compute; reflexivity].
Defined.

Lemma hurry_stage_clamped (n m : Z) :
  (if negb (m =? 0) then n * Z.max 0 (100 + m) / 100 else n)
  = n * Z.max 0 (100 + m) / 100.
Proof.
  destruct (Z.eqb_spec m 0) as [->|_]; simpl; [|reflexivity].
  symmetry. apply Z.div_mul. lia.
Qed.

(** The two scalings of the base cost, then [max(0, cost)], are monotonic
    in the first factor for every sign of the power and of the game-speed
    percent. *)
Lemma hurry_factor_mono (n h k1 k2 : Z) :
  0 <= k1 <= k2 →
  Z.max 0 (n * k1 / 100 * h / 100) <= Z.max 0 (n * k2 / 100 * h / 100).
Proof.
  intros Hk.
  destruct (Z.le_gt_cases 0 n) as [Hn|Hn]; destruct (Z.le_gt_cases 0 h) as [Hh|Hh].
  - assert (0 <= n * k1 / 100 <= n * k2 / 100).
    { split; [apply Z.div_pos; nia|]. apply Z.div_le_mono; [lia | nia]. }
    apply Z.max_le_compat_l, Z.div_le_mono; [lia | nia].
  - assert (H1 : 0 <= n * k1 / 100) by (apply Z.div_pos; nia).
    assert (H2 : 0 <= n * k2 / 100) by (apply Z.div_pos; nia).
    assert (n * k1 / 100 * h / 100 <= 0) by (apply Z.div_le_upper_bound; nia).
    assert (n * k2 / 100 * h / 100 <= 0) by (apply Z.div_le_upper_bound; nia).
    lia.
  - assert (H1 : n * k1 / 100 <= 0) by (apply Z.div_le_upper_bound; nia).
    assert (H2 : n * k2 / 100 <= 0) by (apply Z.div_le_upper_bound; nia).
    assert (n * k1 / 100 * h / 100 <= 0) by (apply Z.div_le_upper_bound; nia).
    assert (n * k2 / 100 * h / 100 <= 0) by (apply Z.div_le_upper_bound; nia).
    lia.
  - assert (H12 : n * k2 / 100 <= n * k1 / 100) by (apply Z.div_le_mono; [lia | nia]).
    apply Z.max_le_compat_l, Z.div_le_mono; [lia | nia].
Qed.

(** X9.  A smaller stacking hurry modifier never raises the cost: whenever
    the base cost is a number (it is for one modifier exactly when it is
    for the other), the base cost and the project cost are monotonic
    non-decreasing in the hurry modifier, for every production, game
    context and constants bundle with a positive visible divisor. *)
Theorem cost_monotone_in_hurry_modifier (floorPow : FloorPow) (productionCost : Z)
    (ctx : GameContext) (constants : GoldPurchaseConstants) (m1 m2 base2 : Z) :
  0 < GOLD_PURCHASE_VISIBLE_DIVISOR constants → m1 <= m2 →
  getPurchaseCostFromProduction floorPow productionCost ctx m2 constants = Some base2 →
  ∃ base1 project1 project2,
    getPurchaseCostFromProduction floorPow productionCost ctx m1 constants = Some base1
    ∧ base1 <= base2
    ∧ getProjectPurchaseCost floorPow productionCost ctx m1 constants = Some project1
    ∧ getProjectPurchaseCost floorPow productionCost ctx m2 constants = Some project2
    ∧ project1 <= project2.
Proof.
  intros Hd Hm E2.
  assert (Hbase : ∃ base1,
    getPurchaseCostFromProduction floorPow productionCost ctx m1 constants = Some base1
    ∧ base1 <= base2).
  { revert E2. unfold getPurchaseCostFromProduction.
    destruct (productionCost <=? 0); [intros [= <-]; exists 0; split; [reflexivity | lia]|].
    cbv zeta. destruct (floorPow _ _) as [n|]; [|discriminate].
    rewrite !hurry_stage_clamped. intros [= <-]. eexists. split; [reflexivity|].
    apply hurry_factor_mono. lia. }
  destruct Hbase as (base1 & E1 & Hle).
  exists base1. unfold getProjectPurchaseCost. rewrite E1, E2. cbv zeta.
  eexists _, _. split; [reflexivity|]. split; [exact Hle|].
  split; [reflexivity|]. split; [reflexivity|].
  apply Z.max_le_compat_l, floorToDivisor_mono; assumption.
Qed.

Lemma cost_monotone_in_hurry_modifier_witness :
  ∃ base1 project1 project2,
    getPurchaseCostFromProduction exactPower 200 createDefaultGameContext (-20)
      GOLD_PURCHASE_CONSTANTS_VP = Some base1
    ∧ base1 <= 351
    ∧ getProjectPurchaseCost exactPower 200 createDefaultGameContext (-20)
        GOLD_PURCHASE_CONSTANTS_VP = Some project1
    ∧ getProjectPurchaseCost exactPower 200 createDefaultGameContext (-5)
        GOLD_PURCHASE_CONSTANTS_VP = Some project2
    ∧ project1 <= project2.
Proof.
  apply (cost_monotone_in_hurry_modifier exactPower 200 createDefaultGameContext
           GOLD_PURCHASE_CONSTANTS_VP (-20) (-5) 351);
    first [simpl; lia | vm_compute; reflexivity].
Defined.

(** The monotonicity in the hurry modifier does not depend on the sign of
    the power: a runtime power of -8 (the cube of -2) with a negative
    game-speed percent gives 4 at modifier -50 and 8 at modifier 0. *)
Example hurry_modifier_negative_power :
  let constants := {| GOLD_PURCHASE_GOLD_PER_PRODUCTION := -2;
                      HURRY_GOLD_PRODUCTION_EXPONENT := 3 # 1;
                      GOLD_PURCHASE_VISIBLE_DIVISOR := 10 |} in
  let ctx := {| gameSpeed := uniformSpeed GAMESPEED_STANDARD (-100) |} in
  getPurchaseCostFromProduction exactPower 1 ctx (-50) constants = Some 4
  ∧ getPurchaseCostFromProduction exactPower 1 ctx 0 constants = Some 8.
Proof. vm_compute. split; reflexivity. Qed.

(** X10.  A stacking hurry modifier of -100 or less makes the base cost 0
    whenever it is a number (the factor is clamped at 0, never negative),
    and the project cost then is the visible divisor. *)
Theorem full_discount_cost (floorPow : FloorPow) (productionCost : Z)
    (ctx : GameContext) (constants : GoldPurchaseConstants) (hurryModifier : Z) :
  hurryModifier <= -100 →
  is_Some (getPurchaseCostFromProduction floorPow productionCost ctx hurryModifier
             constants) →
  getPurchaseCostFromProduction floorPow productionCost ctx hurryModifier constants
  = Some 0
  ∧ (0 < GOLD_PURCHASE_VISIBLE_DIVISOR constants →
     getProjectPurchaseCost floorPow productionCost ctx hurryModifier constants
     = Some (GOLD_PURCHASE_VISIBLE_DIVISOR constants)).
Proof.
  intros Hm Hnum.
  assert (Hbase : getPurchaseCostFromProduction floorPow productionCost ctx hurryModifier
                    constants = Some 0).
  { revert Hnum. unfold getPurchaseCostFromProduction.
    destruct (productionCost <=? 0); [reflexivity|]. cbv zeta.
    destruct (floorPow _ _) as [n|]; [intros _ | intros [x Hx]; discriminate].
    rewrite hurry_stage_clamped.
    replace (Z.max 0 (100 + hurryModifier)) with 0 by lia.
    rewrite Z.mul_0_r. reflexivity. }
  split; [exact Hbase|]. intros Hd.
  unfold getProjectPurchaseCost. rewrite Hbase. cbv zeta. f_equal.
  now apply zero_cost_clamp.
Qed.

Lemma full_discount_cost_witness :
  getPurchaseCostFromProduction exactPower 200 createDefaultGameContext (-130)
    GOLD_PURCHASE_CONSTANTS_VP = Some 0
  ∧ getProjectPurchaseCost exactPower 200 createDefaultGameContext (-130)
      GOLD_PURCHASE_CONSTANTS_VP = Some 10.
Proof.
  pose proof (full_discount_cost exactPower 200 createDefaultGameContext
                GOLD_PURCHASE_CONSTANTS_VP (-130) ltac:(lia)
                ltac:(vm_compute; eexists; reflexivity)) as [H0 Hp].
  split; [exact H0|]. apply Hp. simpl. lia.
Defined.

(** [ratio > targetRatio] holds exactly when the ratio is a number above
    the target. *)
Lemma ratioAbove_true (ratio : option Q) (targetRatio : Q) :
  ratioAbove ratio targetRatio = true ↔ ∃ q, ratio = Some q ∧ (targetRatio < q)%Q.
Proof.
  destruct ratio as [q|]; simpl.
  - rewrite Qlt_bool_iff. split; [intros H; exists q; auto | intros (q' & [= <-] & H); exact H].
  - split; [discriminate | intros (q & Hq & _); discriminate].
Qed.

Lemma ratioAbove_false (ratio : option Q) (targetRatio : Q) :
  ratioAbove ratio targetRatio = false
  ↔ ratio = None ∨ ∃ q, ratio = Some q ∧ (q <= targetRatio)%Q.
Proof.
  destruct ratio as [q|]; simpl.
  - split.
    + intros Hf. right. exists q. split; [reflexivity|].
      destruct (Qlt_le_dec targetRatio q) as [Hc|Hc]; [|exact Hc].
      apply Qlt_bool_iff in Hc. congruence.
    + intros [?|(q' & [= <-] & Hle)]; [discriminate|].
      destruct (Qlt_bool targetRatio q) eqn:E; [|reflexivity].
      apply Qlt_bool_iff in E. exfalso. apply (Qlt_irrefl q).
      apply Qle_lt_trans with targetRatio; assumption.
  - split; [intros _; now left | reflexivity].
Qed.

Lemma breakEvenLoop_spec (floorPow : FloorPow) (targetRatio : Q) (ctx : GameContext)
    (constants : GoldPurchaseConstants) (n : nat) :
  ∀ low high, low < high → high - low <= 2 ^ Z.of_nat n →
  ∃ r, breakEvenLoop floorPow (S n) targetRatio ctx constants low high = Some r
       ∧ low <= r < high
       ∧ (r = low
          ∨ ratioAbove (getGoldToProductionRatio floorPow r ctx constants) targetRatio
            = true)
       ∧ (r + 1 = high
          ∨ ratioAbove (getGoldToProductionRatio floorPow (r + 1) ctx constants)
              targetRatio = false).
Proof.
  induction n as [|n IH]; intros low high Hlt Hlen.
  - exists low. cbn [breakEvenLoop].
    destruct (Z.ltb_spec 1 (high - low)) as [Hc|Hc]; [simpl in Hlen; lia|].
    split; [reflexivity|]. split; [lia|]. split; [left; reflexivity | left; lia].
  - cbn [breakEvenLoop].
    destruct (Z.ltb_spec 1 (high - low)) as [Hc|Hc].
    + cbv zeta. set (mid := (low + high) / 2).
      assert (Hmid : low < mid < high).
      { unfold mid.
        pose proof (Z.mul_div_le (low + high) 2 ltac:(lia)).
        pose proof (Z.mul_succ_div_gt (low + high) 2 ltac:(lia)). lia. }
      assert (Hpow : 2 ^ Z.of_nat (S n) = 2 * 2 ^ Z.of_nat n).
      { rewrite Nat2Z.inj_succ, Z.pow_succ_r by lia. reflexivity. }
      assert (Hhalf : mid - low <= 2 ^ Z.of_nat n ∧ high - mid <= 2 ^ Z.of_nat n).
      { unfold mid.
        pose proof (Z.mul_div_le (low + high) 2 ltac:(lia)).
        pose proof (Z.mul_succ_div_gt (low + high) 2 ltac:(lia)). lia. }
      destruct (ratioAbove (getGoldToProductionRatio floorPow mid ctx constants)
                  targetRatio) eqn:Hr.
      * destruct (IH mid high ltac:(lia) ltac:(lia)) as (r & Hrun & Hrange & Hlo & Hhi).
        exists r. split; [exact Hrun|]. split; [lia|]. split; [|exact Hhi].
        right. destruct Hlo as [->|Hlo]; assumption.
      * destruct (IH low mid ltac:(lia) ltac:(lia)) as (r & Hrun & Hrange & Hlo & Hhi).
        exists r. split; [exact Hrun|]. split; [lia|]. split; [exact Hlo|].
        right. destruct Hhi as [->|Hhi]; assumption.
    + exists low. split; [reflexivity|]. split; [lia|].
      split; [left; reflexivity | left; lia].
Qed.

(** X11.  The binary search of [getBreakEvenProductionCost] ends after at
    most 14 halvings and returns a production [r] in [1 .. 9999] at a
    crossing of the test [ratio > targetRatio]: unless [r = 1], the ratio
    at [r] is a number above the target; unless [r = 9999], the ratio at
    [r + 1] is [NaN] or a number at most the target.  (When every ratio is
    [NaN] the search returns 1.) *)
Theorem break_even_search (floorPow : FloorPow) (targetRatio : Q) (ctx : GameContext)
    (constants : GoldPurchaseConstants) :
  ∃ r, getBreakEvenProductionCost floorPow targetRatio ctx constants = Some r
       ∧ 1 <= r <= 9999
       ∧ (r = 1
          ∨ ∃ q, getGoldToProductionRatio floorPow r ctx constants = Some q
                 ∧ (targetRatio < q)%Q)
       ∧ (r = 9999
          ∨ getGoldToProductionRatio floorPow (r + 1) ctx constants = None
          ∨ ∃ q, getGoldToProductionRatio floorPow (r + 1) ctx constants = Some q
                 ∧ (q <= targetRatio)%Q).
Proof.
  destruct (breakEvenLoop_spec floorPow targetRatio ctx constants 14 1 10000 ltac:(lia)
              ltac:(simpl; lia)) as (r & Hrun & Hrange & Hlo & Hhi).
  exists r. split; [exact Hrun|]. split; [lia|]. split.
  - destruct Hlo as [Hlo|Hlo]; [left; exact Hlo | right; apply ratioAbove_true; exact Hlo].
  - destruct Hhi as [Hhi|Hhi]; [left; lia | right; apply ratioAbove_false; exact Hhi].
Qed.

Example break_even_ratio_2 :
  getBreakEvenProductionCost exactPower 2 createDefaultGameContext
    GOLD_PURCHASE_CONSTANTS_VP = Some 156.
Proof. vm_compute. reflexivity. Qed.

(** With a negative gold-per-production every ratio is [NaN], every test
    fails, and the search ends at 1. *)
Example break_even_not_a_number :
  getBreakEvenProductionCost exactPower 2 createDefaultGameContext
    {| GOLD_PURCHASE_GOLD_PER_PRODUCTION := -30;
       HURRY_GOLD_PRODUCTION_EXPONENT := 17 # 25;
       GOLD_PURCHASE_VISIBLE_DIVISOR := 10 |} = Some 1.
Proof. vm_compute. reflexivity. Qed.

(* ===================================================================== *)
(** * Further properties: hurry modifier totals                           *)
(* ===================================================================== *)

Lemma addModifiers_scopes (modifiers : list HurryModifierSource) :
  addModifiers FilterAll 0 modifiers
  = addModifiers FilterLocal 0 modifiers + addModifiers FilterEmpire 0 modifiers.
Proof.
  induction modifiers as [|m ms IH]; [reflexivity|].
  unfold addModifiers in *. cbn [fold_left].
  fold (addModifiers FilterAll (if scopeMatches FilterAll (scope m) then 0 + modifier m else 0) ms).
  fold (addModifiers FilterLocal (if scopeMatches FilterLocal (scope m) then 0 + modifier m else 0) ms).
  fold (addModifiers FilterEmpire (if scopeMatches FilterEmpire (scope m) then 0 + modifier m else 0) ms).
  rewrite (addModifiers_shift FilterAll), (addModifiers_shift FilterLocal),
    (addModifiers_shift FilterEmpire).
  unfold addModifiers. rewrite IH. destruct (scope m); simpl; lia.
Qed.

(** X12.  The total over the "all" scope is the total over the "local"
    scope plus the total over the "empire" scope, for every enabled set and
    source index. *)
Theorem total_modifier_scopes (enabledSources : gset string) (allSources : SourceIndex) :
  calculateTotalHurryModifier enabledSources allSources FilterAll
  = calculateTotalHurryModifier enabledSources allSources FilterLocal
    + calculateTotalHurryModifier enabledSources allSources FilterEmpire.
Proof.
  unfold calculateTotalHurryModifier.
  induction allSources as [|entry rest IH]; [reflexivity|].
  rewrite !totalFrom_cons, IH.
  destruct (bool_decide (entry.1 ∈ enabledSources)); [|lia].
  rewrite addModifiers_scopes. lia.
Qed.

(** X13.  Only the enabled identifiers that occur in the source index
    count: two enabled sets that agree on the identifiers of the index give
    the same total; in particular an empty set, or a set of unknown
    identifiers, gives 0. *)
Theorem total_modifier_only_indexed (A B : gset string) (allSources : SourceIndex)
    (f : ScopeFilter) :
  (∀ entry, entry ∈ allSources → (entry.1 ∈ A ↔ entry.1 ∈ B)) →
  calculateTotalHurryModifier A allSources f
  = calculateTotalHurryModifier B allSources f
  ∧ (A = ∅ → calculateTotalHurryModifier B allSources f = 0).
Proof.
  intros Hagree.
  assert (Heq : calculateTotalHurryModifier A allSources f
                = calculateTotalHurryModifier B allSources f).
  { unfold calculateTotalHurryModifier.
    induction allSources as [|entry rest IH]; [reflexivity|].
    assert (He0 : entry ∈ entry :: rest) by (apply elem_of_cons; left; reflexivity).
    rewrite !totalFrom_cons, IH.
    - rewrite (bool_decide_ext _ _ (Hagree entry He0)). reflexivity.
    - intros e He. apply Hagree. apply elem_of_cons. right. exact He. }
  split; [exact Heq|]. intros ->. rewrite <- Heq. apply totalFrom_empty.
Qed.

Lemma total_modifier_only_indexed_witness :
  calculateTotalHurryModifier {["POLICY_COMMERCE"]} getIndustryPolicyModifiers FilterAll
  = calculateTotalHurryModifier ({["POLICY_COMMERCE"]} ∪ {["BUILDING_UNKNOWN"]})
      getIndustryPolicyModifiers FilterAll.
Proof.
  apply (total_modifier_only_indexed {["POLICY_COMMERCE"]}
           ({["POLICY_COMMERCE"]} ∪ {["BUILDING_UNKNOWN"]})
           getIndustryPolicyModifiers FilterAll).
  intros entry He. rewrite elem_of_union, !elem_of_singleton.
  split; [intros H; left; exact H|]. intros [H|H]; [exact H|].
  exfalso. unfold getIndustryPolicyModifiers, INDUSTRY_POLICY_MODIFIERS in He.
  cbn [map] in He. repeat (apply elem_of_cons in He as [->|He]; [discriminate H|]).
  apply elem_of_nil in He. exact He.
Defined.

(* ===================================================================== *)
(** * Further properties: the tech progress index                         *)
(* ===================================================================== *)

Section TechIndex.

Implicit Types (t : Technology) (l technologies : list Technology) (x y : Z).

Lemma firstPass_snoc l t : firstPass (l ++ [t]) = firstPassStep (firstPass l) t.
Proof. unfold firstPass. rewrite fold_left_app. reflexivity. Qed.

Lemma techsAt_snoc l t x :
  techsAt (l ++ [t]) x = techsAt l x + (if decide (tech_GridX t = x) then 1 else 0).
Proof.
  unfold techsAt. rewrite filter_app, length_app, filter_cons, filter_nil.
  destruct (decide (tech_GridX t = x)); simpl; lia.
Qed.

Lemma techsUpTo_cons t l x :
  techsUpTo (t :: l) x
  = (if decide (0 <= tech_GridX t <= x) then 1 else 0) + techsUpTo l x.
Proof.
  unfold techsUpTo. rewrite filter_cons.
  destruct (decide (0 <= tech_GridX t <= x)); simpl length; lia.
Qed.

Lemma techsAt_cons t l x :
  techsAt (t :: l) x = (if decide (tech_GridX t = x) then 1 else 0) + techsAt l x.
Proof.
  unfold techsAt. rewrite filter_cons.
  destruct (decide (tech_GridX t = x)); simpl length; lia.
Qed.

Lemma techsUpTo_step l x : 0 <= x → techsUpTo l x = techsUpTo l (x - 1) + techsAt l x.
Proof.
  intros Hx. induction l as [|t l IH]; [reflexivity|].
  rewrite !techsUpTo_cons, techsAt_cons, IH.
  repeat case_decide; lia.
Qed.

Lemma techsUpTo_negative l x : x < 0 → techsUpTo l x = 0.
Proof.
  intros Hx. induction l as [|t l IH]; [reflexivity|].
  rewrite techsUpTo_cons, IH. case_decide; lia.
Qed.

Lemma techsUpTo_mono l x y : x <= y → techsUpTo l x <= techsUpTo l y.
Proof.
  intros Hxy. induction l as [|t l IH]; [reflexivity|].
  rewrite !techsUpTo_cons. repeat case_decide; lia.
Qed.

Lemma techsUpTo_bounds l x : 0 <= techsUpTo l x <= Z.of_nat (length l).
Proof.
  induction l as [|t l IH]; [unfold techsUpTo; simpl; lia|].
  rewrite techsUpTo_cons. simpl length. case_decide; lia.
Qed.

Lemma techsUpTo_all l x :
  Forall (λ t, 0 <= tech_GridX t <= x) l → techsUpTo l x = Z.of_nat (length l).
Proof.
  induction 1 as [|t l Ht _ IH]; [reflexivity|].
  rewrite techsUpTo_cons, IH. simpl length. case_decide; [lia | contradiction].
Qed.

Lemma firstPass_counts l x :
  default 0 (fp_techCountAtGridX (firstPass l) !! x) = techsAt l x.
Proof.
  induction l as [|t l IH] using rev_ind; [reflexivity|].
  rewrite firstPass_snoc, techsAt_snoc. cbn [firstPassStep fp_techCountAtGridX].
  destruct (decide (tech_GridX t = x)) as [->|Hne].
  - rewrite lookup_insert_eq. simpl. rewrite IH. reflexivity.
  - rewrite lookup_insert_ne by exact Hne. rewrite IH. lia.
Qed.

Lemma firstPass_names l x :
  default [] (fp_gridXToTechNames (firstPass l) !! x)
  = tech_Name <$> filter (λ t, tech_GridX t = x) l.
Proof.
  induction l as [|t l IH] using rev_ind; [reflexivity|].
  rewrite firstPass_snoc, filter_app, fmap_app, filter_cons, filter_nil.
  cbn [firstPassStep fp_gridXToTechNames].
  destruct (decide (tech_GridX t = x)) as [->|Hne].
  - rewrite lookup_insert_eq. simpl. rewrite IH. reflexivity.
  - rewrite lookup_insert_ne by exact Hne. rewrite IH, app_nil_r. reflexivity.
Qed.

Lemma firstPass_max l :
  0 <= fp_maxGridX (firstPass l)
  ∧ (∀ t, t ∈ l → tech_GridX t <= fp_maxGridX (firstPass l))
  ∧ (fp_maxGridX (firstPass l) = 0
     ∨ ∃ t, t ∈ l ∧ tech_GridX t = fp_maxGridX (firstPass l)).
Proof.
  induction l as [|t l (H0 & Hub & Hatt)] using rev_ind.
  - simpl. split; [lia|]. split; [|left; reflexivity].
    intros t Ht. apply elem_of_nil in Ht. contradiction.
  - rewrite firstPass_snoc. cbn [firstPassStep fp_maxGridX].
    split; [lia|]. split.
    + intros u Hu. apply elem_of_app in Hu as [Hu|Hu].
      * specialize (Hub u Hu). lia.
      * apply list_elem_of_singleton in Hu as ->. lia.
    + destruct (Z.max_spec (fp_maxGridX (firstPass l)) (tech_GridX t)) as [[_ ->]|[_ ->]].
      * right. exists t. split; [|reflexivity].
        apply elem_of_app. right. apply list_elem_of_singleton. reflexivity.
      * destruct Hatt as [E|(u & Hu & E)]; [left; exact E|].
        right. exists u. split; [apply elem_of_app; left; exact Hu | exact E].
Qed.

Lemma firstPass_maxGridX l :
  fp_maxGridX (firstPass l) = fold_left Z.max (tech_GridX <$> l) 0.
Proof.
  induction l as [|t l IH] using rev_ind; [reflexivity|].
  rewrite firstPass_snoc, fmap_app, fold_left_app. cbn [firstPassStep fp_maxGridX].
  rewrite IH. reflexivity.
Qed.

Lemma firstPass_types l ty :
  fp_techToGridX (firstPass l) !! ty
  = tech_GridX <$> last (filter (λ t, tech_Type t = ty) l).
Proof.
  induction l as [|t l IH] using rev_ind; [reflexivity|].
  rewrite firstPass_snoc, filter_app, filter_cons, filter_nil.
  cbn [firstPassStep fp_techToGridX].
  destruct (decide (tech_Type t = ty)) as [->|Hne].
  - rewrite lookup_insert_eq, last_snoc. reflexivity.
  - rewrite lookup_insert_ne by exact Hne. rewrite app_nil_r. exact IH.
Qed.

Lemma secondPass_lookup (counts : gmap Z Z) (F : Z → Z) (n : nat) :
  ∀ x cumulative acc y,
    cumulative = F (x - 1) →
    (∀ i, x <= i → F i = F (i - 1) + default 0 (counts !! i)) →
    secondPass counts n x cumulative acc !! y
    = if decide (x <= y < x + Z.of_nat n) then Some (F y) else acc !! y.
Proof.
  induction n as [|n IH]; intros x cumulative acc y Hcum HF.
  - simpl. case_decide; [lia | reflexivity].
  - cbn [secondPass]. cbv zeta.
    rewrite (IH (x + 1) _ _ y).
    + destruct (decide (x = y)) as [->|Hne].
      * rewrite lookup_insert_eq. repeat case_decide; try lia.
        rewrite Hcum, (HF y) by lia. reflexivity.
      * rewrite lookup_insert_ne by exact Hne. repeat case_decide; try lia; reflexivity.
    + replace (x + 1 - 1) with x by lia. rewrite Hcum, (HF x) by lia. reflexivity.
    + intros i Hi. apply HF. lia.
Qed.

Lemma cumulative_lookup technologies x :
  gridXToCumulativeTechs (computeTechProgressData technologies) !! x
  = if decide (0 <= x <= maxGridX (computeTechProgressData technologies))
    then Some (techsUpTo technologies x) else None.
Proof.
  cbn [computeTechProgressData gridXToCumulativeTechs maxGridX].
  destruct (firstPass_max technologies) as (H0 & _).
  rewrite (secondPass_lookup _ (techsUpTo technologies)).
  - rewrite Z2Nat.id by lia. rewrite lookup_empty.
    repeat case_decide; try lia; reflexivity.
  - symmetry. apply techsUpTo_negative. lia.
  - intros i Hi. rewrite firstPass_counts. apply techsUpTo_step. exact Hi.
Qed.

Lemma estimated_techs_count technologies x :
  getEstimatedTechsAtGridX (computeTechProgressData technologies) x
  = techsUpTo technologies
      (Z.max 0 (Z.min x (maxGridX (computeTechProgressData technologies)))).
Proof.
  unfold getEstimatedTechsAtGridX. cbv zeta. rewrite cumulative_lookup.
  destruct (firstPass_max technologies) as (H0 & _).
  change (fp_maxGridX (firstPass technologies))
    with (maxGridX (computeTechProgressData technologies)) in H0.
  case_decide; [reflexivity | lia].
Qed.

End TechIndex.

(** X14.  The table built by [buildTechProgressData] on an empty cache is
    dense and exact: it is defined exactly on the columns [0 .. maxGridX],
    and the entry of column [x] is the number of technologies of the
    catalog placed in columns [0 .. x]. *)
Theorem cumulative_table_exact (technologies : list Technology) (x : Z) :
  let data := (buildTechProgressData technologies None).1 in
  gridXToCumulativeTechs data !! x
  = if decide (0 <= x <= maxGridX data)
    then Some (techsUpTo technologies x) else None.
Proof. apply cumulative_lookup. Qed.

(** X15.  [maxGridX] is the largest column of the catalog: it is not
    negative, no technology lies beyond it, and it is 0 or the column of
    some technology. *)
Theorem maxGridX_is_largest (technologies : list Technology) :
  let data := computeTechProgressData technologies in
  0 <= maxGridX data
  ∧ (∀ t, t ∈ technologies → tech_GridX t <= maxGridX data)
  ∧ (maxGridX data = 0 ∨ ∃ t, t ∈ technologies ∧ tech_GridX t = maxGridX data).
Proof. apply firstPass_max. Qed.

Lemma maxGridX_is_largest_witness :
  tech_GridX {| tech_Type := "TECH_MINING"; tech_Name := "Mining"; tech_GridX := 1 |}
  <= maxGridX (computeTechProgressData sampleCatalog).
Proof.
  destruct (maxGridX_is_largest sampleCatalog) as (_ & Hub & _).
  apply Hub. unfold sampleCatalog.
  apply elem_of_cons. right. apply elem_of_cons. right.
  apply elem_of_cons. left. reflexivity.
Defined.

(** X16.  When no technology has a negative column, the cumulative count
    at [maxGridX] is [totalTechs]. *)
Theorem cumulative_total (technologies : list Technology) :
  let data := computeTechProgressData technologies in
  Forall (λ t, 0 <= tech_GridX t) technologies →
  gridXToCumulativeTechs data !! maxGridX data = Some (totalTechs data).
Proof.
  intros data Hnonneg. unfold data. rewrite cumulative_lookup. fold data.
  destruct (firstPass_max technologies) as (H0 & Hub & _).
  change (fp_maxGridX (firstPass technologies)) with (maxGridX data) in *.
  case_decide; [|lia]. f_equal.
  apply techsUpTo_all. rewrite Forall_forall in *. intros t Ht.
  split; [apply Hnonneg; exact Ht | apply Hub; exact Ht].
Qed.

Lemma cumulative_total_witness :
  gridXToCumulativeTechs (computeTechProgressData sampleCatalog)
    !! maxGridX (computeTechProgressData sampleCatalog)
  = Some (totalTechs (computeTechProgressData sampleCatalog)).
Proof.
  apply (cumulative_total sampleCatalog).
  unfold sampleCatalog. repeat constructor; simpl; lia.
Defined.

(** A technology in a negative column is counted in [totalTechs] but in no
    cumulative count. *)
Example cumulative_total_negative_column :
  let data := computeTechProgressData
    [ {| tech_Type := "TECH_A"; tech_Name := "A"; tech_GridX := -1 |} ] in
  gridXToCumulativeTechs data !! maxGridX data = Some 0 ∧ totalTechs data = 1.
Proof. vm_compute. split; reflexivity. Qed.

Lemma estimated_techs_mono (technologies : list Technology) (g1 g2 : Z) :
  g1 <= g2 →
  getEstimatedTechsAtGridX (computeTechProgressData technologies) g1
  <= getEstimatedTechsAtGridX (computeTechProgressData technologies) g2.
Proof.
  intros Hg. rewrite !estimated_techs_count. apply techsUpTo_mono. lia.
Qed.

(** X17.  The estimated tech count is monotonic non-decreasing in the
    column, lies between 0 and [totalTechs], and is constant beyond the
    ends of the table (the column is clamped into [0 .. maxGridX]). *)
Theorem estimated_techs_monotone_bounded (technologies : list Technology) (g1 g2 : Z) :
  let data := computeTechProgressData technologies in
  (g1 <= g2 → getEstimatedTechsAtGridX data g1 <= getEstimatedTechsAtGridX data g2)
  ∧ 0 <= getEstimatedTechsAtGridX data g1 <= totalTechs data
  ∧ (maxGridX data <= g1 →
     getEstimatedTechsAtGridX data g1 = getEstimatedTechsAtGridX data (maxGridX data))
  ∧ (g1 <= 0 → getEstimatedTechsAtGridX data g1 = getEstimatedTechsAtGridX data 0).
Proof.
  intros data. split; [apply estimated_techs_mono|].
  split; [unfold data; rewrite estimated_techs_count; apply techsUpTo_bounds|].
  split; intros Hg; unfold data in *; rewrite !estimated_techs_count;
    apply (f_equal (techsUpTo technologies)); lia.
Qed.

Lemma estimated_techs_monotone_bounded_witness :
  getEstimatedTechsAtGridX (computeTechProgressData sampleCatalog) 1
  <= getEstimatedTechsAtGridX (computeTechProgressData sampleCatalog) 2.
Proof.
  apply (estimated_techs_monotone_bounded sampleCatalog 1 2). lia.
Defined.

(** X18.  For a non-empty catalog the estimated tech progress is a
    number, a percentage between 0 and 100; when no technology has a
    negative column it is 100 from [maxGridX] on. *)
Theorem estimated_progress_percent (technologies : list Technology) (g : Z) :
  let data := computeTechProgressData technologies in
  technologies ≠ [] →
  ∃ percent,
    getEstimatedTechProgressAtGridX data g = Some percent
    ∧ percent = getEstimatedTechsAtGridX data g * 100 / totalTechs data
    ∧ 0 <= percent <= 100
    ∧ (Forall (λ t, 0 <= tech_GridX t) technologies → maxGridX data <= g →
       percent = 100).
Proof.
  intros data Hne. unfold getEstimatedTechProgressAtGridX. cbv zeta.
  assert (Htot : 0 < totalTechs data).
  { unfold data. cbn [computeTechProgressData totalTechs].
    destruct technologies; [congruence | simpl; lia]. }
  assert (Hb : 0 <= getEstimatedTechsAtGridX data g <= totalTechs data).
  { unfold data. rewrite estimated_techs_count. apply techsUpTo_bounds. }
  destruct (Z.eqb_spec (totalTechs data) 0) as [E0|_]; [lia|].
  eexists. split; [reflexivity|]. split; [reflexivity|]. split.
  - split; [apply Z.div_pos; lia|]. apply Z.div_le_upper_bound; lia.
  - intros Hnonneg Hg.
    assert (E : getEstimatedTechsAtGridX data g = totalTechs data).
    { unfold data. rewrite estimated_techs_count. fold data.
      destruct (firstPass_max technologies) as (H0 & Hub & _).
      change (fp_maxGridX (firstPass technologies)) with (maxGridX data) in *.
      apply techsUpTo_all. rewrite Forall_forall in *. intros t Ht.
      specialize (Hnonneg t Ht). specialize (Hub t Ht). lia. }
    rewrite E, Z.mul_comm. apply Z.div_mul. lia.
Qed.

Lemma estimated_progress_percent_witness :
  ∃ percent,
    getEstimatedTechProgressAtGridX (computeTechProgressData sampleCatalog) 3
      = Some percent
    ∧ percent = getEstimatedTechsAtGridX (computeTechProgressData sampleCatalog) 3 * 100
                / totalTechs (computeTechProgressData sampleCatalog)
    ∧ 0 <= percent <= 100
    ∧ percent = 100.
Proof.
  destruct (estimated_progress_percent sampleCatalog 3) as (pct & E & Ed & Hb & H100);
    [discriminate|].
  exists pct. split; [exact E|]. split; [exact Ed|]. split; [exact Hb|].
  apply H100; [|vm_compute; discriminate].
  unfold sampleCatalog. repeat constructor; simpl; lia.
Defined.

(** For an empty catalog the quotient is 0/0: the progress is [NaN]. *)
Example estimated_progress_empty_catalog (g : Z) :
  getEstimatedTechProgressAtGridX (computeTechProgressData []) g = None.
Proof. reflexivity. Qed.


Lemma filter_none {A} (P : A → Prop) `{∀ a, Decision (P a)} (l : list A) :
  (∀ a, a ∈ l → ¬ P a) → filter P l = [].
Proof.
  induction l as [|a l IH]; intros Hnone; [reflexivity|].
  rewrite filter_cons. destruct (decide (P a)) as [Hp|_].
  - exfalso. apply (Hnone a); [apply elem_of_cons; left; reflexivity | exact Hp].
  - apply IH. intros b Hb. apply Hnone. apply elem_of_cons. right. exact Hb.
Qed.

(** X19.  [getGridXForTech] returns the column of the last technology of
    the catalog that carries the requested type, and 0 for a type that is
    not in the catalog; [getGridXFromPrereqTech] does the same for a
    reference with a non-empty type, and returns 0 for a missing reference
    or an empty type. *)
Theorem gridX_lookup_by_type (before after : list Technology) (t : Technology)
    (unknown refName : string) :
  let data := computeTechProgressData (before ++ t :: after) in
  (∀ u, u ∈ after → tech_Type u ≠ tech_Type t) →
  (∀ u, u ∈ before ++ t :: after → tech_Type u ≠ unknown) →
  getGridXForTech data (tech_Type t) = tech_GridX t
  ∧ getGridXForTech data unknown = 0
  ∧ (tech_Type t ≠ "" →
     getGridXFromPrereqTech data (Some {| ref_Type := tech_Type t; ref_Name := refName |})
     = tech_GridX t)
  ∧ getGridXFromPrereqTech data None = 0
  ∧ getGridXFromPrereqTech data (Some {| ref_Type := ""; ref_Name := refName |}) = 0.
Proof.
  intros data Hlast Hunknown.
  assert (Ht : getGridXForTech data (tech_Type t) = tech_GridX t).
  { unfold getGridXForTech, data. cbn [computeTechProgressData techToGridX].
    rewrite firstPass_types, filter_app, filter_cons.
    destruct (decide (tech_Type t = tech_Type t)) as [_|Hne]; [|congruence].
    rewrite (filter_none _ after) by exact Hlast.
    rewrite last_snoc. reflexivity. }
  split; [exact Ht|]. split.
  - unfold getGridXForTech, data. cbn [computeTechProgressData techToGridX].
    rewrite firstPass_types, filter_none by exact Hunknown. reflexivity.
  - split; [|split; reflexivity].
    intros Hne. cbn [getGridXFromPrereqTech ref_Type].
    destruct (String.eqb_spec (tech_Type t) ""); [contradiction | exact Ht].
Qed.

Lemma gridX_lookup_by_type_witness :
  getGridXForTech (computeTechProgressData sampleCatalog) "TECH_POTTERY" = 1
  ∧ getGridXForTech (computeTechProgressData sampleCatalog) "TECH_WRITING" = 0.
Proof.
  pose proof (gridX_lookup_by_type
    [ {| tech_Type := "TECH_AGRICULTURE"; tech_Name := "Agriculture"; tech_GridX := 0 |} ]
    [ {| tech_Type := "TECH_MINING"; tech_Name := "Mining"; tech_GridX := 1 |};
      {| tech_Type := "TECH_IRON_WORKING"; tech_Name := "Iron Working"; tech_GridX := 3 |} ]
    {| tech_Type := "TECH_POTTERY"; tech_Name := "Pottery"; tech_GridX := 1 |}
    "TECH_WRITING" "") as H.
  cbv zeta in H. destruct H as (H1 & H2 & _).
  - intros u Hu. repeat (apply elem_of_cons in Hu as [->|Hu]; [discriminate|]).
    apply elem_of_nil in Hu. contradiction.
  - intros u Hu. cbn [app] in Hu.
    repeat (apply elem_of_cons in Hu as [->|Hu]; [discriminate|]).
    apply elem_of_nil in Hu. contradiction.
  - split; [exact H1 | exact H2].
Defined.

(** X20.  The names recorded for a column are the names of the
    technologies of that column, in catalog order (none recorded when the
    column is empty). *)
Theorem tech_names_by_column (technologies : list Technology) (x : Z) :
  default [] (gridXToTechNames (computeTechProgressData technologies) !! x)
  = tech_Name <$> filter (λ t, tech_GridX t = x) technologies.
Proof. apply firstPass_names. Qed.


(* ===================================================================== *)
(** * The memoized tech progress index                                    *)
(* ===================================================================== *)

Example sampleCatalog_index :
  let data := computeTechProgressData sampleCatalog in
  maxGridX data = 3 ∧ totalTechs data = 4
  ∧ map (getEstimatedTechsAtGridX data) [0; 1; 2; 3; 7] = [1; 3; 3; 4; 4]
  ∧ getEstimatedTechProgressAtGridX data 2 = Some 75.
Proof. vm_compute. repeat split; reflexivity. Qed.

Lemma build_cached (technologies : list Technology) (cached : TechProgressData) :
  buildTechProgressData technologies (Some cached) = (cached, Some cached).
Proof. reflexivity. Qed.

Lemma buildRepeatedly_cached (calls : list (list Technology)) (cached : TechProgressData) :
  buildRepeatedly calls (Some cached)
  = (replicate (length calls) cached, Some cached).
Proof.
  induction calls as [|technologies rest IH]; [reflexivity|].
  cbn [buildRepeatedly]. rewrite build_cached, IH. reflexivity.
Qed.

Lemma build_fills_cache (technologies : list Technology) (cache : TechCache) :
  (buildTechProgressData technologies cache).2
  = Some (buildTechProgressData technologies cache).1.
Proof. destruct cache; reflexivity. Qed.

(** With a filled cache a different catalog still yields the first build. *)
Example cached_build_other_catalog :
  let (first, cache) := buildTechProgressData sampleCatalog None in
  (buildTechProgressData otherCatalog cache).1 = first
  ∧ computeTechProgressData otherCatalog ≠ first.
Proof.
  cbn [buildTechProgressData]. split; [reflexivity|].
  intros E. apply (f_equal totalTechs) in E. vm_compute in E. discriminate.
Qed.

(** C10.  After one call of [buildTechProgressData], from whatever cache
    state, every later call returns that call's result and leaves the cache
    as it is, whatever catalog it is given; after [clearTechProgressCache]
    the next call rebuilds from its own argument [fresh] and caches the
    result: the total is the length of [fresh], the largest column is the
    largest column of [fresh] (or 0), the cumulative table holds for each
    column [0 .. maxGridX] the number of technologies of [fresh] up to that
    column, each type maps to the column of its last technology in [fresh],
    and each column lists the names of its technologies in [fresh]. *)
Theorem build_memoized_until_cleared (cache0 : TechCache)
    (technologies : list Technology) (later : list (list Technology))
    (fresh : list Technology) :
  let (first, cache1) := buildTechProgressData technologies cache0 in
  let (results, cache2) := buildRepeatedly later cache1 in
  let (_, cache3) := clearTechProgressCache cache2 in
  let (rebuilt, cache4) := buildTechProgressData fresh cache3 in
  results = replicate (length later) first
  ∧ cache2 = cache1
  ∧ cache1 = Some first
  ∧ cache4 = Some rebuilt
  ∧ totalTechs rebuilt = Z.of_nat (length fresh)
  ∧ maxGridX rebuilt = fold_left Z.max (tech_GridX <$> fresh) 0
  ∧ (∀ x, gridXToCumulativeTechs rebuilt !! x
          = if decide (0 <= x <= maxGridX rebuilt)
            then Some (techsUpTo fresh x) else None)
  ∧ (∀ ty, techToGridX rebuilt !! ty
           = tech_GridX <$> last (filter (λ t, tech_Type t = ty) fresh))
  ∧ (∀ x, default [] (gridXToTechNames rebuilt !! x)
          = tech_Name <$> filter (λ t, tech_GridX t = x) fresh).
Proof.
  pose proof (build_fills_cache technologies cache0) as Hfill.
  destruct (buildTechProgressData technologies cache0) as [first cache1] eqn:Hb.
  simpl in Hfill. subst cache1.
  rewrite buildRepeatedly_cached. cbn [clearTechProgressCache buildTechProgressData].
  split; [reflexivity|]. split; [reflexivity|]. split; [reflexivity|].
  split; [reflexivity|]. split; [reflexivity|].
  split; [apply firstPass_maxGridX|].
  split; [intros x; apply cumulative_lookup|].
  split; [intros ty; apply firstPass_types | intros x; apply firstPass_names].
Qed.

(** The rebuild after a clear reads its own argument: after a first build
    from [sampleCatalog] and a clear, building from [otherCatalog] yields
    one technology in column 2. *)
Example rebuild_after_clear :
  let (_, cache1) := buildTechProgressData sampleCatalog None in
  let (_, cache2) := clearTechProgressCache cache1 in
  let (rebuilt, _) := buildTechProgressData otherCatalog cache2 in
  totalTechs rebuilt = 1 ∧ maxGridX rebuilt = 2
  ∧ techToGridX rebuilt !! "TECH_FUTURE_TECH" = Some 2
  ∧ getEstimatedTechsAtGridX rebuilt 1 = 0
  ∧ getEstimatedTechsAtGridX rebuilt 2 = 1.
Proof. vm_compute. repeat split; reflexivity. Qed.

(* ===================================================================== *)
(** * Further properties: nearest table entry                             *)
(* ===================================================================== *)

Section NearestEntry.

Local Open Scope Q_scope.

Variable c : Q.

(** State of the scan after the entries [seen]. *)
Lemma closest_fold (g0 : Z) (seen : list (Z * Z)) :
  match (fold_left (closestStep c) seen (g0, None)).2 with
  | None => seen = []
  | Some d =>
      ∃ i entry,
        seen !! i = Some entry
        ∧ (fold_left (closestStep c) seen (g0, None)).1 = entry.1
        ∧ d = tableDistance c entry
        ∧ (∀ other, other ∈ seen → tableDistance c entry <= tableDistance c other)
        ∧ (∀ j other, (j < i)%nat → seen !! j = Some other →
             tableDistance c entry < tableDistance c other)
  end.
Proof.
  induction seen as [|e seen IH] using rev_ind; [reflexivity|].
  rewrite fold_left_app. cbn [fold_left].
  destruct (fold_left (closestStep c) seen (g0, None)) as [g od]. cbn [snd fst] in IH.
  unfold closestStep. cbn [snd fst]. fold (tableDistance c e).
  destruct od as [d|].
  - destruct IH as (i & entry & Hi & Hg & Hd & Hmin & Hfirst).
    destruct (Qlt_bool (tableDistance c e) d) eqn:Hlt; cbn [snd fst].
    + apply Qlt_bool_iff in Hlt.
      exists (length seen), e. split; [apply list_lookup_middle; reflexivity|].
      split; [reflexivity|]. split; [reflexivity|]. split.
      * intros other Ho. apply elem_of_app in Ho as [Ho|Ho].
        -- specialize (Hmin other Ho). rewrite Hd in Hlt. lra.
        -- apply list_elem_of_singleton in Ho as ->. apply Qle_refl.
      * intros j other Hj Ho. rewrite lookup_app_l in Ho by exact Hj.
        specialize (Hmin other (list_elem_of_lookup_2 _ _ _ Ho)).
        rewrite Hd in Hlt. lra.
    + assert (Hge : d <= tableDistance c e).
      { destruct (Qlt_le_dec (tableDistance c e) d) as [Hc|Hc]; [|exact Hc].
        apply Qlt_bool_iff in Hc. congruence. }
      exists i, entry. split; [apply lookup_app_l_Some; exact Hi|].
      split; [exact Hg|]. split; [exact Hd|]. split.
      * intros other Ho. apply elem_of_app in Ho as [Ho|Ho].
        -- exact (Hmin other Ho).
        -- apply list_elem_of_singleton in Ho as ->. rewrite <- Hd. exact Hge.
      * intros j other Hj Ho. apply (Hfirst j other Hj).
        pose proof (lookup_lt_Some _ _ _ Hi).
        rewrite lookup_app_l in Ho by lia. exact Ho.
  - subst seen. cbn [snd fst].
    exists 0%nat, e. split; [reflexivity|]. split; [reflexivity|].
    split; [reflexivity|]. split.
    + intros other Ho. apply list_elem_of_singleton in Ho as ->. apply Qle_refl.
    + intros j other Hj. lia.
Qed.

Lemma closest_fold_nearest (g0 : Z) (table : list (Z * Z)) :
  table ≠ [] →
  nearestFirst table c (fold_left (closestStep c) table (g0, None)).1.
Proof.
  intros Hne. pose proof (closest_fold g0 table) as H.
  destruct (fold_left (closestStep c) table (g0, None)).2 as [d|]; [|contradiction].
  destruct H as (i & entry & Hi & Hg & _ & Hmin & Hfirst).
  exists i, entry. auto.
Qed.

End NearestEntry.

(** X21.  For every production cost, [estimateGridXFromBuildingCost] and
    [estimateGridXFromWonderCost] return the column of a table entry at the
    least distance from the cost, and of the first such entry when several
    are equally near. *)
Theorem estimate_gridX_nearest_first (productionCost : Q) :
  nearestFirst BUILDING_COST_BY_GRIDX productionCost
    (estimateGridXFromBuildingCost productionCost)
  ∧ nearestFirst WONDER_COST_BY_GRIDX productionCost
    (estimateGridXFromWonderCost productionCost).
Proof.
  split; apply closest_fold_nearest; discriminate.
Qed.

Example estimate_gridX_examples :
  map estimateGridXFromBuildingCost [0%Q; 65%Q; 130%Q; 2250%Q; 9999%Q] = [0; 0; 2; 13; 16]
  ∧ map estimateGridXFromWonderCost [0%Q; 950%Q; 9999%Q] = [1; 8; 17].
Proof. vm_compute. split; reflexivity. Qed.

(* ===================================================================== *)
(** * Further properties: building and reading a correlation              *)
(* ===================================================================== *)

Section CorrelationMore.

Local Open Scope Q_scope.

Implicit Types (p q : ProductionGridXDataPoint)
  (points : list ProductionGridXDataPoint) (c k : Q).

Lemma insertByCost_sorted p points :
  sortedByCost points → sortedByCost (insertByCost p points).
Proof.
  unfold sortedByCost. induction 1 as [|q rest Hs IH Hq]; simpl.
  - repeat constructor.
  - destruct (Qle_bool (productionCost p) (productionCost q)) eqn:Hle.
    + apply Qle_bool_iff in Hle. constructor; [constructor; assumption|].
      constructor; [exact Hle|]. rewrite Forall_forall in *. intros r Hr.
      specialize (Hq r Hr). lra.
    + assert (Hlt : productionCost q < productionCost p).
      { apply Qnot_le_lt. intros H. apply Qle_bool_iff in H. congruence. }
      constructor; [exact IH|]. rewrite Forall_forall in *. intros r Hr.
      apply elem_of_insertByCost in Hr as [->|Hr]; [lra | exact (Hq r Hr)].
Qed.

Lemma insertByCost_perm p points : insertByCost p points ≡ₚ p :: points.
Proof.
  induction points as [|q rest IH]; simpl; [reflexivity|].
  destruct (Qle_bool (productionCost p) (productionCost q)); [reflexivity|].
  rewrite IH. apply Permutation_swap.
Qed.

Lemma insertByCost_class k p points :
  costClass k (insertByCost p points) = costClass k (p :: points).
Proof.
  unfold costClass. induction points as [|q rest IH]; [reflexivity|].
  cbn [insertByCost].
  destruct (Qle_bool (productionCost p) (productionCost q)) eqn:Hle; [reflexivity|].
  assert (Hlt : productionCost q < productionCost p).
  { apply Qnot_le_lt. intros H. apply Qle_bool_iff in H. congruence. }
  cbn [List.filter] in *. rewrite IH.
  destruct (Qeq_bool (productionCost p) k) eqn:Hp;
    destruct (Qeq_bool (productionCost q) k) eqn:Hq; try reflexivity.
  apply Qeq_bool_iff in Hp, Hq. lra.
Qed.

Lemma getGridX_build_mono points (entityType : EntityType) c1 c2 :
  points ≠ [] → gridXNonDecreasing points → c1 <= c2 →
  getGridXFromProductionCorrelation
    (buildProductionGridXCorrelation points entityType) c1
  <= getGridXFromProductionCorrelation
    (buildProductionGridXCorrelation points entityType) c2.
Proof.
  intros Hne Hnd Hc.
  set (correlation := buildProductionGridXCorrelation points entityType).
  assert (Hne' : dataPoints correlation ≠ []).
  { simpl. destruct points as [|p rest]; [congruence|]. intros E.
    assert (Hp : p ∈ sortByCost (p :: rest))
      by (apply elem_of_sortByCost, elem_of_cons; left; reflexivity).
    rewrite E in Hp. apply elem_of_nil in Hp. exact Hp. }
  assert (Hnd' : gridXNonDecreasing (dataPoints correlation)).
  { intros a b Ha Hb. apply Hnd; apply elem_of_sortByCost; assumption. }
  rewrite !getGridX_selectGridX by exact Hne'.
  destruct (scanDataPoints_spec c1 (dataPoints correlation)) as [Hl1 Hu1].
  destruct (scanDataPoints_spec c2 (dataPoints correlation)) as [Hl2 Hu2].
  exact (selectGridX_mono _ _ _ _ _ _ _ Hne' Hnd' Hc Hl1 Hu1 Hl2 Hu2).
Qed.

Lemma interpolate_within c p q :
  productionCost p <= c → c <= productionCost q →
  productionCost p < productionCost q →
  (gridX p <= interpolate c p q ∧ interpolate c p q <= gridX q)
  ∨ (gridX q <= interpolate c p q ∧ interpolate c p q <= gridX p).
Proof.
  intros Hl Hu Hlt. unfold interpolate.
  set (d := productionCost q - productionCost p).
  assert (Hd : 0 < d) by (unfold d; lra).
  set (t := (c - productionCost p) / d).
  assert (Ht0 : 0 <= t) by (apply Qle_shift_div_l; [exact Hd | lra]).
  assert (Ht1 : t <= 1) by (apply Qle_shift_div_r; [exact Hd | unfold d; lra]).
  destruct (Qlt_le_dec (gridX q) (gridX p)) as [Hg|Hg].
  - right. split; nra.
  - left. split; nra.
Qed.

End CorrelationMore.

(** X22.  [buildProductionGridXCorrelation] keeps the entity type and
    stores the samples sorted by ascending production cost: the stored list
    is a permutation of the given one, and samples of equal cost keep their
    relative order (the sort is stable). *)
Theorem correlation_sorted_stable (points : list ProductionGridXDataPoint)
    (entityType : EntityType) (k : Q) :
  let correlation := buildProductionGridXCorrelation points entityType in
  sortedByCost (dataPoints correlation)
  ∧ dataPoints correlation ≡ₚ points
  ∧ costClass k (dataPoints correlation) = costClass k points.
Proof.
  cbn [buildProductionGridXCorrelation dataPoints].
  induction points as [|p rest (Hs & Hp & Hc)].
  - split; [constructor|]. split; reflexivity.
  - cbn [sortByCost fold_right]. fold (sortByCost rest).
    split; [apply insertByCost_sorted; exact Hs|]. split.
    + rewrite insertByCost_perm, Hp. reflexivity.
    + rewrite insertByCost_class. unfold costClass in *. cbn [List.filter].
      rewrite Hc. reflexivity.
Qed.

(** X23.  No extrapolation: for a non-empty sample list the column read
    from the correlation lies between the columns of two samples, whatever
    the queried cost. *)
Theorem correlation_no_extrapolation (points : list ProductionGridXDataPoint)
    (entityType : EntityType) (c : Q) :
  points ≠ [] →
  ∃ a b, a ∈ points ∧ b ∈ points
    ∧ (gridX a
       <= getGridXFromProductionCorrelation
            (buildProductionGridXCorrelation points entityType) c)%Q
    ∧ (getGridXFromProductionCorrelation
         (buildProductionGridXCorrelation points entityType) c
       <= gridX b)%Q.
Proof.
  intros Hne.
  set (correlation := buildProductionGridXCorrelation points entityType).
  assert (Hne' : dataPoints correlation ≠ []).
  { simpl. destruct points as [|p rest]; [congruence|]. intros E.
    assert (Hp : p ∈ sortByCost (p :: rest))
      by (apply elem_of_sortByCost, elem_of_cons; left; reflexivity).
    rewrite E in Hp. apply elem_of_nil in Hp. exact Hp. }
  assert (Hin : ∀ r, firstOfCost (dataPoints correlation) r → r.2 ∈ points).
  { intros r Hr. apply elem_of_sortByCost. exact (firstOfCost_elem _ _ Hr). }
  rewrite getGridX_selectGridX by exact Hne'.
  destruct (scanDataPoints_spec c (dataPoints correlation)) as [Hlo Hup].
  destruct (scanDataPoints c 0 (dataPoints correlation) None None) as [lo up].
  cbn [fst snd] in *.
  destruct lo as [lr|], up as [ur|].
  - cbn [selectGridX].
    destruct (Nat.eqb_spec lr.1 ur.1) as [Hi|Hi]; cbn [negb].
    + exists lr.2, lr.2. destruct Hlo as (Hfl & _).
      repeat split; try apply Hin; try assumption; apply Qle_refl.
    + pose proof (other_index_cost_lt _ _ _ _ Hlo Hup Hi) as Hlt.
      destruct Hlo as (Hfl & Hlc & _), Hup as (Hfu & Huc & _).
      destruct (interpolate_within c lr.2 ur.2 Hlc Huc Hlt) as [[H1 H2]|[H1 H2]].
      * exists lr.2, ur.2. repeat split; try apply Hin; assumption.
      * exists ur.2, lr.2. repeat split; try apply Hin; assumption.
  - exists lr.2, lr.2. destruct Hlo as (Hfl & _). cbn [selectGridX].
    repeat split; try apply Hin; try assumption; apply Qle_refl.
  - exists ur.2, ur.2. destruct Hup as (Hfu & _). cbn [selectGridX].
    repeat split; try apply Hin; try assumption; apply Qle_refl.
  - exfalso. exact (bounds_nonempty _ _ Hne' Hlo Hup).
Qed.

Lemma correlation_no_extrapolation_witness :
  ∃ a b, a ∈ exampleSamples ∧ b ∈ exampleSamples
    ∧ (gridX a
       <= getGridXFromProductionCorrelation
            (buildProductionGridXCorrelation exampleSamples EntityBuilding) 9000)%Q
    ∧ (getGridXFromProductionCorrelation
         (buildProductionGridXCorrelation exampleSamples EntityBuilding) 9000
       <= gridX b)%Q.
Proof.
  apply (correlation_no_extrapolation exampleSamples EntityBuilding 9000). discriminate.
Defined.

(** X24.  One-sided queries are answered by the nearest end of the sampled
    range: a cost below every sample yields the column of a cheapest
    sample, a cost above every sample the column of a most expensive
    one. *)
Theorem correlation_one_sided (points : list ProductionGridXDataPoint)
    (entityType : EntityType) (c : Q) :
  points ≠ [] →
  ((∀ q, q ∈ points → (c < productionCost q)%Q) →
   ∃ s, s ∈ points
     ∧ getGridXFromProductionCorrelation
         (buildProductionGridXCorrelation points entityType) c = gridX s
     ∧ ∀ q, q ∈ points → (productionCost s <= productionCost q)%Q)
  ∧ ((∀ q, q ∈ points → (productionCost q < c)%Q) →
   ∃ s, s ∈ points
     ∧ getGridXFromProductionCorrelation
         (buildProductionGridXCorrelation points entityType) c = gridX s
     ∧ ∀ q, q ∈ points → (productionCost q <= productionCost s)%Q).
Proof.
  intros Hne.
  set (correlation := buildProductionGridXCorrelation points entityType).
  assert (Hne' : dataPoints correlation ≠ []).
  { simpl. destruct points as [|p rest]; [congruence|]. intros E.
    assert (Hp : p ∈ sortByCost (p :: rest))
      by (apply elem_of_sortByCost, elem_of_cons; left; reflexivity).
    rewrite E in Hp. apply elem_of_nil in Hp. exact Hp. }
  assert (Hsort : ∀ q, q ∈ dataPoints correlation ↔ q ∈ points)
    by (intros q; apply elem_of_sortByCost).
  rewrite getGridX_selectGridX by exact Hne'.
  destruct (scanDataPoints_spec c (dataPoints correlation)) as [Hlo Hup].
  destruct (scanDataPoints c 0 (dataPoints correlation) None None) as [lo up].
  cbn [fst snd] in *. split; intros Hall.
  - destruct lo as [lr|].
    { exfalso. destruct Hlo as (Hfl & Hlc & _).
      pose proof (Hall lr.2 (proj1 (Hsort _) (firstOfCost_elem _ _ Hfl))). lra. }
    destruct up as [ur|]; [|exfalso; exact (bounds_nonempty _ _ Hne' Hlo Hup)].
    destruct Hup as (Hfu & _ & Hmin). exists ur.2.
    split; [apply Hsort; exact (firstOfCost_elem _ _ Hfu)|]. split; [reflexivity|].
    intros q Hq. apply Hmin; [apply Hsort; exact Hq|].
    specialize (Hall q Hq). lra.
  - destruct up as [ur|].
    { exfalso. destruct Hup as (Hfu & Huc & _).
      pose proof (Hall ur.2 (proj1 (Hsort _) (firstOfCost_elem _ _ Hfu))). lra. }
    destruct lo as [lr|]; [|exfalso; exact (bounds_nonempty _ _ Hne' Hlo Hup)].
    destruct Hlo as (Hfl & _ & Hmax). exists lr.2.
    split; [apply Hsort; exact (firstOfCost_elem _ _ Hfl)|]. split; [reflexivity|].
    intros q Hq. apply Hmax; [apply Hsort; exact Hq|].
    specialize (Hall q Hq). lra.
Qed.

Lemma correlation_one_sided_witness :
  ∃ s, s ∈ exampleSamples
    ∧ getGridXFromProductionCorrelation
        (buildProductionGridXCorrelation exampleSamples EntityBuilding) 100 = gridX s
    ∧ ∀ q, q ∈ exampleSamples → (productionCost s <= productionCost q)%Q.
Proof.
  destruct (correlation_one_sided exampleSamples EntityBuilding 100) as [Hbelow _];
    [discriminate|].
  apply Hbelow. intros q Hq.
  apply elem_of_cons in Hq as [->|Hq]; [|apply list_elem_of_singleton in Hq as ->];
    unfold Qlt; simpl; lia.
Defined.

Lemma roundQ_mono (x y : Q) : (x <= y)%Q → roundQ x <= roundQ y.
Proof.
  intros Hxy. unfold roundQ. apply Qfloor_resp_le.
  apply Qplus_le_l. exact Hxy.
Qed.

(** X25.  For a non-empty sample list whose column does not decrease as
    the production cost increases, and an index built from any catalog,
    the estimated tech count read through the correlation is monotonic
    non-decreasing in the production cost; for a non-empty catalog the
    estimated tech progress is a number at both costs and monotonic
    non-decreasing as well. *)
Theorem correlation_estimates_monotone (technologies : list Technology)
    (points : list ProductionGridXDataPoint) (entityType : EntityType) (c1 c2 : Q) :
  let data := computeTechProgressData technologies in
  let correlation := buildProductionGridXCorrelation points entityType in
  points ≠ [] → gridXNonDecreasing points → (c1 <= c2)%Q →
  getEstimatedTechsFromProductionCorrelation data correlation c1
    <= getEstimatedTechsFromProductionCorrelation data correlation c2
  ∧ (technologies ≠ [] →
     ∃ progress1 progress2,
       getEstimatedTechProgressFromProductionCorrelation data correlation c1
         = Some progress1
       ∧ getEstimatedTechProgressFromProductionCorrelation data correlation c2
         = Some progress2
       ∧ progress1 <= progress2).
Proof.
  intros data correlation Hne Hnd Hc.
  pose proof (roundQ_mono _ _ (getGridX_build_mono points entityType c1 c2 Hne Hnd Hc))
    as Hround.
  pose proof (estimated_techs_mono technologies _ _ Hround) as Hest.
  split; [exact Hest|]. intros Hcat.
  unfold getEstimatedTechProgressFromProductionCorrelation,
    getEstimatedTechProgressAtGridX. cbv zeta.
  fold data correlation in Hest.
  assert (Htot : 0 < totalTechs data).
  { unfold data. cbn [computeTechProgressData totalTechs].
    destruct technologies; [congruence | simpl; lia]. }
  destruct (Z.eqb_spec (totalTechs data) 0) as [E|E]; [lia|].
  eexists _, _. split; [reflexivity|]. split; [reflexivity|].
  apply Z.div_le_mono; [lia|].
  unfold getEstimatedTechsFromProductionCorrelation in Hest. lia.
Qed.

Lemma correlation_estimates_monotone_witness :
  getEstimatedTechsFromProductionCorrelation (computeTechProgressData sampleCatalog)
      (buildProductionGridXCorrelation exampleSamples EntityBuilding) 300
    <= getEstimatedTechsFromProductionCorrelation (computeTechProgressData sampleCatalog)
      (buildProductionGridXCorrelation exampleSamples EntityBuilding) 450
  ∧ ∃ progress1 progress2,
      getEstimatedTechProgressFromProductionCorrelation
        (computeTechProgressData sampleCatalog)
        (buildProductionGridXCorrelation exampleSamples EntityBuilding) 300
      = Some progress1
      ∧ getEstimatedTechProgressFromProductionCorrelation
          (computeTechProgressData sampleCatalog)
          (buildProductionGridXCorrelation exampleSamples EntityBuilding) 450
        = Some progress2
      ∧ progress1 <= progress2.
Proof.
  destruct (correlation_estimates_monotone sampleCatalog exampleSamples EntityBuilding
              300 450) as [Hcount Hprogress].
  - discriminate.
  - exact exampleSamples_nonDecreasing.
  - unfold Qle. simpl. lia.
  - split; [exact Hcount|]. apply Hprogress. discriminate.
Defined.


(* ===================================================================== *)
(** * Further properties: how the functions compose                       *)
(* ===================================================================== *)

(** With the VP-adjustments toggle off and no per-unit or player-wide
    modifier, the unit purchase cost ignores the tech progress and is the
    project purchase cost for the same hurry modifier and constants. *)
Remark unit_cost_without_adjustments (floorPow : FloorPow) (productionCost : Z)
    (ctx : GameContext)
    (hurryModifier : Z) (techProgress : option Z) (constants : GoldPurchaseConstants) :
  getUnitPurchaseCost floorPow productionCost ctx
    {| u_hurryCostModifier := None; u_playerUnitPurchaseMod := None;
       u_hurryModifier := Some hurryModifier; u_techProgress := techProgress;
       u_enableVPAdjustments := Some false; u_constants := Some constants |}
  = getProjectPurchaseCost floorPow productionCost ctx hurryModifier constants.
Proof. reflexivity. Qed.

(** X26.  [getProductionToTechMapping] reports the queried cost, the column
    of the nearest entry of the wonder table for a wonder and of the
    building table for a building or a unit, and count and percentage
    consistent with each other; for a non-empty catalog the percentage is a
    number, the count is at most [totalTechs] and the percentage at most
    100. *)
Theorem production_to_tech_mapping (technologies : list Technology)
    (productionCost : Q) (entityType : MappingEntity) :
  let data := computeTechProgressData technologies in
  let m := getProductionToTechMapping data productionCost entityType in
  technologies ≠ [] →
  production m = productionCost
  ∧ nearestFirst
      (match entityType with
       | MappingWonder => WONDER_COST_BY_GRIDX
       | _ => BUILDING_COST_BY_GRIDX
       end) productionCost (estimatedGridX m)
  ∧ estimatedTechProgress m
    = Some (estimatedTechsResearched m * 100 / totalTechs data)
  ∧ 0 <= estimatedTechsResearched m <= totalTechs data
  ∧ 0 <= estimatedTechsResearched m * 100 / totalTechs data <= 100.
Proof.
  intros data m Hne. split; [reflexivity|]. split.
  { destruct entityType; apply closest_fold_nearest; discriminate. }
  assert (Htot : 0 < totalTechs data).
  { unfold data. cbn [computeTechProgressData totalTechs].
    destruct technologies; [congruence | simpl; lia]. }
  split.
  { unfold m. cbn [getProductionToTechMapping estimatedTechProgress
                   estimatedTechsResearched].
    unfold getEstimatedTechProgressAtGridX. cbv zeta.
    destruct (Z.eqb_spec (totalTechs data) 0); [lia | reflexivity]. }
  assert (Hb : 0 <= estimatedTechsResearched m <= totalTechs data).
  { unfold m, data. cbn [getProductionToTechMapping estimatedTechsResearched].
    rewrite estimated_techs_count. apply techsUpTo_bounds. }
  split; [exact Hb|].
  split; [apply Z.div_pos; lia | apply Z.div_le_upper_bound; lia].
Qed.

Lemma production_to_tech_mapping_witness :
  estimatedTechProgress
    (getProductionToTechMapping (computeTechProgressData sampleCatalog) 150 MappingUnit)
  = Some (estimatedTechsResearched
            (getProductionToTechMapping (computeTechProgressData sampleCatalog) 150
               MappingUnit) * 100
          / totalTechs (computeTechProgressData sampleCatalog)).
Proof.
  apply (production_to_tech_mapping sampleCatalog 150 MappingUnit). discriminate.
Defined.

(** X27.  For a positive production whose base cost (hurry modifier 0) is
    the number [c], the gold/production ratio is a number [r], the double
    nearest to [c / production]: it is not negative, it is 0 exactly when
    the cost is 0, it is within the relative error [2 ^ -53] of the exact
    quotient, and so is its exact product with the production of the cost
    (the product need not give the cost back). *)
Theorem gold_ratio_times_production (floorPow : FloorPow) (productionCost : Z)
    (ctx : GameContext) (constants : GoldPurchaseConstants) (c : Z) :
  0 < productionCost →
  getPurchaseCostFromProduction floorPow productionCost ctx 0 constants = Some c →
  ∃ r,
    getGoldToProductionRatio floorPow productionCost ctx constants = Some r
    ∧ (0 <= r)%Q
    ∧ ((r == 0)%Q ↔ c = 0)
    ∧ (inject_Z c / inject_Z productionCost * (1 - pow2 (-53)) <= r)%Q
    ∧ (r <= inject_Z c / inject_Z productionCost * (1 + pow2 (-53)))%Q
    ∧ (inject_Z c * (1 - pow2 (-53)) <= r * inject_Z productionCost)%Q
    ∧ (r * inject_Z productionCost <= inject_Z c * (1 + pow2 (-53)))%Q.
Proof.
  intros Hp Ec. unfold getGoldToProductionRatio.
  destruct (Z.leb_spec productionCost 0); [lia|]. rewrite Ec.
  pose proof (base_cost_nonneg _ _ _ _ _ _ Ec) as Hc.
  assert (HP : (0 < inject_Z productionCost)%Q) by (rewrite <- (Zlt_Qlt 0); exact Hp).
  assert (HC : (0 <= inject_Z c)%Q) by (rewrite <- (Zle_Qle 0); exact Hc).
  set (x := (inject_Z c / inject_Z productionCost)%Q).
  assert (Hx : (0 <= x)%Q).
  { unfold x. apply Qle_shift_div_l; [exact HP|]. rewrite Qmult_0_l. exact HC. }
  pose proof (roundDouble_error x Hx) as [Hl Hu].
  pose proof (roundDouble_nonneg x Hx) as Hr.
  pose proof (pow2_pos (-53)) as H53.
  assert (Hsmall : (pow2 (-53) < 1)%Q) by (vm_compute; reflexivity).
  assert (Exp : (x * inject_Z productionCost == inject_Z c)%Q).
  { unfold x. field. lra. }
  exists (roundDouble x). split; [reflexivity|]. split; [exact Hr|].
  split; [|split; [|split; [|split]]].
  - split.
    + intros Er. rewrite Er in Hl.
      assert (Hx0 : (x <= 0)%Q) by nra.
      assert (Hc0 : (inject_Z c <= 0)%Q).
      { rewrite <- Exp. nra. }
      assert (c <= 0) by (rewrite Zle_Qle; exact Hc0). lia.
    + intros ->. rewrite roundDouble_zero; [reflexivity|]. unfold x.
      change (inject_Z 0) with 0%Q. field. lra.
  - lra.
  - lra.
  - rewrite <- Exp. nra.
  - rewrite <- Exp. nra.
Qed.

Lemma gold_ratio_times_production_witness :
  ∃ r,
    getGoldToProductionRatio exactPower 159 createDefaultGameContext
      GOLD_PURCHASE_CONSTANTS_VP = Some r
    ∧ (0 <= r)%Q
    ∧ ((r == 0)%Q ↔ 317 = 0)
    ∧ (inject_Z 317 / inject_Z 159 * (1 - pow2 (-53)) <= r)%Q
    ∧ (r <= inject_Z 317 / inject_Z 159 * (1 + pow2 (-53)))%Q
    ∧ (inject_Z 317 * (1 - pow2 (-53)) <= r * inject_Z 159)%Q
    ∧ (r * inject_Z 159 <= inject_Z 317 * (1 + pow2 (-53)))%Q.
Proof.
  apply (gold_ratio_times_production exactPower 159 createDefaultGameContext
           GOLD_PURCHASE_CONSTANTS_VP 317); [lia | vm_compute; reflexivity].
Defined.
